(* ===== verification/_CoqProject ===== *)
-Q . S2P
Prelude.v
Decoder.v
Memory.v
Channel.v
Machine.v
Computer.v
Refinement.v
ListComputer.v
Day02.v
Network.v
Amplifiers.v
Robot.v
Arcade.v
Moons.v
Fuel.v
Passwords.v
Image.v
Orbits.v
Wires.v
Asteroids.v
Vaporize.v
Lifecycle.v
RobotMain.v
