(* ===== verification/Prelude.v ===== *)
(** * Intcode verification development: overview and shared prelude

    This library models, in Rocq, the Intcode virtual machine of the
    repository (Python, [src/]) and the orchestrators that drive it, and
    proves the properties that make them correct.

    ** The program

    The repository is a sequence of daily puzzle scripts; days 1, 3, 4,
    6, 8, 10 and 12 are modelled besides the machine.
    The one reusable component is the Intcode computer, rewritten with
    growing capability in [src/day-02.py], [src/day-05.py],
    [src/day-07.py], [src/day-09.py], [src/day-11.py] and
    [src/day-13.py].  Three generations of it exist:
    - day 2: [run_program], an [enumerate] loop over a Python list that
      knows ADD, MULTIPLY and HALT and skips anything else;
    - days 5 and 7: a fetch/decode/execute loop over a Python list with
      position and immediate modes and eight opcodes (day 7 wraps it in the
      class [IntcodeComputer] with an input [Queue], a [Condition] and an
      output handler, run on a [Thread]);
    - days 9, 11 and 13: the same class over a sparse memory (a [dict]
      whose missing keys read as 0), with the relative mode and
      ADJUST_REL_BASE; day 13 adds the flag [__is_waiting_for_input].
    Orchestrators wire instances together: day 7 chains five amplifiers in
    a pipeline and in a feedback cycle, day 11 drives a painting robot that
    answers on the computer's own queue, day 13 an arcade cabinet whose
    main thread polls the waiting flag.

    ** Files (in dependency order) and what they model

    - [Prelude] (this file): Python's exceptions as [py_error], the result
      monad [result] with its notation in [py_scope], the tactics
      [py_simpl] and [vm_conj], the hint databases [intcode] and
      [intcode_rw], generic lemmas on results and floor division, the
      raising [for] loop [result_fold_left] and sums over lists [sumZ].
    - [Decoder]: [OPCODE_TO_INST_SIZE] as the inductive [opcode] with the
      day 7 and day 9 tables, the [parameter] record, the digit loop
      [fetch_parameters] and [decode], generic in the subscript that reads
      a word (dict or list).  The decoding theorems are stated in
      [Computer] on the dict memory and the day 9 table.
    - [Memory]: the dict memory ([gmap Z Z], [read_memory] defaulting to
      0, [write_memory], the raising subscript [fetch_word], [init_memory]
      for the comprehension of [__init__]) and the Python list subscripts
      with negative wrap-around and IndexError ([py_get], [py_set]).
    - [Channel]: the input [Queue] ([send_input], [get_next_input]) and
      its FIFO law ([channel_fifo]).
    - [Machine]: the interface [IntcodeMachine] of an instance (one loop
      iteration, its queue) with its laws [IntcodeMachineLaws]; the loop
      with its output handler [run_with] (fuel-bounded) and the step
      relation [hstep].  Theorems against the interface: input
      timing ([input_timing]); the lemma [run_with_more_fuel] (fuel
      monotonicity) shows the fuel bound does not change a run that ended.
    - [Computer]: the day 9 class (days 11 and 13 repeat it): the record
      [computer], [resolve_parameter_value],
      [resolve_parameter_target_addr], [execute], one iteration [step]; an
      instance of the interface and its laws.  Theorems: program cells
      stay in the dict, a blocked instance resumes on input, the spec's
      quine and scenarios; the k-th mode is the k-th decimal digit of
      [mem_value // 100] ([decode_mode_digits]) and the encode/decode
      round trip ([decode_encode]).
    - [Refinement]: an abstract ISA ([instr], eager [spec_decode],
      [spec_exec]) read off the spec's tables; [step_refines_spec] shows
      one iteration of [step] is [spec_exec] of the decoded instruction;
      relative-base blocks; the divergences from the spec as theorems.
    - [ListComputer]: the day 7 class over a Python list ([lstep]) and day
      5's [run_program]; an interface instance with its laws;
      [list_step_refines_spec] relates it to the same ISA on in-range
      instructions; negative targets wrap.
    - [Day02]: the [enumerate] loop with its [next_opcode] skip, its
      equivalence with a direct program-counter machine that always ends
      ([run_program_equiv]), its agreement with the day 5/7 list computer
      on programs of ADD, MULTIPLY and HALT
      ([run_program_agrees_list_computer], through the simulation lemma
      [run_with_simulation] of [Machine]), and [main]'s
      noun/verb search, which returns the first hit ([find_noun_verb_first]).
    - [Network]: instances wired by their output handlers, any
      interleaving of their threads ([net_rel]) and an executable
      round-robin schedule.  [schedule_independence]: with single-producer
      queues, every interleaving that runs until no thread can move ends
      in the state round-robin computes (steps of different threads
      commute; stdpp's diamond/confluence lemmas do the rest).
    - [Amplifiers]: day 7's [main]: the sequential chain of part 1, the
      feedback cycle of part 2 as a [Network], [itertools.permutations]
      and the maximum; the puzzle's examples and the spec's scenario 5.
      [parts_largest_thrust]: both parts answer the largest thrust over
      all orders of the phases (or 0).
    - [Robot]: day 11's handler closure ([robot], [handle_computer_output])
      run by [run_with] on the day 9 computer.  Theorems: its invariant,
      each turn moves one panel, one answer per color/turn pair, and
      [part1_white_painted]: for every program part 1 prints the number
      of panels the program's color outputs painted white (the outputs
      recorded by [Machine.recording]), not the number of panels painted
      (a bug on the puzzle's own example, 5 for 6).
    - [Arcade]: day 13's computer with the waiting flag ([step13]), the
      triple-decoding handler, part 1's block count and part 2's polling
      loop as a two-thread relation [arcade_step].  Theorems: the handler
      implements triple semantics; a schedule that polls only while the
      computer is blocked keeps one pending joystick value; for every
      program and game, each time the computer blocks in INPUT the stale
      flag lets the real loop queue two values for that one INPUT
      ([double_joystick]).
    - [Moons]: day 12's [Moon] class and [time_step] over
      [itertools.combinations], with the in-place updates as list
      inserts; both parts of [main] (the [repeats] dict as an association
      list in insertion order, the [while] loop with fuel) and [lcm].
      Theorems: each axis evolves on its own ([axes_independent]), the
      velocity sum of each axis is conserved ([momentum_conserved]), and
      the number part 2 prints is a period of the whole system
      ([part2_period]).
    - [Fuel]: day 1's [get_fuel], recursive on the fuel it computes,
      defined with Equations by well-founded recursion on the value (so
      it is total), and the sums of [main]; [total_fuel_bounds] bounds
      both totals.
    - [Passwords]: day 4's [get_digits] (a [while] loop, Equations again),
      the index loops [is_increasing] and [min_adjacent_duplicates] with
      Python subscripts, and [main]'s counting loop.  Theorems: the digits
      are canonical ([get_digits_canonical]) and inverse to reading them
      back ([get_digits_spec]); the loop of [min_adjacent_duplicates]
      computes the shortest run of repeated digits given by a run-length
      encoding ([min_adjacent_duplicates_spec]), through a loop invariant
      and setoid rewriting of a minimum under permutation; [main] counts
      exactly the numbers the puzzle's rules accept
      ([count_passwords_spec]).
    - [Image]: day 8's layers (a comprehension of list subscripts), part
      1's [min_zeroes] loop and part 2's printing loops, whose output is a
      [string].  Theorems: the layers partition the input
      ([layers_partition]); part 1 answers for the first layer with the
      fewest zeros and raises [TypeError] without layers
      ([part1_fewest_zeros]); part 2 prints the pixelwise overlay of the
      layers ([part2_overlay]).
    - [Orbits]: day 6's orbit dict ([gmap string string]), the [while]
      loop of [get_orbit_chain] with fuel, [get_checksum] and
      [get_steps_to_santa].  [orbit_chain_terminates]: on a map ranked
      by a measure every orbit decreases, the loop ends within the rank
      of the start with the path to a root; [orbit_chain_cycle]: on a
      cycle it never ends.
    - [Wires]: day 3's walk of each wire with its [wire_points] dict, the
      crossings and both minima.  [trace_wire_first_visits]: the dict
      maps each point reached to the number of unit moves of its first
      visit.
    - [Asteroids]: day 10's part 1: the asteroids of the map, the count
      of distinct [math.atan2] values per asteroid and the station loop,
      in a section that takes [atan2] as a parameter with the two facts
      of it that matter ([atan2(0, 0) == 0.0], and [0.0] only for vectors
      pointing right).  [count_angles_self]: each asteroid counts its own
      angle, a bug that picks the wrong station on the puzzle's example.
    - [Vaporize]: day 10's part 2: the distance and angle dicts of the
      station, the dict [angles] of lists kept sorted by distance (a
      function updated at one key, as [append], [sort] and [pop(0)]
      mutate the list it holds), [sorted] and the turn of the angle
      list, and the [while True] removal loop with fuel; [math.atan2],
      [** (1/2)] and float [<] are section parameters.  Theorems: the
      loop answers the 200th element of the round-robin sweep of the
      lists ([part2_sweep], against [sweep], defined with Equations by
      well-founded recursion) and never ends below 200 asteroids; the
      sweep removes the station too, in the first turn
      ([station_vaporized]); the laser turns clockwise from straight up
      only when some angle exceeds [math.pi / 2]
      ([ordered_angles_turn]).  With exact directions and squared
      distances the model prints 802 on the puzzle's large example.
    - [Lifecycle]: day 9's instance with the state of its [Thread]
      ([start_program], which raises [RuntimeError] on a second start,
      [send_input], [wait_for_exit], whose [join] raises before the start
      and blocks on a live thread, [get_last_output]); the thread's
      iterations ([thread_step]), which [HALT], the loop guard and an
      exception all end; and [main] as the list of its calls,
      interleaved with the thread's iterations in any order
      ([sys_step]).  Proved once against the [IntcodeMachine] interface:
      the loop is deterministic and input sent between two iterations
      shifts them.  Theorems: once [main] has returned it printed the
      last output of the run on its input ([day09_main_prints_run]), the
      same under every schedule ([day09_main_schedule_independent]), and
      it cannot deadlock when that run ends ([day09_main_progress]); a
      program that reads a second input leaves both threads blocked
      ([two_inputs_deadlock]).
    - [RobotMain]: day 11's instance with its output handler installed
      by [set_output_handler] and the state of the locals the handler
      closes over; the thread's iterations call the handler, whose
      answers land on the same queue; [wait_for_exit] is the
      [is_alive()] polling loop; [main]'s four calls interleave with the
      iterations ([sys_step]).  [day11_main_paints]: when the program
      reads before it outputs, every interleaving ends where
      [Robot.paint] does; otherwise the start-then-send order changes
      what is painted ([start_before_send_matters]).

    ** Modelling choices

    - Integers are Python integers, [Z] without wrap-around; [%] and [//]
      by a positive constant are [Z.modulo] and [Z.div] (floor).
    - A thread blocked in [__get_next_input] is the step result [Wait];
      the step is re-run once input has arrived.  Only the instance's own
      thread touches its memory, so a step is atomic with respect to other
      threads except through the queues, which [Network] and [Arcade]
      model explicitly.
    - The endless [while] loops are bounded by [nat] fuel ([run_with],
      [round_robin], [play]); results are stated for given fuel and
      [run_with_more_fuel] shows more fuel changes nothing once a run has
      ended.  Day 12's [repeats_loop] has fuel too; [part2_period] is
      stated for any run that ends, and the puzzle's example ends after
      44 iterations.  Day 6's chain loop has fuel, and
      [orbit_chain_terminates] shows the rank of the start is enough.
      The fuels used in the concrete theorems (100-1000 iterations)
      are those the programs need, checked by evaluation; [run_program]
      of day 2 needs [len(values)] iterations, which its equivalence
      theorem proves are enough.
    - Values sent after [start_program()] are queued before the start in
      [Amplifiers] and [Robot]; [input_timing] shows the order does not
      matter for an instance whose handler does not feed itself.
    - An exception raised in a thread is the value [Crash e]; it ends the
      thread ([Lifecycle]) and the joins after it return.  A join that
      would hang forever is [None] in the orchestrators.
    - In [Lifecycle] one iteration of the loop is atomic with respect to
      [main]; [main] touches the instance only through the queue (whose
      lock serialises it with [__get_next_input]) and [__last_output],
      which it reads after the join.  The scheduler [run_schedule] used by
      the examples has fuel; the echo program needs 8, and 20 is given.

    ** Not modelled

    File reading and printing ([open], [print], [print_points], the
    regular expressions of day 12 and the splitting of lines of days 3
    and 6), the rounding of day 10's floats (the angle and distance
    types are parameters: two directions whose [math.atan2] values
    round to the same float are one angle for the code and two for the
    exact examples), and the [sleep]/[join(0.1)] timing, which only
    spaces polls ([join(0.1)] in a [while is_alive()] loop returns when
    [join()] would). *)

From stdpp Require Export base list gmap relations.
From Stdlib Require Export ZArith Lia.

(** Python's exceptions raised by the Intcode code. *)
Inductive py_error :=
| InvalidOpcode (opcode : Z)        (* ValueError(f'{opcode} is not a valid opcode') *)
| UnsupportedMode (mode : Z)        (* ValueError(f"Unsupported parameter mode {mode}") *)
| KeyError (key : Z)                (* dict subscript of a missing key *)
| IndexError (index : Z)            (* list subscript out of range *)
| TypeError                         (* an operation on None, e.g. iterating it *)
| RuntimeError                      (* Thread.start twice, Thread.join before start *)
| AttributeError                    (* an attribute of None, e.g. station.x *)
| UnboundLocalError.                (* a local read before any assignment *)

#[export] Instance py_error_eq_dec : EqDecision py_error.
Proof. solve_decision. Defined.

(** A computation that returns a value or raises. *)
Inductive result (A : Type) := Ok (a : A) | Raise (e : py_error).
Arguments Ok {A} a.
Arguments Raise {A} e.

Declare Scope py_scope.
Delimit Scope py_scope with py.
Notation "x <- c ;; k" := (match c with Ok x => k | Raise e => Raise e end)
  (at level 60, c at next level, right associativity) : py_scope.
Open Scope py_scope.
Open Scope Z_scope.

Definition result_map {A B} (f : A -> B) (r : result A) : result B :=
  x <- r ;; Ok (f x).

(** A list comprehension whose element expression may raise. *)
Fixpoint result_mapM {A B} (f : A -> result B) (l : list A) : result (list B) :=
  match l with
  | [] => Ok []
  | a :: l' => b <- f a ;; bs <- result_mapM f l' ;; Ok (b :: bs)
  end.

(** A [for] loop whose body may raise: the body runs on each element in
    turn and the first exception ends the loop. *)
Fixpoint result_fold_left {A B} (f : A -> B -> result A) (l : list B) (a : A) : result A :=
  match l with
  | [] => Ok a
  | b :: l' => a' <- f a b ;; result_fold_left f l' a'
  end.

Create HintDb intcode discriminated.
Create Rewrite HintDb intcode_rw.

(** Case analysis on the results a hypothesis binds. *)
Ltac py_simpl :=
  repeat match goal with
  | H : Ok _ = Ok _ |- _ => injection H as H
  | H : Ok _ = Raise _ |- _ => discriminate H
  | H : Raise _ = Ok _ |- _ => discriminate H
  | H : context [match ?c with Ok _ => _ | Raise _ => _ end] |- _ =>
      let E := fresh "E" in destruct c eqn:E; [| try discriminate H]
  end; subst.

(** Closes a conjunction of closed equations by evaluation, each conjunct
    with its own [vm_compute] so that the kernel re-checks it by the VM. *)
Ltac vm_conj :=
  repeat (lazymatch goal with |- _ /\ _ => split; [vm_compute; reflexivity|] end);
  vm_compute; reflexivity.

Section ResultLemmas.
Context {A B : Type}.

Lemma bind_Ok_inv (c : result A) (k : A -> result B) (b : B) :
  (x <- c ;; k x) = Ok b -> exists a, c = Ok a /\ k a = Ok b.
Proof. destruct c; [eauto | discriminate]. Qed.

Lemma bind_Raise_inv (c : result A) (k : A -> result B) (e : py_error) :
  (x <- c ;; k x) = Raise e -> c = Raise e \/ exists a, c = Ok a /\ k a = Raise e.
Proof. destruct c; [eauto | intros [= ->]; auto]. Qed.
End ResultLemmas.

(** Loops and comprehensions whose body does not raise on their
    elements are their pure versions. *)
Lemma result_fold_left_Ok {A B} (f : A -> B -> result A) (g : A -> B -> A) (l : list B) (a : A) :
  (forall a x, x ∈ l -> f a x = Ok (g a x)) -> result_fold_left f l a = Ok (fold_left g l a).
Proof.
  revert a. induction l as [|x l IH]; intros a Hf; [done|]. simpl.
  rewrite Hf by set_solver. apply IH. intros. apply Hf. set_solver.
Qed.

Lemma result_mapM_Ok {A B} (f : A -> result B) (g : A -> B) (l : list A) :
  (forall x, x ∈ l -> f x = Ok (g x)) -> result_mapM f l = Ok (g <$> l).
Proof.
  induction l as [|x l IH]; intros Hf; [done|]. simpl.
  rewrite Hf, IH by set_solver. done.
Qed.

(** Python's [//] and [%] by a positive divisor are floor operations. *)
Lemma floor_div_mod_pos (v d : Z) :
  0 < d -> v = d * (v / d) + v mod d /\ 0 <= v mod d < d.
Proof.
  intros Hd. split; [apply Z.div_mod; lia | apply Z.mod_pos_bound; lia].
Qed.

(** ** Sums over lists *)

(** [sum(f(a) for a in l)] *)
Definition sumZ {A} (f : A -> Z) (l : list A) : Z := foldr (fun a acc => f a + acc) 0 l.

Lemma sumZ_insert {A} (f : A -> Z) (l : list A) i a b :
  l !! i = Some b -> sumZ f (<[i := a]> l) = sumZ f l - f b + f a.
Proof.
  revert i. induction l as [|c l IH]; intros [|i] Hi; simplify_eq/=; [lia|].
  rewrite (IH i Hi). lia.
Qed.

Lemma sumZ_fmap {A B} (f : B -> Z) (g : A -> B) (l : list A) : sumZ f (g <$> l) = sumZ (f ∘ g) l.
Proof.
  unfold sumZ. induction l as [|a l IH]; [done|]. rewrite fmap_cons. cbn [foldr]. by rewrite IH.
Qed.

Lemma sumZ_le {A} (f g : A -> Z) (l : list A) :
  (forall a, f a <= g a) -> sumZ f l <= sumZ g l.
Proof. intros H. induction l as [|a l IH]; simpl; [lia|]. specialize (H a). lia. Qed.

Lemma sumZ_nonneg {A} (f : A -> Z) (l : list A) : (forall a, 0 <= f a) -> 0 <= sumZ f l.
Proof. intros H. induction l as [|a l IH]; simpl; [lia|]. specialize (H a). lia. Qed.

Lemma sumZ_scale {A} (k : Z) (f : A -> Z) (l : list A) :
  k * sumZ f l = sumZ (fun a => k * f a) l.
Proof. induction l as [|a l IH]; simpl; lia. Qed.

(** [range(n, n + k + 1)] starts with [n]. *)
Lemma seqZ_succ (n k : nat) : seqZ (Z.of_nat n) (Z.of_nat (S k)) = Z.of_nat n :: seqZ (Z.of_nat (S n)) (Z.of_nat k).
Proof. rewrite seqZ_cons by lia. f_equal; f_equal; lia. Qed.
