(* ===== verification/Decoder.v ===== *)
(** * Decoder: opcodes, the instruction-size table and parameter modes

    Models the decode half of [__run_program] shared by every generation
    of the Intcode computer ([src/day-07.py] lines 76-87, [src/day-09.py]
    lines 82-93): [opcode = mem_value % 100], the membership test
    [opcode not in OPCODE_TO_INST_SIZE], and the loop that builds the
    [parameters] list from the operand words and the digits of
    [mem_value // 100].  The decoder is generic in the function reading an
    instruction word, since day 7 subscripts a list and day 9 a dict. *)

From S2P Require Import Prelude.

(** The opcode constants [ADD = 1] ... [HALT = 99]. *)
Inductive opcode :=
| ADD | MULTIPLY | INPUT | OUTPUT | JUMP_IF_TRUE | JUMP_IF_FALSE
| LESS_THAN | EQUAL_TO | ADJUST_REL_BASE | HALT.

#[export] Instance opcode_eq_dec : EqDecision opcode.
Proof. solve_decision. Defined.

Definition opcode_to_Z (op : opcode) : Z :=
  match op with
  | ADD => 1 | MULTIPLY => 2 | INPUT => 3 | OUTPUT => 4
  | JUMP_IF_TRUE => 5 | JUMP_IF_FALSE => 6 | LESS_THAN => 7 | EQUAL_TO => 8
  | ADJUST_REL_BASE => 9 | HALT => 99
  end.

(** The values of the dict [OPCODE_TO_INST_SIZE]. *)
Definition OPCODE_TO_INST_SIZE (op : opcode) : nat :=
  match op with
  | ADD | MULTIPLY | LESS_THAN | EQUAL_TO => 4
  | INPUT | OUTPUT | ADJUST_REL_BASE => 2
  | JUMP_IF_TRUE | JUMP_IF_FALSE => 3
  | HALT => 1
  end.

(** The keys of the dict in days 5 and 7: no ADJUST_REL_BASE. *)
Definition opcode_table_day07 (z : Z) : option opcode :=
  match z with
  | 1 => Some ADD | 2 => Some MULTIPLY | 3 => Some INPUT | 4 => Some OUTPUT
  | 5 => Some JUMP_IF_TRUE | 6 => Some JUMP_IF_FALSE | 7 => Some LESS_THAN
  | 8 => Some EQUAL_TO | 99 => Some HALT
  | _ => None
  end.

(** The keys of the dict in days 9, 11 and 13. *)
Definition opcode_table_day09 (z : Z) : option opcode :=
  if z =? 9 then Some ADJUST_REL_BASE else opcode_table_day07 z.

Definition POSITION_MODE : Z := 0.
Definition IMMEDIATE_MODE : Z := 1.
Definition RELATIVE_MODE : Z := 2.

(** [Parameter = namedtuple("Parameter", "value mode")] *)
Record parameter := mkParameter { value : Z; mode : Z }.

(** [parameters[k]]: a list subscript. *)
Definition param (ps : list parameter) (k : nat) : result parameter :=
  match ps !! k with
  | Some p => Ok p
  | None => Raise (IndexError (Z.of_nat k))
  end.

Section Decode.
(** [fetch a] is the subscript [memory[a]] of the generation at hand. *)
Variable fetch : Z -> result Z.
(** [table z] is the lookup of [z] among the keys of [OPCODE_TO_INST_SIZE]. *)
Variable table : Z -> option opcode.

(** [for j in range(1, n+1): parameters.append(Parameter(memory[i + j],
    param_mode % 10)); param_mode //= 10], with [addr = i + j]. *)
Fixpoint fetch_parameters (addr param_mode : Z) (n : nat) : result (list parameter) :=
  match n with
  | O => Ok []
  | S n' =>
      w <- fetch addr ;;
      ps <- fetch_parameters (addr + 1) (param_mode / 10) n' ;;
      Ok (mkParameter w (param_mode mod 10) :: ps)
  end.

Definition decode (i : Z) : result (opcode * list parameter) :=
  mem_value <- fetch i ;;
  let opcode := mem_value mod 100 in
  match table opcode with
  | None => Raise (InvalidOpcode opcode)
  | Some op =>
      ps <- fetch_parameters (i + 1) (mem_value / 100)
              (Nat.pred (OPCODE_TO_INST_SIZE op)) ;;
      Ok (op, ps)
  end.
End Decode.

(** The instruction word that selects [op] with the given modes, least
    significant mode first: the inverse of the decode loop. *)
Fixpoint modes_to_Z (modes : list Z) : Z :=
  match modes with
  | [] => 0
  | m :: ms => m + 10 * modes_to_Z ms
  end.

Definition encode_instruction (op : opcode) (modes : list Z) : Z :=
  opcode_to_Z op + 100 * modes_to_Z modes.

Section DecodeFacts.
Variable fetch : Z -> result Z.
Variable table : Z -> option opcode.

Lemma fetch_parameters_length addr pm n ps :
  fetch_parameters fetch addr pm n = Ok ps -> length ps = n.
Proof.
  revert addr pm ps; induction n as [|n IH]; intros addr pm ps H; simpl in H.
  - by py_simpl.
  - py_simpl. simpl. f_equal. eauto.
Qed.

Lemma pow10_succ (k : nat) : 10 ^ Z.of_nat (S k) = 10 * 10 ^ Z.of_nat k.
Proof. rewrite Nat2Z.inj_succ, Z.pow_succ_r; lia. Qed.

(** The k-th parameter reads the word at [addr + k] and takes the k-th
    decimal digit of [param_mode] as its mode. *)
Lemma fetch_parameters_lookup addr pm n ps k p :
  fetch_parameters fetch addr pm n = Ok ps -> ps !! k = Some p ->
  fetch (addr + Z.of_nat k) = Ok (value p) /\
  mode p = (pm / 10 ^ Z.of_nat k) mod 10.
Proof.
  revert addr pm ps k; induction n as [|n IH]; intros addr pm ps k H Hk;
    simpl in H; py_simpl; [done|].
  destruct k as [|k]; simpl in Hk.
  - injection Hk as <-. simpl. rewrite Z.add_0_r, Z.div_1_r. done.
  - destruct (IH _ _ _ _ E0 Hk) as [Hv Hm]. split.
    + by replace (addr + Z.of_nat (S k)) with (addr + 1 + Z.of_nat k) by lia.
    + rewrite Hm, pow10_succ, Z.div_div; [done | lia |].
      apply Z.pow_pos_nonneg; lia.
Qed.

Lemma fetch_parameters_encode addr n words modes :
  length words = n -> length modes = n ->
  Forall (fun m => 0 <= m < 10) modes ->
  (forall k w, words !! k = Some w -> fetch (addr + Z.of_nat k) = Ok w) ->
  fetch_parameters fetch addr (modes_to_Z modes) n = Ok (zip_with mkParameter words modes).
Proof.
  revert addr words modes; induction n as [|n IH];
    intros addr [|w ws] [|m ms] Hw Hm Hf Hfetch; simpl in *; try lia; [done|].
  inversion Hf as [|? ? Hm0 Hf']; subst.
  pose proof (Hfetch 0%nat w eq_refl) as H0. rewrite Z.add_0_r in H0. rewrite H0.
  replace ((m + 10 * modes_to_Z ms) / 10) with (modes_to_Z ms)
    by (apply Z.div_unique with m; lia).
  replace ((m + 10 * modes_to_Z ms) mod 10) with m
    by (apply Z.mod_unique with (modes_to_Z ms); lia).
  rewrite (IH (addr + 1) ws ms); [done| lia | lia | done |].
  intros k w' Hk. rewrite <- (Hfetch (S k) w' Hk). f_equal. lia.
Qed.

(** When every operand word is readable, the loop returns the list of
    parameters whose k-th is word k with the k-th digit as its mode. *)
Lemma fetch_parameters_seq addr pm n (w : nat -> Z) :
  (forall k, (k < n)%nat -> fetch (addr + Z.of_nat k) = Ok (w k)) ->
  fetch_parameters fetch addr pm n =
    Ok (map (fun k => mkParameter (w k) ((pm / 10 ^ Z.of_nat k) mod 10)) (seq 0 n)).
Proof.
  revert addr pm w; induction n as [|n IH]; intros addr pm w Hw; [done|].
  simpl. pose proof (Hw 0%nat ltac:(lia)) as H0. rewrite Z.add_0_r in H0. rewrite H0.
  rewrite (IH (addr + 1) (pm / 10) (fun k => w (S k))).
  - rewrite Z.div_1_r, <- seq_shift, map_map. do 2 f_equal.
    apply map_ext. intros k. f_equal. rewrite pow10_succ, Z.div_div; [done | lia |].
    apply Z.pow_pos_nonneg; lia.
  - intros k Hk. rewrite <- (Hw (S k)) by lia. f_equal. lia.
Qed.
End DecodeFacts.

#[export] Hint Resolve fetch_parameters_length : intcode.

Section DecodeTheorems.
Variable fetch : Z -> result Z.
Variable table : Z -> option opcode.

(** A decoded instruction has one parameter per operand word: the
    subscripts [parameters[k]] of the executor never raise. *)
Lemma decode_arity i op ps :
  decode fetch table i = Ok (op, ps) ->
  length ps = Nat.pred (OPCODE_TO_INST_SIZE op).
Proof.
  unfold decode. intros H. py_simpl.
  destruct (table _) eqn:?; [|done]. py_simpl. eauto with intcode.
Qed.
End DecodeTheorems.
