(* ===== verification/Memory.v ===== *)
(** * Memory: the dict memory of days 9-13 and the list memory of days 2-7

    The sparse memory is the attribute [self.__memory] of
    [IntcodeComputer] in [src/day-09.py] (and days 11, 13): a dict built
    from the program by [{i: memory[i] for i in range(len(memory))}], read
    through [__read_memory] (missing keys read as 0), written through
    [__write_memory] (any key, negative ones included), and subscripted
    directly ([self.__memory[i]]) when the loop fetches an instruction or
    operand word, which raises KeyError on a missing key.  The loop guard
    compares with [len(self.__memory)], the number of keys.

    The list memory of [src/day-02.py], [src/day-05.py] and
    [src/day-07.py] is a Python list: a subscript [k] with
    [-len <= k < 0] reads [len + k], one outside [-len, len) raises
    IndexError, and assignments follow the same rule. *)

From S2P Require Import Prelude.

(** ** Sparse memory *)

(** [{i: memory[i] for i in range(len(memory))}] *)
Definition init_memory (program : list Z) : gmap Z Z := map_seqZ 0 program.

(** [__read_memory]: [self.__memory[address] if address in self.__memory else 0] *)
Definition read_memory (mem : gmap Z Z) (address : Z) : Z :=
  match mem !! address with Some v => v | None => 0 end.

(** [__write_memory]: [self.__memory[address] = value] *)
Definition write_memory (mem : gmap Z Z) (address v : Z) : gmap Z Z :=
  <[address := v]> mem.

(** The raw subscript [self.__memory[a]] of the fetch loop. *)
Definition fetch_word (mem : gmap Z Z) (a : Z) : result Z :=
  match mem !! a with Some v => Ok v | None => Raise (KeyError a) end.

(** [len(self.__memory)] *)
Definition memory_len (mem : gmap Z Z) : Z := Z.of_nat (size mem).

Section SparseFacts.
Implicit Types (mem : gmap Z Z).

Lemma read_write_eq mem a v : read_memory (write_memory mem a v) a = v.
Proof. unfold read_memory, write_memory. by rewrite lookup_insert_eq. Qed.

Lemma read_write_ne mem a b v :
  a <> b -> read_memory (write_memory mem a v) b = read_memory mem b.
Proof. intros. unfold read_memory, write_memory. by rewrite lookup_insert_ne. Qed.

Lemma fetch_read mem a v : fetch_word mem a = Ok v -> read_memory mem a = v.
Proof. unfold fetch_word, read_memory. destruct (mem !! a); by intros [= ->]. Qed.

Lemma fetch_write_eq mem a v : fetch_word (write_memory mem a v) a = Ok v.
Proof. unfold fetch_word, write_memory. by rewrite lookup_insert_eq. Qed.

Lemma fetch_write_ne mem a b v :
  a <> b -> fetch_word (write_memory mem a v) b = fetch_word mem b.
Proof. intros. unfold fetch_word, write_memory. by rewrite lookup_insert_ne. Qed.

(** A write never removes a key, so the dict never shrinks. *)
Lemma write_memory_dom mem a v : dom mem ⊆ dom (write_memory mem a v).
Proof. unfold write_memory. rewrite dom_insert_L. set_solver. Qed.

Lemma write_memory_len mem a v : memory_len mem <= memory_len (write_memory mem a v).
Proof.
  unfold memory_len, write_memory. apply Nat2Z.inj_le.
  destruct (mem !! a) eqn:E.
  - rewrite map_size_insert_Some by eauto. lia.
  - rewrite map_size_insert_None by done. lia.
Qed.

Lemma init_memory_lookup program k :
  init_memory program !! k =
    if decide (0 <= k) then program !! Z.to_nat k else None.
Proof.
  unfold init_memory. rewrite lookup_map_seqZ, Z.sub_0_r.
  case_decide; case_guard; done || lia.
Qed.

Lemma size_map_seqZ (start : Z) (xs : list Z) :
  size (map_seqZ start xs : gmap Z Z) = length xs.
Proof.
  revert start. induction xs as [|x xs IH]; intros start; [done|].
  rewrite map_seqZ_cons, map_size_insert_None by apply map_seqZ_cons_disjoint.
  simpl. by rewrite IH.
Qed.

Lemma init_memory_len program : memory_len (init_memory program) = Z.of_nat (length program).
Proof. unfold memory_len, init_memory. by rewrite size_map_seqZ. Qed.
End SparseFacts.

#[export] Hint Rewrite read_write_eq fetch_write_eq : intcode_rw.
#[export] Hint Resolve write_memory_dom write_memory_len : intcode.

(** ** Python list memory *)

(** The position that the subscript [k] of a list of length [len] denotes. *)
Definition py_index (len : nat) (k : Z) : option nat :=
  if (0 <=? k) && (k <? Z.of_nat len) then Some (Z.to_nat k)
  else if (- Z.of_nat len <=? k) && (k <? 0) then Some (Z.to_nat (Z.of_nat len + k))
  else None.

(** [l[k]] *)
Definition py_get (l : list Z) (k : Z) : result Z :=
  match py_index (length l) k with
  | Some n => match l !! n with Some v => Ok v | None => Raise (IndexError k) end
  | None => Raise (IndexError k)
  end.

(** [l[k] = v] *)
Definition py_set (l : list Z) (k v : Z) : result (list Z) :=
  match py_index (length l) k with
  | Some n => Ok (<[n := v]> l)
  | None => Raise (IndexError k)
  end.

Section ListFacts.
Implicit Types (l : list Z).

Lemma py_index_lt len k n : py_index len k = Some n -> (n < len)%nat.
Proof.
  unfold py_index.
  destruct (Z.leb_spec 0 k), (Z.ltb_spec k (Z.of_nat len)),
    (Z.leb_spec (- Z.of_nat len) k), (Z.ltb_spec k 0);
    simpl; intros; simplify_eq; lia.
Qed.

Lemma py_index_nonneg len k :
  0 <= k < Z.of_nat len -> py_index len k = Some (Z.to_nat k).
Proof.
  intros Hk. unfold py_index.
  replace ((0 <=? k) && (k <? Z.of_nat len)) with true; [done|].
  symmetry. apply andb_true_iff. rewrite Z.leb_le, Z.ltb_lt. lia.
Qed.

Lemma py_get_nonneg l k :
  0 <= k < Z.of_nat (length l) -> exists v, l !! Z.to_nat k = Some v /\ py_get l k = Ok v.
Proof.
  intros Hk. unfold py_get. rewrite py_index_nonneg by done.
  destruct (lookup_lt_is_Some_2 l (Z.to_nat k)) as [v Hv]; [lia|].
  rewrite Hv. eauto.
Qed.

Lemma py_get_lookup l (n : nat) d : l !! n = Some d -> py_get l (Z.of_nat n) = Ok d.
Proof.
  intros Hd. pose proof (lookup_lt_Some _ _ _ Hd).
  destruct (py_get_nonneg l (Z.of_nat n)) as (v & Hv & ->); [lia|].
  rewrite Nat2Z.id, Hd in Hv. congruence.
Qed.

Lemma py_set_length l k v l' : py_set l k v = Ok l' -> length l' = length l.
Proof.
  unfold py_set. destruct (py_index _ _); intros; simplify_eq. apply length_insert.
Qed.
End ListFacts.

#[export] Hint Resolve py_set_length : intcode.
