(* ===== verification/Channel.v ===== *)
(** * Channel: the input queue of an Intcode instance

    [self.__inputs = Queue()] guarded by [self.__input_condition] in
    [src/day-09.py] (lines 42-45, 143-155; identical in days 7, 11, 13):
    [send_input] puts a value at the back and notifies, and
    [__get_next_input] waits while the queue is empty and then takes the
    front value.  The model is the queue's contents, a [list Z] with the
    front first; a take on an empty queue is the blocked state ([None]).
    The single-producer/single-consumer discipline of the spec is the
    sequence [channel_op] of puts and takes in the order the lock
    serialises them. *)

From S2P Require Import Prelude.

(** [send_input]: [self.__inputs.put(value)] under the condition's lock. *)
Definition send_input (q : list Z) (v : Z) : list Z := q ++ [v].

(** [__get_next_input]: blocks ([None]) while empty, else [get()]. *)
Definition get_next_input (q : list Z) : option (Z * list Z) :=
  match q with
  | [] => None
  | v :: q' => Some (v, q')
  end.

(** Several [send_input] calls in a row. *)
Definition send_inputs (q : list Z) (vs : list Z) : list Z := fold_left send_input vs q.

(** An operation on the queue, in the order the lock serialises them. *)
Inductive channel_op := Put (v : Z) | Take.

Definition puts (ops : list channel_op) : list Z :=
  omap (fun o => match o with Put v => Some v | Take => None end) ops.

(** Applies the operations; a take on an empty queue blocks forever, so a
    sequence that contains one does not complete ([None]).  Returns the
    values taken, in order, and the final queue. *)
Fixpoint apply_ops (ops : list channel_op) (q : list Z) : option (list Z * list Z) :=
  match ops with
  | [] => Some ([], q)
  | Put v :: ops' => apply_ops ops' (send_input q v)
  | Take :: ops' =>
      match get_next_input q with
      | None => None
      | Some (v, q') =>
          match apply_ops ops' q' with
          | Some (got, qf) => Some (v :: got, qf)
          | None => None
          end
      end
  end.

Lemma send_inputs_app q vs : send_inputs q vs = q ++ vs.
Proof.
  unfold send_inputs. revert q. induction vs as [|v vs IH]; intros q; simpl.
  - by rewrite app_nil_r.
  - rewrite IH. unfold send_input. by rewrite <- app_assoc.
Qed.

#[export] Hint Rewrite send_inputs_app : intcode_rw.

(** C10: the queue is FIFO.  In any completed sequence of puts and takes,
    the values taken followed by those still queued are the initial
    contents followed by the values put, in order: nothing is lost,
    duplicated or reordered. *)
Theorem channel_fifo ops q0 got q :
  apply_ops ops q0 = Some (got, q) -> q0 ++ puts ops = got ++ q.
Proof.
  revert q0 got q. induction ops as [|[v|] ops IH]; intros q0 got q H; simpl in H.
  - injection H as <- <-. by rewrite app_nil_r.
  - apply IH in H. unfold send_input in H. simpl. by rewrite <- H, <- app_assoc.
  - destruct q0 as [|v q0']; [done|]. simpl in H.
    destruct (apply_ops ops q0') as [[got' qf]|] eqn:E; [|done].
    injection H as <- <-. simpl. f_equal. by apply IH.
Qed.

(** The witness: pushing [3,1,4,1,5] and then draining yields [3,1,4,1,5]. *)
Lemma channel_fifo_witness :
  apply_ops (map Put [3;1;4;1;5] ++ replicate 5 Take) [] = Some ([3;1;4;1;5], []) /\
  [] ++ puts (map Put [3;1;4;1;5] ++ replicate 5 Take) = [3;1;4;1;5] ++ [].
Proof.
  split; [reflexivity|]. apply channel_fifo. reflexivity.
Defined.
