(* ===== verification/Machine.v ===== *)
(** * Machine: the interface of an Intcode instance and its run loop

    Both generations of [IntcodeComputer] that run on a thread (the list
    memory one of [src/day-07.py] and the dict one of [src/day-09.py])
    expose the same thing to their orchestrators: one iteration of the
    [while] loop of [__run_program] and the input queue that [send_input]
    appends to.  [IntcodeMachine] is that interface; [IntcodeMachineLaws]
    states what an implementation promises about its queue (a step that
    does not block ignores input queued behind, and only an empty queue
    blocks).  The loop with its output handler, [run_with], the step
    relation [hstep] and the theorems about runs are proved once here,
    against the interface. *)

From S2P Require Import Prelude Channel.

(** One iteration of the [while] loop. *)
Inductive step_result (M : Type) :=
| Continue (out : option Z) (c : M)   (* the loop goes on; [out] went to the handler *)
| Halted                              (* [break] on HALT *)
| Exited                              (* the loop guard [i < len(memory)] is false *)
| Wait                                (* blocked in [__get_next_input] on an empty queue *)
| Crash (e : py_error).               (* an exception ends the thread *)
Arguments Continue {M} out c.
Arguments Halted {M}.
Arguments Exited {M}.
Arguments Wait {M}.
Arguments Crash {M} e.

Definition map_step {A B} (f : A -> B) (r : step_result A) : step_result B :=
  match r with
  | Continue o c => Continue o (f c)
  | Halted => Halted | Exited => Exited | Wait => Wait | Crash e => Crash e
  end.

Class IntcodeMachine (M : Type) := {
  machine_step : M -> step_result M;
  machine_inputs : M -> list Z;
  machine_set_inputs : M -> list Z -> M
}.

(** [send_input] from outside the instance, several times. *)
Definition add_inputs {M} `{IntcodeMachine M} (c : M) (vs : list Z) : M :=
  machine_set_inputs c (send_inputs (machine_inputs c) vs).

Class IntcodeMachineLaws (M : Type) `{IntcodeMachine M} := {
  inputs_set_inputs c q : machine_inputs (machine_set_inputs c q) = q;
  set_inputs_inputs c : machine_set_inputs c (machine_inputs c) = c;
  step_add_inputs c vs r :
    machine_step c = r -> r <> Wait ->
    machine_step (add_inputs c vs) =
      match r with Continue o c' => Continue o (add_inputs c' vs) | _ => r end;
  step_wait_inputs c : machine_step c = Wait -> machine_inputs c = []
}.

(** How the thread of an instance ends, with the handler's state. *)
Inductive outcome (M W : Type) :=
| Finished (w : W) (c : M)             (* HALT, or the loop guard failed *)
| Blocked (w : W) (c : M)              (* waiting for input *)
| Crashed (e : py_error) (w : W) (c : M)
| OutOfFuel (w : W) (c : M).
Arguments Finished {M W} w c.
Arguments Blocked {M W} w c.
Arguments Crashed {M W} e w c.
Arguments OutOfFuel {M W} w c.

Section Run.
Context {M : Type} `{IntcodeMachine M} {W : Type}.
(** The output handler: from the value output and its own state, its
    next state and the values it sends back to this instance's queue
    (the robot of day 11 answers on the same instance). *)
Variable handler : Z -> W -> W * list Z.

(** The loop of [__run_program] on its thread, bounded by [fuel]. *)
Fixpoint run_with (fuel : nat) (w : W) (c : M) : outcome M W :=
  match fuel with
  | O => OutOfFuel w c
  | S fuel' =>
      match machine_step c with
      | Continue None c' => run_with fuel' w c'
      | Continue (Some v) c' =>
          let '(w', sent) := handler v w in run_with fuel' w' (add_inputs c' sent)
      | Halted | Exited => Finished w c
      | Wait => Blocked w c
      | Crash e => Crashed e w c
      end
  end.

(** The handler called on a sequence of outputs, with all it sends back. *)
Fixpoint handler_run (os : list Z) (w : W) : W * list Z :=
  match os with
  | [] => (w, [])
  | o :: os' =>
      let '(w1, s1) := handler o w in
      let '(w2, s2) := handler_run os' w1 in (w2, s1 ++ s2)
  end.

(** [Q] holds of every state the run visits. *)
Fixpoint run_all (Q : M -> bool) (fuel : nat) (w : W) (c : M) : bool :=
  Q c &&
  match fuel with
  | O => true
  | S fuel' =>
      match machine_step c with
      | Continue None c' => run_all Q fuel' w c'
      | Continue (Some v) c' => let '(w', sent) := handler v w in run_all Q fuel' w' (add_inputs c' sent)
      | _ => true
      end
  end.

(** One iteration, with the handler's effect on an OUTPUT. *)
Inductive hstep : W * M -> W * M -> Prop :=
| hstep_silent w c c' :
    machine_step c = Continue None c' -> hstep (w, c) (w, c')
| hstep_output w c c' v w' sent :
    machine_step c = Continue (Some v) c' -> handler v w = (w', sent) ->
    hstep (w, c) (w', add_inputs c' sent).
End Run.

Definition outcome_map {M1 M2 W} (f : M1 -> M2) (o : outcome M1 W) : outcome M2 W :=
  match o with
  | Finished w c => Finished w (f c)
  | Blocked w c => Blocked w (f c)
  | Crashed e w c => Crashed e w (f c)
  | OutOfFuel w c => OutOfFuel w (f c)
  end.

Definition outcome_state {M W} (o : outcome M W) : W * M :=
  match o with
  | Finished w c | Blocked w c | Crashed _ w c | OutOfFuel w c => (w, c)
  end.

(** The same outcome with the handler's state mapped. *)
Definition outcome_wmap {M W1 W2} (f : W1 -> W2) (o : outcome M W1) : outcome M W2 :=
  match o with
  | Finished w c => Finished (f w) c
  | Blocked w c => Blocked (f w) c
  | Crashed e w c => Crashed e (f w) c
  | OutOfFuel w c => OutOfFuel (f w) c
  end.

(** What the last state of an outcome does when stepped. *)
Definition outcome_ends {M W} `{IntcodeMachine M} (o : outcome M W) : Prop :=
  match o with
  | Finished _ c => machine_step c = Halted \/ machine_step c = Exited
  | Blocked _ c => machine_step c = Wait
  | Crashed e _ c => machine_step c = Crash e
  | OutOfFuel _ _ => True
  end.

Lemma handler_run_app {W} (handler : Z -> W -> W * list Z) os1 os2 w :
  handler_run handler (os1 ++ os2) w =
    ((handler_run handler os2 (handler_run handler os1 w).1).1,
     (handler_run handler os1 w).2 ++ (handler_run handler os2 (handler_run handler os1 w).1).2).
Proof.
  revert w. induction os1 as [|o os1 IH]; intros w; simpl; [by destruct (handler_run _ os2 w)|].
  destruct (handler o w) as [w1 s1]. rewrite IH.
  destruct (handler_run handler os1 w1) as [w2 s2]. simpl.
  destruct (handler_run handler os2 w2). simpl. by rewrite app_assoc.
Qed.

Section RunFacts.
Context {M : Type} `{IntcodeMachine M} {W : Type} (handler : Z -> W -> W * list Z).

(** The fuel interpreter follows the step relation, and its outcome says
    how the last state steps. *)
Lemma run_with_sound n w c :
  rtc (hstep handler) (w, c) (outcome_state (run_with handler n w c)) /\
  outcome_ends (run_with handler n w c).
Proof.
  revert w c. induction n as [|n IH]; intros w c; simpl; [split; [done | exact I]|].
  destruct (machine_step c) as [[v|] c'| | | |e] eqn:Hs; simpl; try (split; [done | auto]).
  - destruct (handler v w) as [w' sent] eqn:Hh.
    destruct (IH w' (add_inputs c' sent)) as [H1 H2].
    split; [|done]. eapply rtc_l; [|exact H1]. by econstructor.
  - destruct (IH w c') as [H1 H2]. split; [|done].
    eapply rtc_l; [|exact H1]. by constructor.
Qed.

(** A property of the handler's state that every call of the handler
    preserves holds at the end of every run. *)
Lemma run_with_handler_inv (P : W -> Prop) n w c :
  (forall v w0, P w0 -> P (handler v w0).1) -> P w ->
  P (outcome_state (run_with handler n w c)).1.
Proof.
  intros Hpres Hw. destruct (run_with_sound n w c) as [Hr _].
  remember (w, c) as s eqn:Es. remember (outcome_state (run_with handler n w c)) as s' eqn:Es'.
  clear Es'. revert w c Es Hw.
  induction Hr as [|s1 s2 s3 Hs _ IH]; intros w c -> Hw; [done|].
  inversion Hs as [? ? c' Hst|? ? c' v w' sent Hst Hh]; subst; eapply IH; eauto.
  specialize (Hpres v w Hw). by rewrite Hh in Hpres.
Qed.

(** Fuel monotonicity: once the loop has ended (HALT, guard, blocked or
    crashed) within [n] iterations, any larger fuel gives the same
    outcome, so the fuel bounds the run and does not change it. *)
Lemma run_with_more_fuel n k w c :
  (forall w' c', run_with handler n w c <> OutOfFuel w' c') ->
  run_with handler (n + k) w c = run_with handler n w c.
Proof.
  revert w c. induction n as [|n IH]; intros w c Hn; simpl in *.
  - exfalso. by eapply Hn.
  - destruct (machine_step c) as [[v|] c'| | | |e]; try done.
    + destruct (handler v w) as [w' sent]. by apply IH.
    + by apply IH.
Qed.

(** The handler with the outputs seen so far recorded beside its state:
    a run of it is a run of [handler] that also yields the sequence of
    values the program output. *)
Definition recording (v : Z) (x : W * list Z) : (W * list Z) * list Z :=
  (((handler v x.1).1, x.2 ++ [v]), (handler v x.1).2).

Lemma run_with_recording n w os c :
  outcome_wmap fst (run_with recording n (w, os) c) = run_with handler n w c.
Proof.
  revert w os c. induction n as [|n IH]; intros w os c; simpl; [done|].
  destruct (machine_step c) as [[v|] c'| | | |]; try done.
  unfold recording. simpl. destruct (handler v w) as [w' sent]. by rewrite IH.
Qed.

(** The handler's state at the end of a recorded run is the handler
    called on the recorded outputs, in order. *)
Lemma run_with_recording_outputs n w os c :
  let x := (outcome_state (run_with recording n ((handler_run handler os w).1, os) c)).1 in
  x.1 = (handler_run handler x.2 w).1.
Proof.
  revert os c. induction n as [|n IH]; intros os c; simpl; [done|].
  destruct (machine_step c) as [[v|] c'| | | |]; simpl; try done.
  unfold recording. cbn [fst snd]. specialize (IH (os ++ [v])).
  rewrite handler_run_app in IH. simpl in IH.
  destruct (handler v (handler_run handler os w).1) as [w' sent]. simpl in *. exact (IH _).
Qed.
End RunFacts.

Section SilentHandler.
Context {M : Type} `{IntcodeMachineLaws M} {W : Type} (handler : Z -> W -> W * list Z).
(** The handler never answers on this instance's own queue (days 7, 9, 13). *)
Hypothesis handler_silent : forall v w, (handler v w).2 = [].

Lemma add_inputs_nil (c : M) : add_inputs c [] = c.
Proof. unfold add_inputs. rewrite send_inputs_app, app_nil_r. apply set_inputs_inputs. Qed.

Lemma hstep_add_inputs w c w' c' vs :
  hstep handler (w, c) (w', c') ->
  hstep handler (w, add_inputs c vs) (w', add_inputs c' vs).
Proof.
  inversion 1 as [? ? ? Hs|? ? c'' v ? sent Hs Hh]; subst.
  - constructor. by rewrite (step_add_inputs _ vs _ Hs).
  - pose proof (handler_silent v w) as Hn. rewrite Hh in Hn. simpl in Hn. subst sent.
    rewrite add_inputs_nil, <- (add_inputs_nil (add_inputs c'' vs)).
    econstructor; [|exact Hh]. by rewrite (step_add_inputs _ vs _ Hs).
Qed.

Lemma rtc_hstep_add_inputs w c w' c' vs :
  rtc (hstep handler) (w, c) (w', c') ->
  rtc (hstep handler) (w, add_inputs c vs) (w', add_inputs c' vs).
Proof.
  remember (w, c) as s eqn:Es. remember (w', c') as s' eqn:Es'.
  intros Hr. revert w c Es. induction Hr as [|s [w1 c1] s'' H1 H2 IH]; intros w c ->; subst.
  - by simplify_eq.
  - eapply rtc_l; [by apply hstep_add_inputs|]. by apply IH.
Qed.

(** C8: input timing does not matter.  When an instance blocked on input
    after [n] iterations, queuing the values [vs] before the start
    reaches the same state, with [vs] waiting in the queue: the
    [start_program(); send_input(...)] order of days 7 and 9 is as good as
    sending first. *)
Theorem input_timing n w c w' c' vs :
  run_with handler n w c = Blocked w' c' ->
  rtc (hstep handler) (w, add_inputs c vs) (w', machine_set_inputs c' vs).
Proof.
  intros Hr. destruct (run_with_sound handler n w c) as [Hrtc Hend].
  rewrite Hr in Hrtc, Hend. simpl in Hrtc, Hend.
  replace (machine_set_inputs c' vs) with (add_inputs c' vs)
    by (unfold add_inputs; by rewrite (step_wait_inputs _ Hend), send_inputs_app).
  by apply rtc_hstep_add_inputs.
Qed.
End SilentHandler.

Section Simulation.
Context {M1 M2 : Type} `{IntcodeMachine M1} `{IntcodeMachine M2} {W : Type}.
Variable handler : Z -> W -> W * list Z.
Variable f : M1 -> M2.
Variable Q : M1 -> bool.
(** One step of the second machine on the image is the image of one step
    of the first, wherever [Q] holds. *)
Hypothesis step_sim : forall c, Q c = true -> machine_step (f c) = map_step f (machine_step c).
(** The values the handler sends back reach both machines alike. *)
Hypothesis f_add_inputs :
  forall c v w, f (add_inputs c (handler v w).2) = add_inputs (f c) (handler v w).2.

(** A run of the first machine whose states all satisfy [Q] is mirrored
    step for step by a run of the second. *)
Lemma run_with_simulation n w c :
  run_all handler Q n w c = true ->
  run_with handler n w (f c) = outcome_map f (run_with handler n w c).
Proof.
  revert w c. induction n as [|n IH]; intros w c Hall; simpl in *; [done|].
  apply andb_true_iff in Hall as [Hq Hall]. rewrite (step_sim c Hq).
  destruct (machine_step c) as [[v|] c'| | | |]; simpl; try done.
  - pose proof (f_add_inputs c' v w) as Hf.
    destruct (handler v w) as [w' sent]. simpl in Hf. rewrite <- Hf. by apply IH.
  - by apply IH.
Qed.
End Simulation.
