(* ===== verification/Computer.v ===== *)
(** * Computer: the sparse-memory [IntcodeComputer] of days 9, 11 and 13

    [src/day-09.py] lines 39-167 (the class is repeated verbatim in
    [src/day-11.py] lines 46-175 and, with the waiting flag, in
    [src/day-13.py] lines 17-183).  The state [computer] gathers the
    object's attributes that the loop uses ([__memory], [__inputs],
    [__last_output]) and the two locals of [__run_program], [i] (here
    [pc]) and [relative_base].  [step] is one iteration of the [while]
    loop, with its guard [i < len(self.__memory)]; [run_with] iterates it
    with fuel and calls the output handler on each OUTPUT. *)

From S2P Require Import Prelude Decoder Memory Channel Machine.

Record computer := mkComputer {
  memory : gmap Z Z;
  inputs : list Z;
  last_output : Z;
  pc : Z;
  relative_base : Z
}.

Definition set_memory (c : computer) (m : gmap Z Z) : computer :=
  mkComputer m (inputs c) (last_output c) (pc c) (relative_base c).
Definition set_inputs (c : computer) (q : list Z) : computer :=
  mkComputer (memory c) q (last_output c) (pc c) (relative_base c).
Definition set_last_output (c : computer) (v : Z) : computer :=
  mkComputer (memory c) (inputs c) v (pc c) (relative_base c).
Definition set_pc (c : computer) (i : Z) : computer :=
  mkComputer (memory c) (inputs c) (last_output c) i (relative_base c).
Definition set_relative_base (c : computer) (rb : Z) : computer :=
  mkComputer (memory c) (inputs c) (last_output c) (pc c) rb.

(** [IntcodeComputer(memory)] followed by the start of [__run_program]
    ([relative_base = 0], [i = 0]); [__last_output] starts at 0. *)
Definition new_computer (program : list Z) : computer :=
  mkComputer (init_memory program) [] 0 0 0.

(** [resolve_parameter_value] *)
Definition resolve_parameter_value (c : computer) (p : parameter) : result Z :=
  if mode p =? POSITION_MODE then Ok (read_memory (memory c) (value p))
  else if mode p =? IMMEDIATE_MODE then Ok (value p)
  else if mode p =? RELATIVE_MODE then Ok (read_memory (memory c) (relative_base c + value p))
  else Raise (UnsupportedMode (mode p)).

(** [resolve_parameter_target_addr] *)
Definition resolve_parameter_target_addr (c : computer) (p : parameter) : result Z :=
  if mode p =? POSITION_MODE then Ok (value p)
  else if mode p =? RELATIVE_MODE then Ok (relative_base c + value p)
  else Raise (UnsupportedMode (mode p)).

(** What the body of the dispatch leaves: the new state, the [jumped]
    flag and the value passed to the output handler; or [break] (HALT);
    or the thread blocked in [__get_next_input]. *)
Inductive exec_result :=
| Executed (c : computer) (jumped : bool) (out : option Z)
| Break
| Block.

Definition write_result (c : computer) (ps : list parameter) (k : nat) (v : Z) : result exec_result :=
  p <- param ps k ;;
  address <- resolve_parameter_target_addr c p ;;
  Ok (Executed (set_memory c (write_memory (memory c) address v)) false None).

(** The [if opcode == ...] chain of [__run_program] (lines 97-138). *)
Definition execute (op : opcode) (ps : list parameter) (c : computer) : result exec_result :=
  match op with
  | ADD =>
      p0 <- param ps 0 ;; value1 <- resolve_parameter_value c p0 ;;
      p1 <- param ps 1 ;; value2 <- resolve_parameter_value c p1 ;;
      write_result c ps 2 (value1 + value2)
  | MULTIPLY =>
      p0 <- param ps 0 ;; value1 <- resolve_parameter_value c p0 ;;
      p1 <- param ps 1 ;; value2 <- resolve_parameter_value c p1 ;;
      write_result c ps 2 (value1 * value2)
  | INPUT =>
      p0 <- param ps 0 ;;
      address <- resolve_parameter_target_addr c p0 ;;
      match get_next_input (inputs c) with
      | None => Ok Block
      | Some (v, rest) =>
          Ok (Executed (set_inputs (set_memory c (write_memory (memory c) address v)) rest)
                false None)
      end
  | OUTPUT =>
      p0 <- param ps 0 ;; output <- resolve_parameter_value c p0 ;;
      Ok (Executed (set_last_output c output) false (Some output))
  | JUMP_IF_TRUE =>
      p0 <- param ps 0 ;; v <- resolve_parameter_value c p0 ;;
      if negb (v =? 0) then
        p1 <- param ps 1 ;; target <- resolve_parameter_value c p1 ;;
        Ok (Executed (set_pc c target) true None)
      else Ok (Executed c false None)
  | JUMP_IF_FALSE =>
      p0 <- param ps 0 ;; v <- resolve_parameter_value c p0 ;;
      if v =? 0 then
        p1 <- param ps 1 ;; target <- resolve_parameter_value c p1 ;;
        Ok (Executed (set_pc c target) true None)
      else Ok (Executed c false None)
  | LESS_THAN =>
      p0 <- param ps 0 ;; value1 <- resolve_parameter_value c p0 ;;
      p1 <- param ps 1 ;; value2 <- resolve_parameter_value c p1 ;;
      write_result c ps 2 (if value1 <? value2 then 1 else 0)
  | EQUAL_TO =>
      p0 <- param ps 0 ;; value1 <- resolve_parameter_value c p0 ;;
      p1 <- param ps 1 ;; value2 <- resolve_parameter_value c p1 ;;
      write_result c ps 2 (if value1 =? value2 then 1 else 0)
  | ADJUST_REL_BASE =>
      p0 <- param ps 0 ;; v <- resolve_parameter_value c p0 ;;
      Ok (Executed (set_relative_base c (relative_base c + v)) false None)
  | HALT => Ok Break
  end.

(** One iteration of the [while] loop (lines 81-141). *)
Definition step (c : computer) : step_result computer :=
  if pc c <? memory_len (memory c) then
    match decode (fetch_word (memory c)) opcode_table_day09 (pc c) with
    | Raise e => Crash e
    | Ok (op, ps) =>
        match execute op ps c with
        | Raise e => Crash e
        | Ok Break => Halted
        | Ok Block => Wait
        | Ok (Executed c' jumped out) =>
            Continue out
              (if jumped then c'
               else set_pc c' (pc c' + Z.of_nat (OPCODE_TO_INST_SIZE op)))
        end
    end
  else Exited.

#[export] Instance computer_machine : IntcodeMachine computer := {|
  machine_step := step;
  machine_inputs := inputs;
  machine_set_inputs := set_inputs
|}.

(** The handler that records every output: the output stream. *)
Definition log_output (v : Z) (log : list Z) : list Z * list Z := (log ++ [v], []).

(** [IntcodeComputer(program)], [start_program()], [send_input(v)] for
    each [v] of [ins], then [wait_for_exit()] (main, lines 174-177). *)
Definition run (fuel : nat) (program : list Z) (ins : list Z) : outcome computer (list Z) :=
  run_with log_output fuel [] (set_inputs (new_computer program) ins).

Section StepFacts.
Implicit Types (c : computer).

(** Only INPUT takes from the queue, and it takes its head. *)
Lemma execute_inputs op ps c c' j o :
  execute op ps c = Ok (Executed c' j o) ->
  if decide (op = INPUT) then exists v, inputs c = v :: inputs c' else inputs c' = inputs c.
Proof.
  destruct op; cbn [execute]; unfold write_result, get_next_input; intros H; py_simpl;
    repeat (case_match; py_simpl); simplify_eq/=; eauto.
Qed.

(** Resolving and writing do not look at the queue. *)
Lemma execute_set_inputs op ps c q :
  op <> INPUT ->
  execute op ps (set_inputs c q) =
    match execute op ps c with
    | Ok (Executed c' j o) => Ok (Executed (set_inputs c' q) j o)
    | r => r
    end.
Proof.
  intros Hop. destruct op; try done; cbn [execute];
    change (resolve_parameter_value (set_inputs c q)) with (resolve_parameter_value c);
    unfold write_result;
    change (resolve_parameter_target_addr (set_inputs c q)) with (resolve_parameter_target_addr c);
    repeat (case_match; simpl; try done).
Qed.

Lemma execute_add_inputs op ps c vs c' j o :
  execute op ps c = Ok (Executed c' j o) ->
  execute op ps (set_inputs c (inputs c ++ vs)) =
    Ok (Executed (set_inputs c' (inputs c' ++ vs)) j o).
Proof.
  intros H. destruct (decide (op = INPUT)) as [->|Hop].
  - revert H. cbn [execute]. unfold get_next_input. cbn [inputs set_inputs].
    change (resolve_parameter_target_addr (set_inputs c _)) with (resolve_parameter_target_addr c).
    intros H. py_simpl. destruct (inputs c) eqn:Hq; simplify_eq/=. done.
  - rewrite execute_set_inputs, H by done. apply execute_inputs in H.
    rewrite decide_False in H by done. by rewrite H.
Qed.

Lemma execute_add_inputs_other op ps c vs r :
  execute op ps c = r -> (forall c' j o, r <> Ok (Executed c' j o)) -> r <> Ok Block ->
  execute op ps (set_inputs c (inputs c ++ vs)) = r.
Proof.
  intros <- H1 H2. destruct (decide (op = INPUT)) as [->|Hop].
  - cbn [execute] in *. unfold get_next_input in *. cbn [inputs set_inputs].
    change (resolve_parameter_target_addr (set_inputs c _)) with (resolve_parameter_target_addr c).
    destruct (param ps 0) as [p|]; [|done]. destruct (resolve_parameter_target_addr c p); [|done].
    destruct (inputs c); [done|]. exfalso. by eapply H1.
  - rewrite execute_set_inputs by done.
    destruct (execute op ps c) as [[c' j o| |]|]; [exfalso; by eapply H1|done..].
Qed.

Lemma execute_block op ps c : execute op ps c = Ok Block -> inputs c = [].
Proof.
  destruct op; cbn [execute]; unfold write_result, get_next_input; intros H; py_simpl;
    repeat (case_match; py_simpl); by simplify_eq/=.
Qed.

(** Queuing more input changes nothing in a step that does not block. *)
Lemma computer_step_add_inputs c vs r :
  step c = r -> r <> Wait ->
  step (set_inputs c (inputs c ++ vs)) =
    match r with Continue o c' => Continue o (set_inputs c' (inputs c' ++ vs)) | _ => r end.
Proof.
  intros <- Hw. unfold step in *.
  change (memory (set_inputs c (inputs c ++ vs))) with (memory c).
  change (pc (set_inputs c (inputs c ++ vs))) with (pc c).
  destruct (_ <? _); [|done].
  destruct (decode _ _ _) as [[op ps]|]; [|done].
  destruct (execute op ps c) as [[c' j o| |]|e] eqn:E.
  - rewrite (execute_add_inputs _ _ _ _ _ _ _ E). by destruct j.
  - by rewrite (execute_add_inputs_other _ _ _ vs _ E).
  - done.
  - by rewrite (execute_add_inputs_other _ _ _ vs _ E).
Qed.

Lemma computer_step_wait_inputs c : step c = Wait -> inputs c = [].
Proof.
  unfold step. destruct (_ <? _); [|done].
  destruct (decode _ _ _) as [[op ps]|]; [|done].
  destruct (execute op ps c) as [[| |]|] eqn:E; try done. intros _. by eapply execute_block.
Qed.

Lemma execute_dom op ps c c' j o :
  execute op ps c = Ok (Executed c' j o) -> dom (memory c) ⊆ dom (memory c').
Proof.
  destruct op; cbn [execute]; unfold write_result, get_next_input; intros H; py_simpl;
    repeat (case_match; py_simpl); simplify_eq/=; try done; apply write_memory_dom.
Qed.

Lemma step_dom c o c' : step c = Continue o c' -> dom (memory c) ⊆ dom (memory c').
Proof.
  unfold step. destruct (_ <? _); [|done].
  destruct (decode _ _ _) as [[op ps]|]; [|done].
  destruct (execute op ps c) as [[c'' j o'| |]|] eqn:E; try done.
  intros [= <- <-]. apply execute_dom in E. by destruct j.
Qed.

Lemma step_inputs c o c' :
  step c = Continue o c' ->
  exists op ps, decode (fetch_word (memory c)) opcode_table_day09 (pc c) = Ok (op, ps) /\
    if decide (op = INPUT) then exists v, inputs c = v :: inputs c' else inputs c' = inputs c.
Proof.
  unfold step. destruct (_ <? _); [|done].
  destruct (decode _ _ _) as [[op ps]|]; [|done].
  destruct (execute op ps c) as [[c'' j o'| |]|] eqn:E; try done.
  intros [= <- <-]. exists op, ps. split; [done|]. apply execute_inputs in E.
  by destruct j, (decide (op = INPUT)).
Qed.

(** Only INPUT blocks, after resolving its target address. *)
Lemma execute_block_inv op ps c :
  execute op ps c = Ok Block ->
  op = INPUT /\ exists p a, param ps 0 = Ok p /\
    resolve_parameter_target_addr c p = Ok a /\ inputs c = [].
Proof.
  destruct op; cbn [execute]; unfold write_result; intros H;
    try (py_simpl; repeat (case_match; py_simpl); by simplify_eq/=).
  destruct (param ps 0) as [p|] eqn:Hp; [|done].
  destruct (resolve_parameter_target_addr c p) as [a|] eqn:Ha; [|done].
  destruct (inputs c) eqn:Hq; [|done]. eauto 8.
Qed.

(** The INPUT that blocked, with values queued, takes the first one. *)
Lemma execute_block_unblocks op ps c v vs :
  execute op ps c = Ok Block ->
  op = INPUT /\ exists a, execute op ps (set_inputs c (v :: vs)) =
    Ok (Executed (set_inputs (set_memory c (write_memory (memory c) a v)) vs) false None).
Proof.
  intros E. destruct (execute_block_inv _ _ _ E) as (-> & p & a & Hp & Ha & Hq).
  split; [done|]. exists a. cbn [execute]. rewrite Hp.
  change (resolve_parameter_target_addr (set_inputs c (v :: vs)) p)
    with (resolve_parameter_target_addr c p).
  by rewrite Ha.
Qed.
End StepFacts.

#[export] Hint Resolve step_dom : intcode.

(** The dict computer keeps the promises of the interface. *)
#[export] Instance computer_machine_laws : IntcodeMachineLaws computer.
Proof.
  split.
  - done.
  - by intros [].
  - intros c vs r Hs Hw. unfold add_inputs. simpl. rewrite send_inputs_app.
    rewrite (computer_step_add_inputs c vs r Hs Hw).
    destruct r; try done. simpl. by rewrite send_inputs_app.
  - exact computer_step_wait_inputs.
Qed.

Section RunFacts.
Context {W : Type} (handler : Z -> W -> W * list Z).

Lemma hstep_dom s s' : hstep handler s s' -> dom (memory s.2) ⊆ dom (memory s'.2).
Proof. intros []; simpl; eauto with intcode. Qed.

Lemma rtc_hstep_dom s s' : rtc (hstep handler) s s' -> dom (memory s.2) ⊆ dom (memory s'.2).
Proof. induction 1 as [|? ? ? H]; [done|]. apply hstep_dom in H. set_solver. Qed.
End RunFacts.

(** ** Decoding on the dict memory *)

(** C6: the spec's decoding contract, on the day 9 memory.  When the
    word at [i] of the dict decodes with the day 9 table, its opcode is
    [mem_value % 100], the k-th parameter is the operand word at
    [i + 1 + k], and its mode is the k-th decimal digit of
    [mem_value // 100], counting from the least significant one (0 once
    the digits are exhausted). *)
Theorem decode_mode_digits (m : gmap Z Z) i mem_value op ps k p :
  fetch_word m i = Ok mem_value ->
  decode (fetch_word m) opcode_table_day09 i = Ok (op, ps) -> ps !! k = Some p ->
  opcode_table_day09 (mem_value mod 100) = Some op /\
  fetch_word m (i + 1 + Z.of_nat k) = Ok (value p) /\
  mode p = (mem_value / 10 ^ (2 + Z.of_nat k)) mod 10.
Proof.
  unfold decode. intros Hf H Hk. rewrite Hf in H.
  destruct (opcode_table_day09 _) eqn:Ht; [|done]. py_simpl.
  destruct (fetch_parameters_lookup _ _ _ _ _ _ _ E Hk) as [Hv Hm].
  repeat split; [done..|].
  replace (10 ^ (2 + Z.of_nat k)) with (100 * 10 ^ Z.of_nat k)
    by (rewrite Z.pow_add_r; lia).
  rewrite Hm, Z.div_div; [done | lia |]. apply Z.pow_pos_nonneg; lia.
Qed.

(** C7: encode/decode round trip, on the day 9 memory.  An instruction
    word built from an opcode and digit modes, stored at [i] with its
    operand words after it, decodes back to that opcode and those
    parameters. *)
Theorem decode_encode (m : gmap Z Z) i op modes words :
  opcode_table_day09 (opcode_to_Z op) = Some op ->
  length modes = Nat.pred (OPCODE_TO_INST_SIZE op) ->
  length words = length modes ->
  Forall (fun md => 0 <= md < 10) modes ->
  fetch_word m i = Ok (encode_instruction op modes) ->
  (forall k w, words !! k = Some w -> fetch_word m (i + 1 + Z.of_nat k) = Ok w) ->
  decode (fetch_word m) opcode_table_day09 i = Ok (op, zip_with mkParameter words modes).
Proof.
  intros Ht Hm Hw Hd Hi Hws. unfold decode, encode_instruction in *. rewrite Hi.
  assert (Hop : 0 <= opcode_to_Z op < 100) by (destruct op; simpl; lia).
  replace ((opcode_to_Z op + 100 * modes_to_Z modes) mod 100) with (opcode_to_Z op)
    by (apply Z.mod_unique with (modes_to_Z modes); lia).
  replace ((opcode_to_Z op + 100 * modes_to_Z modes) / 100) with (modes_to_Z modes)
    by (apply Z.div_unique with (opcode_to_Z op); lia).
  rewrite Ht, (fetch_parameters_encode (fetch_word m) _ _ words modes); [done | lia..| done | done].
Qed.

(** C9: the program's cells stay in memory.  Whatever the run does,
    every address of the initial program is still a key of the dict
    afterwards, so fetching an instruction or operand there never raises
    KeyError. *)
Theorem run_program_cells_stay n program ins a :
  0 <= a < Z.of_nat (length program) ->
  is_Some (memory (outcome_state (run n program ins)).2 !! a).
Proof.
  intros Ha. unfold run.
  destruct (run_with_sound log_output n [] (set_inputs (new_computer program) ins)) as [H _].
  apply rtc_hstep_dom in H. simpl in H.
  apply elem_of_dom, H, elem_of_dom. unfold init_memory.
  rewrite lookup_map_seqZ, Z.sub_0_r. case_guard; [|lia].
  simpl. apply lookup_lt_is_Some_2. lia.
Qed.

(** C29: sending input unblocks.  An instance blocked in
    [__get_next_input] takes the first value sent, writes it to the
    address it had resolved, keeps the rest queued, and moves past the
    INPUT instruction. *)
Theorem step_unblocks c v vs :
  step c = Wait ->
  exists a c', step (set_inputs c (v :: vs)) = Continue None c' /\
    memory c' = write_memory (memory c) a v /\ inputs c' = vs /\ pc c' = pc c + 2.
Proof.
  unfold step. change (memory (set_inputs c (v :: vs))) with (memory c).
  change (pc (set_inputs c (v :: vs))) with (pc c).
  destruct (_ <? _); [|done].
  destruct (decode _ _ _) as [[op ps]|]; [|done].
  destruct (execute op ps c) as [[| |]|] eqn:E; try done. intros _.
  destruct (execute_block_unblocks _ _ _ v vs E) as (-> & a & ->).
  do 2 eexists. split; [reflexivity|]. cbn. split_and!; [done..|lia].
Qed.

(** ** The spec's concrete scenarios *)

Definition quine : list Z :=
  [109;1;204;-1;1001;100;1;100;1008;100;16;101;1006;101;0;99].

(** The relative-mode quine of the spec terminates within 200 loop
    iterations and outputs its own source, exercising relative mode and
    ADJUST_REL_BASE together. *)
Theorem quine_outputs_itself : exists c, run 200 quine [] = Finished quine c.
Proof. eexists. vm_compute. reflexivity. Qed.

(** The other scenarios of the spec: [1,0,0,0,99] halts with cell 0
    equal to 2; [3,0,4,0,99] outputs its input 42; [1002,4,3,4,33]
    multiplies cell 4 by 3 into 99, which is then executed as HALT. *)
Theorem spec_scenarios :
  (exists c, run 10 [1;0;0;0;99] [] = Finished [] c /\ read_memory (memory c) 0 = 2) /\
  (exists c, run 10 [3;0;4;0;99] [42] = Finished [42] c) /\
  (exists c, run 10 [1002;4;3;4;33] [] = Finished [] c /\ read_memory (memory c) 4 = 99).
Proof.
  split; [|split]; eexists; vm_conj.
Qed.

(** ** Witnesses: the theorems applied to concrete programs *)

Lemma decode_mode_digits_witness :
  fetch_word (init_memory [1002;4;3;4;33]) 0 = Ok 1002 /\
  decode (fetch_word (init_memory [1002;4;3;4;33])) opcode_table_day09 0 =
    Ok (MULTIPLY, [mkParameter 4 0; mkParameter 3 1; mkParameter 4 0]) /\
  [mkParameter 4 0; mkParameter 3 1; mkParameter 4 0] !! 1%nat = Some (mkParameter 3 1) /\
  (opcode_table_day09 (1002 mod 100) = Some MULTIPLY /\
   fetch_word (init_memory [1002;4;3;4;33]) (0 + 1 + Z.of_nat 1) = Ok (value (mkParameter 3 1)) /\
   mode (mkParameter 3 1) = (1002 / 10 ^ (2 + Z.of_nat 1)) mod 10).
Proof.
  assert (H1 : fetch_word (init_memory [1002;4;3;4;33]) 0 = Ok 1002) by reflexivity.
  assert (H2 : decode (fetch_word (init_memory [1002;4;3;4;33])) opcode_table_day09 0 =
    Ok (MULTIPLY, [mkParameter 4 0; mkParameter 3 1; mkParameter 4 0])) by (vm_compute; reflexivity).
  split; [exact H1|]. split; [exact H2|]. split; [reflexivity|].
  exact (decode_mode_digits _ 0 1002 _ _ 1%nat _ H1 H2 eq_refl).
Defined.

Lemma decode_encode_witness :
  let fetch := fetch_word (init_memory [1002;4;3;4;33]) in
  opcode_table_day09 (opcode_to_Z MULTIPLY) = Some MULTIPLY /\
  fetch 0 = Ok (encode_instruction MULTIPLY [0;1;0]) /\
  decode fetch opcode_table_day09 0 =
    Ok (MULTIPLY, zip_with mkParameter [4;3;4] [0;1;0]).
Proof.
  intros fetch. split; [reflexivity|]. split; [vm_compute; reflexivity|].
  apply decode_encode; [reflexivity | reflexivity | reflexivity | |vm_compute; reflexivity |].
  - repeat constructor; lia.
  - intros k w Hk. destruct k as [|[|[|k]]]; simpl in Hk; try done;
      injection Hk as <-; vm_compute; reflexivity.
Defined.

Lemma input_timing_witness :
  (forall v w, (log_output v w).2 = []) /\
  run_with log_output 1 [] (new_computer [3;0;4;0;99]) = Blocked [] (new_computer [3;0;4;0;99]) /\
  rtc (hstep log_output) ([], add_inputs (new_computer [3;0;4;0;99]) [42])
    ([], machine_set_inputs (new_computer [3;0;4;0;99]) [42]).
Proof.
  assert (Hs : forall v w, (log_output v w).2 = []) by reflexivity.
  assert (Hb : run_with log_output 1 [] (new_computer [3;0;4;0;99]) =
               Blocked [] (new_computer [3;0;4;0;99])) by (vm_compute; reflexivity).
  split; [exact Hs|]. split; [exact Hb|].
  exact (input_timing log_output Hs 1 [] _ [] _ [42] Hb).
Defined.

Lemma run_program_cells_stay_witness :
  0 <= 3 < Z.of_nat (length [1;0;0;0;99]) /\
  is_Some (memory (outcome_state (run 10 [1;0;0;0;99] [])).2 !! 3).
Proof.
  assert (H : 0 <= 3 < Z.of_nat (length [1;0;0;0;99])) by (simpl; lia).
  split; [exact H|]. exact (run_program_cells_stay 10 [1;0;0;0;99] [] 3 H).
Defined.

Lemma step_unblocks_witness :
  step (new_computer [3;0;4;0;99]) = Wait /\
  exists a c', step (set_inputs (new_computer [3;0;4;0;99]) [42]) = Continue None c' /\
    memory c' = write_memory (memory (new_computer [3;0;4;0;99])) a 42 /\
    inputs c' = [] /\ pc c' = pc (new_computer [3;0;4;0;99]) + 2.
Proof.
  assert (H : step (new_computer [3;0;4;0;99]) = Wait) by (vm_compute; reflexivity).
  split; [exact H|]. exact (step_unblocks _ 42 [] H).
Defined.
