(* ===== verification/Refinement.v ===== *)
(** * Refinement: the computer implements the spec's instruction table

    An abstract specification of one instruction, written from the opcode
    table of the spec (sections 4.1 and 4.2) rather than from the code:
    instructions are decoded eagerly into [instr] (operands carry their
    addressing mode, write targets cannot be immediate), the k-th mode is
    the k-th decimal digit of [value // 100] in closed form, memory reads
    default to 0, and [spec_exec] gives each instruction's effect with the
    width-based advance.  The theorem [step_refines_spec] shows that the
    code's [step] (digit loop, lazy mode checks, list subscripts, [jumped]
    flag) computes exactly [spec_exec] whenever the spec decodes the
    instruction, the loop guard holds and the operand words are keys of
    the dict.  Those two side conditions are where the code departs from
    the spec (see the findings in [Computer]). *)

From S2P Require Import Prelude Decoder Memory Channel Machine Computer.

Inductive operand := Position (a : Z) | Immediate (v : Z) | Relative (d : Z).
Inductive target := TPosition (a : Z) | TRelative (d : Z).

Inductive instr :=
| IAdd (a b : operand) (d : target)
| IMul (a b : operand) (d : target)
| IInput (d : target)
| IOutput (a : operand)
| IJumpIfTrue (a b : operand)
| IJumpIfFalse (a b : operand)
| ILessThan (a b : operand) (d : target)
| IEquals (a b : operand) (d : target)
| IAdjustRelBase (a : operand)
| IHalt.

Definition instr_opcode (i : instr) : opcode :=
  match i with
  | IAdd _ _ _ => ADD | IMul _ _ _ => MULTIPLY | IInput _ => INPUT
  | IOutput _ => OUTPUT | IJumpIfTrue _ _ => JUMP_IF_TRUE
  | IJumpIfFalse _ _ => JUMP_IF_FALSE | ILessThan _ _ _ => LESS_THAN
  | IEquals _ _ _ => EQUAL_TO | IAdjustRelBase _ => ADJUST_REL_BASE | IHalt => HALT
  end.

(** The k-th decimal digit of [v // 100]: the mode of parameter k. *)
Definition mode_digit (v : Z) (k : nat) : Z := (v / 100 / 10 ^ Z.of_nat k) mod 10.

Definition spec_operand (m w : Z) : option operand :=
  if m =? 0 then Some (Position w)
  else if m =? 1 then Some (Immediate w)
  else if m =? 2 then Some (Relative w)
  else None.

Definition spec_target (m w : Z) : option target :=
  if m =? 0 then Some (TPosition w)
  else if m =? 2 then Some (TRelative w)
  else None.

(** Eager decoding of the instruction at [i]: an invalid opcode, an
    invalid mode digit, or an immediate write target is a decode error. *)
Definition spec_decode (mem : gmap Z Z) (i : Z) : option instr :=
  let v := read_memory mem i in
  let word k := read_memory mem (i + 1 + Z.of_nat k) in
  let opd k := spec_operand (mode_digit v k) (word k) in
  let dst k := spec_target (mode_digit v k) (word k) in
  op ← opcode_table_day09 (v mod 100);
  match op with
  | ADD => a ← opd 0%nat; b ← opd 1%nat; d ← dst 2%nat; Some (IAdd a b d)
  | MULTIPLY => a ← opd 0%nat; b ← opd 1%nat; d ← dst 2%nat; Some (IMul a b d)
  | INPUT => d ← dst 0%nat; Some (IInput d)
  | OUTPUT => a ← opd 0%nat; Some (IOutput a)
  | JUMP_IF_TRUE => a ← opd 0%nat; b ← opd 1%nat; Some (IJumpIfTrue a b)
  | JUMP_IF_FALSE => a ← opd 0%nat; b ← opd 1%nat; Some (IJumpIfFalse a b)
  | LESS_THAN => a ← opd 0%nat; b ← opd 1%nat; d ← dst 2%nat; Some (ILessThan a b d)
  | EQUAL_TO => a ← opd 0%nat; b ← opd 1%nat; d ← dst 2%nat; Some (IEquals a b d)
  | ADJUST_REL_BASE => a ← opd 0%nat; Some (IAdjustRelBase a)
  | HALT => Some IHalt
  end.

Definition operand_value (c : computer) (o : operand) : Z :=
  match o with
  | Position a => read_memory (memory c) a
  | Immediate v => v
  | Relative d => read_memory (memory c) (relative_base c + d)
  end.

Definition target_address (c : computer) (t : target) : Z :=
  match t with TPosition a => a | TRelative d => relative_base c + d end.

(** The effect of each instruction, from the spec's table. *)
Definition spec_exec (i : instr) (c : computer) : step_result computer :=
  let store t v := set_memory c (write_memory (memory c) (target_address c t) v) in
  let val := operand_value c in
  match i with
  | IAdd a b d => Continue None (set_pc (store d (val a + val b)) (pc c + 4))
  | IMul a b d => Continue None (set_pc (store d (val a * val b)) (pc c + 4))
  | IInput d =>
      match inputs c with
      | [] => Wait
      | v :: rest => Continue None (set_pc (set_inputs (store d v) rest) (pc c + 2))
      end
  | IOutput a => Continue (Some (val a)) (set_pc (set_last_output c (val a)) (pc c + 2))
  | IJumpIfTrue a b =>
      Continue None (set_pc c (if val a =? 0 then pc c + 3 else val b))
  | IJumpIfFalse a b =>
      Continue None (set_pc c (if val a =? 0 then val b else pc c + 3))
  | ILessThan a b d =>
      Continue None (set_pc (store d (if val a <? val b then 1 else 0)) (pc c + 4))
  | IEquals a b d =>
      Continue None (set_pc (store d (if val a =? val b then 1 else 0)) (pc c + 4))
  | IAdjustRelBase a =>
      Continue None (set_pc (set_relative_base c (relative_base c + val a)) (pc c + 2))
  | IHalt => Halted
  end.

(** ** Lemmas *)

(** Splits the spec decoder's option binds into named facts. *)
Ltac spec_binds H :=
  repeat match type of H with
  | context [spec_operand ?m ?w] =>
      let E := fresh "Ho" in destruct (spec_operand m w) eqn:E; simpl in H; [|discriminate H]
  | context [spec_target ?m ?w] =>
      let E := fresh "Ht" in destruct (spec_target m w) eqn:E; simpl in H; [|discriminate H]
  end; simplify_eq.

Lemma resolve_spec_operand c m w o :
  spec_operand m w = Some o ->
  resolve_parameter_value c (mkParameter w m) = Ok (operand_value c o).
Proof.
  unfold spec_operand, resolve_parameter_value. cbn [mode value].
  destruct (Z.eqb_spec m 0), (Z.eqb_spec m 1), (Z.eqb_spec m 2); intros; simplify_eq/=;
    rewrite ?Z.eqb_refl; unfold POSITION_MODE, IMMEDIATE_MODE, RELATIVE_MODE;
    repeat (rewrite (proj2 (Z.eqb_neq _ _)) by lia); done.
Qed.

Lemma resolve_spec_target c m w t :
  spec_target m w = Some t ->
  resolve_parameter_target_addr c (mkParameter w m) = Ok (target_address c t).
Proof.
  unfold spec_target, resolve_parameter_target_addr. cbn [mode value].
  destruct (Z.eqb_spec m 0), (Z.eqb_spec m 2); intros; simplify_eq/=;
    unfold POSITION_MODE, RELATIVE_MODE;
    repeat (rewrite (proj2 (Z.eqb_neq _ _)) by lia); done.
Qed.

Ltac resolve_spec :=
  repeat match goal with
  | H : spec_operand ?m ?w = Some ?o |- context [resolve_parameter_value ?c (mkParameter ?w ?m)] =>
      rewrite (resolve_spec_operand c m w o H)
  | H : spec_target ?m ?w = Some ?t |- context [resolve_parameter_target_addr ?c (mkParameter ?w ?m)] =>
      rewrite (resolve_spec_target c m w t H)
  end.

Lemma spec_decode_opcode mem i instr :
  spec_decode mem i = Some instr ->
  opcode_table_day09 (read_memory mem i mod 100) = Some (instr_opcode instr).
Proof.
  unfold spec_decode. destruct (opcode_table_day09 _) as [op|]; [|done]. simpl.
  intros H. destruct op; simpl in H; spec_binds H; done.
Qed.

(** With its words present, the code decodes the instruction at [i] into
    the opcode and the parameters (word k, digit k) of the spec. *)
Lemma decode_words mem i op :
  opcode_table_day09 (read_memory mem i mod 100) = Some op ->
  (forall k, (k < OPCODE_TO_INST_SIZE op)%nat -> is_Some (mem !! (i + Z.of_nat k))) ->
  decode (fetch_word mem) opcode_table_day09 i =
    Ok (op, map (fun k => mkParameter (read_memory mem (i + 1 + Z.of_nat k))
                              (mode_digit (read_memory mem i) k))
              (seq 0 (Nat.pred (OPCODE_TO_INST_SIZE op)))).
Proof.
  intros Hop Hkeys. unfold decode.
  destruct (Hkeys 0%nat) as [v Hv]; [destruct op; simpl; lia|].
  rewrite Z.add_0_r in Hv. unfold fetch_word at 1. rewrite Hv.
  unfold read_memory in Hop |- *. rewrite Hv in Hop |- *. rewrite Hop.
  rewrite (fetch_parameters_seq _ _ _ _ (fun k => read_memory mem (i + 1 + Z.of_nat k))); [done|].
  intros k Hk. destruct (Hkeys (S k)) as [w Hw]; [lia|].
  replace (i + Z.of_nat (S k)) with (i + 1 + Z.of_nat k) in Hw by lia.
  unfold fetch_word, read_memory. by rewrite Hw.
Qed.

(** ** Theorems *)

(** C1: refinement.  When the spec decodes the instruction at the
    program counter, the loop guard [i < len(memory)] holds and the
    instruction's words are keys of the dict, one iteration of the code's
    loop has exactly the effect the spec's table gives that instruction:
    same memory, queue, output, relative base and next program counter. *)
Theorem step_refines_spec c i :
  pc c < memory_len (memory c) ->
  (forall k, (k < OPCODE_TO_INST_SIZE (instr_opcode i))%nat ->
             is_Some (memory c !! (pc c + Z.of_nat k))) ->
  spec_decode (memory c) (pc c) = Some i ->
  step c = spec_exec i c.
Proof.
  intros Hguard Hkeys Hdec. unfold step.
  rewrite (proj2 (Z.ltb_lt _ _) Hguard).
  rewrite (decode_words _ _ _ (spec_decode_opcode _ _ _ Hdec) Hkeys).
  unfold spec_decode in Hdec. rewrite (spec_decode_opcode _ _ _ Hdec) in Hdec. simpl in Hdec.
  destruct i; simpl in Hdec; spec_binds Hdec; cbn [execute]; simpl; resolve_spec;
    unfold write_result, get_next_input; simpl; resolve_spec; simpl; try done.
  - by destruct (inputs c).
  - by destruct (operand_value c a =? 0).
  - by destruct (operand_value c a =? 0).
Qed.

(** The witness: [1002,4,3,4,33] multiplies cell 4 by the literal 3. *)
Lemma step_refines_spec_witness :
  spec_decode (memory (new_computer [1002;4;3;4;33])) 0 =
    Some (IMul (Position 4) (Immediate 3) (TPosition 4)) /\
  step (new_computer [1002;4;3;4;33]) =
    spec_exec (IMul (Position 4) (Immediate 3) (TPosition 4)) (new_computer [1002;4;3;4;33]).
Proof.
  split; [vm_compute; reflexivity|].
  apply step_refines_spec; [vm_compute; reflexivity | | vm_compute; reflexivity].
  intros k Hk. simpl in Hk.
  destruct k as [|[|[|[|k]]]]; [..|lia]; vm_compute; eexists; reflexivity.
Defined.

(** ** Relative base *)

(** A block of ADJUST_REL_BASE instructions with immediate operands. *)
Definition arb_block (ds : list Z) : list Z := concat (map (fun d => [109; d]) ds).

Lemma step_arb_immediate c d :
  pc c < memory_len (memory c) ->
  memory c !! pc c = Some 109 -> memory c !! (pc c + 1) = Some d ->
  step c = Continue None (set_pc (set_relative_base c (relative_base c + d)) (pc c + 2)).
Proof.
  intros Hg H0 H1. unfold step. rewrite (proj2 (Z.ltb_lt _ _) Hg).
  unfold decode, fetch_word at 1. rewrite H0. simpl.
  unfold fetch_word. rewrite H1. reflexivity.
Qed.

Lemma arb_block_lookup d ds k :
  arb_block (d :: ds) !! k =
    match k with 0%nat => Some 109 | 1%nat => Some d | S (S k') => arb_block ds !! k' end.
Proof. by destruct k as [|[|k]]. Qed.

(** Relative-base idempotence.  Running a block of
    ADJUST_REL_BASE instructions with immediate offsets [ds] leaves memory
    and queue alone, moves past the block, and adds the sum of [ds] to the
    relative base; when the offsets sum to 0, every parameter resolves
    afterwards exactly as before the block. *)
Theorem adjust_relative_base_block {W} (h : Z -> W -> W * list Z) w c ds :
  (forall k v, arb_block ds !! k = Some v -> memory c !! (pc c + Z.of_nat k) = Some v) ->
  pc c + 2 * Z.of_nat (length ds) <= memory_len (memory c) ->
  exists c', rtc (hstep h) (w, c) (w, c') /\
    memory c' = memory c /\ inputs c' = inputs c /\
    pc c' = pc c + 2 * Z.of_nat (length ds) /\
    relative_base c' = relative_base c + fold_right Z.add 0 ds /\
    (fold_right Z.add 0 ds = 0 -> forall p,
       resolve_parameter_value c' p = resolve_parameter_value c p /\
       resolve_parameter_target_addr c' p = resolve_parameter_target_addr c p).
Proof.
  revert c. induction ds as [|d ds IH]; intros c Hmem Hlen.
  - exists c. simpl. rewrite Z.add_0_r, Z.add_0_r. by repeat split.
  - simpl in Hlen.
    pose proof (Hmem 0%nat 109 eq_refl) as H0. pose proof (Hmem 1%nat d eq_refl) as H1.
    rewrite Z.add_0_r in H0.
    set (c1 := set_pc (set_relative_base c (relative_base c + d)) (pc c + 2)).
    destruct (IH c1) as (c' & Hrtc & Hm & Hq & Hpc & Hrb & _).
    { intros k v Hk. apply (Hmem (S (S k))) in Hk. simpl. rewrite <- Hk. f_equal. lia. }
    { simpl. lia. }
    assert (Hrb' : relative_base c' = relative_base c + fold_right Z.add 0 (d :: ds))
      by (simpl in *; lia).
    exists c'. split; [|split; [done|split; [done|split; [simpl in *; lia|split; [done|]]]]].
    + eapply rtc_l; [|exact Hrtc]. constructor. apply step_arb_immediate; [lia | done |].
      simpl in H1. done.
    + intros Hs prm. unfold resolve_parameter_value, resolve_parameter_target_addr.
      rewrite Hm, Hrb', Hs, Z.add_0_r. done.
Qed.

Lemma adjust_relative_base_block_witness :
  let c := new_computer (arb_block [5; -2; -3] ++ [99]) in
  (forall k v, arb_block [5; -2; -3] !! k = Some v -> memory c !! (pc c + Z.of_nat k) = Some v) /\
  pc c + 2 * Z.of_nat (length [5; -2; -3]) <= memory_len (memory c) /\
  exists c', rtc (hstep log_output) ([], c) ([], c') /\
    memory c' = memory c /\ inputs c' = inputs c /\
    pc c' = pc c + 2 * Z.of_nat (length [5; -2; -3]) /\
    relative_base c' = relative_base c + fold_right Z.add 0 [5; -2; -3] /\
    (fold_right Z.add 0 [5; -2; -3] = 0 -> forall p,
       resolve_parameter_value c' p = resolve_parameter_value c p /\
       resolve_parameter_target_addr c' p = resolve_parameter_target_addr c p).
Proof.
  intros c.
  assert (Hm : forall k v, arb_block [5; -2; -3] !! k = Some v ->
                memory c !! (pc c + Z.of_nat k) = Some v).
  { intros k v Hk. destruct k as [|[|[|[|[|[|k]]]]]]; simpl in Hk; try done;
      injection Hk as <-; vm_compute; reflexivity. }
  assert (Hl : pc c + 2 * Z.of_nat (length [5; -2; -3]) <= memory_len (memory c))
    by (vm_compute; discriminate).
  split; [exact Hm|]. split; [exact Hl|].
  apply adjust_relative_base_block; [exact Hm | exact Hl].
Defined.

(** ** Where the code departs from the spec *)

(** Mode digits are checked lazily.  The spec makes an unknown mode
    digit a fatal decode error, and the spec decoder rejects
    [7005,4,0,99,0] (mode 7 on the jump target).  The code only resolves
    the target when the branch is taken, so this program runs to HALT. *)
Theorem lazy_mode_check :
  spec_decode (init_memory [7005;4;0;99;0]) 0 = None /\
  exists c, run 10 [7005;4;0;99;0] [] = Finished [] c /\ step c = Halted.
Proof. split; [vm_compute; reflexivity|]. eexists. vm_conj. Qed.

(** A negative write target is not an error.  The spec calls a
    negative target address fatal; [1101,2,3,-1,99] writes 5 to the dict
    key -1 and halts normally. *)
Theorem negative_target_written :
  spec_decode (init_memory [1101;2;3;-1;99]) 0 =
    Some (IAdd (Immediate 2) (Immediate 3) (TPosition (-1))) /\
  exists c, run 10 [1101;2;3;-1;99] [] = Finished [] c /\
    memory c !! (-1) = Some 5 /\ step c = Halted.
Proof. split; [vm_compute; reflexivity|]. eexists. vm_conj. Qed.

(** Operand words are not read through the default-0 memory.  The
    spec says every address reads 0 unless written, so [104] (OUTPUT of
    the immediate operand at address 1) would output 0; the code
    subscripts the dict directly and the thread dies with KeyError 1. *)
Theorem operand_fetch_key_error :
  spec_decode (init_memory [104]) 0 = Some (IOutput (Immediate 0)) /\
  exists c, run 10 [104] [] = Crashed (KeyError 1) [] c.
Proof. split; [vm_compute; reflexivity|]. eexists. vm_conj. Qed.

(** The loop also stops without HALT.  The spec says a
    sparse-memory machine halts only on HALT or a fatal error;
    [1101,1,1,0] has no HALT, and the loop ends silently because the guard
    [i < len(self.__memory)] fails at address 4, where the spec reads 0
    and reports an invalid opcode. *)
Theorem exit_without_halt :
  exists c, run 10 [1101;1;1;0] [] = Finished [] c /\ step c = Exited /\ pc c = 4 /\
    spec_decode (memory c) (pc c) = None.
Proof. eexists. vm_conj. Qed.
