(* ===== verification/ListComputer.v ===== *)
(** * ListComputer: the list-memory [IntcodeComputer] of days 5 and 7

    [src/day-07.py] lines 36-137: the class keeps its program as a Python
    list, knows the position and immediate modes only (any mode other
    than 1 reads memory), ignores the mode of write targets, and has no
    relative base.  Every subscript is a list subscript: a negative index
    counts from the end and one outside [-len, len) raises IndexError.
    [run_program] of [src/day-05.py] lines 39-96 is the same loop with
    [input()] and [print] for the queue and the handler.

    The refinement theorem [list_step_refines_spec] shows that on an
    instruction whose operands and targets stay inside the list and use no
    relative mode, one iteration of this loop has the effect the spec's
    table gives; with [step_refines_spec] the day 7 and the day 9
    computers therefore agree on such programs. *)

From S2P Require Import Prelude Decoder Memory Channel Machine Computer Refinement.

Record lcomputer := mkLComputer {
  lmemory : list Z;
  linputs : list Z;
  llast_output : Z;
  lpc : Z
}.

Definition lset_memory (c : lcomputer) (m : list Z) : lcomputer :=
  mkLComputer m (linputs c) (llast_output c) (lpc c).
Definition lset_inputs (c : lcomputer) (q : list Z) : lcomputer :=
  mkLComputer (lmemory c) q (llast_output c) (lpc c).
Definition lset_last_output (c : lcomputer) (v : Z) : lcomputer :=
  mkLComputer (lmemory c) (linputs c) v (lpc c).
Definition lset_pc (c : lcomputer) (i : Z) : lcomputer :=
  mkLComputer (lmemory c) (linputs c) (llast_output c) i.

(** [IntcodeComputer(memory)] and [i = 0] of [__run_program]. *)
Definition new_lcomputer (program : list Z) : lcomputer := mkLComputer program [] 0 0.

(** [resolve_parameter_value] of day 7 (lines 70-71). *)
Definition lresolve_parameter_value (c : lcomputer) (p : parameter) : result Z :=
  if mode p =? IMMEDIATE_MODE then Ok (value p) else py_get (lmemory c) (value p).

Inductive lexec_result :=
| LExecuted (c : lcomputer) (jumped : bool) (out : option Z)
| LBreak
| LBlock.

(** [self.__memory[parameters[k].value] = v] *)
Definition lwrite_result (c : lcomputer) (ps : list parameter) (k : nat) (v : Z) : result lexec_result :=
  p <- param ps k ;;
  mem <- py_set (lmemory c) (value p) v ;;
  Ok (LExecuted (lset_memory c mem) false None).

(** The dispatch of [__run_program] (lines 91-126). *)
Definition lexecute (op : opcode) (ps : list parameter) (c : lcomputer) : result lexec_result :=
  match op with
  | ADD =>
      p0 <- param ps 0 ;; value1 <- lresolve_parameter_value c p0 ;;
      p1 <- param ps 1 ;; value2 <- lresolve_parameter_value c p1 ;;
      lwrite_result c ps 2 (value1 + value2)
  | MULTIPLY =>
      p0 <- param ps 0 ;; value1 <- lresolve_parameter_value c p0 ;;
      p1 <- param ps 1 ;; value2 <- lresolve_parameter_value c p1 ;;
      lwrite_result c ps 2 (value1 * value2)
  | INPUT =>
      (* the right-hand side [self.__get_next_input()] is evaluated first *)
      match get_next_input (linputs c) with
      | None => Ok LBlock
      | Some (v, rest) =>
          p0 <- param ps 0 ;;
          mem <- py_set (lmemory c) (value p0) v ;;
          Ok (LExecuted (lset_inputs (lset_memory c mem) rest) false None)
      end
  | OUTPUT =>
      p0 <- param ps 0 ;; output <- lresolve_parameter_value c p0 ;;
      Ok (LExecuted (lset_last_output c output) false (Some output))
  | JUMP_IF_TRUE =>
      p0 <- param ps 0 ;; v <- lresolve_parameter_value c p0 ;;
      if negb (v =? 0) then
        p1 <- param ps 1 ;; target <- lresolve_parameter_value c p1 ;;
        Ok (LExecuted (lset_pc c target) true None)
      else Ok (LExecuted c false None)
  | JUMP_IF_FALSE =>
      p0 <- param ps 0 ;; v <- lresolve_parameter_value c p0 ;;
      if v =? 0 then
        p1 <- param ps 1 ;; target <- lresolve_parameter_value c p1 ;;
        Ok (LExecuted (lset_pc c target) true None)
      else Ok (LExecuted c false None)
  | LESS_THAN =>
      p0 <- param ps 0 ;; value1 <- lresolve_parameter_value c p0 ;;
      p1 <- param ps 1 ;; value2 <- lresolve_parameter_value c p1 ;;
      lwrite_result c ps 2 (if value1 <? value2 then 1 else 0)
  | EQUAL_TO =>
      p0 <- param ps 0 ;; value1 <- lresolve_parameter_value c p0 ;;
      p1 <- param ps 1 ;; value2 <- lresolve_parameter_value c p1 ;;
      lwrite_result c ps 2 (if value1 =? value2 then 1 else 0)
  | ADJUST_REL_BASE => Raise (InvalidOpcode 9)   (* not in the day 7 table: never decoded *)
  | HALT => Ok LBreak
  end.

(** One iteration of the [while i < len(self.__memory)] loop (lines 75-129). *)
Definition lstep (c : lcomputer) : step_result lcomputer :=
  if lpc c <? Z.of_nat (length (lmemory c)) then
    match decode (py_get (lmemory c)) opcode_table_day07 (lpc c) with
    | Raise e => Crash e
    | Ok (op, ps) =>
        match lexecute op ps c with
        | Raise e => Crash e
        | Ok LBreak => Halted
        | Ok LBlock => Wait
        | Ok (LExecuted c' jumped out) =>
            Continue out
              (if jumped then c'
               else lset_pc c' (lpc c' + Z.of_nat (OPCODE_TO_INST_SIZE op)))
        end
    end
  else Exited.

#[export] Instance lcomputer_machine : IntcodeMachine lcomputer := {|
  machine_step := lstep;
  machine_inputs := linputs;
  machine_set_inputs := lset_inputs
|}.

(** [run_program(memory)] of day 5: the same loop, [input()] reading
    [stdin] and [print] writing the output log. *)
Definition run_program_day05 (fuel : nat) (memory : list Z) (stdin : list Z) :
    outcome lcomputer (list Z) :=
  run_with log_output fuel [] (mkLComputer memory stdin 0 0).

(** ** The interface laws *)

Ltac lexec_cases :=
  unfold lwrite_result, lresolve_parameter_value, get_next_input in *;
  cbn [lmemory linputs lset_inputs lset_memory lset_pc lset_last_output] in *;
  repeat (case_match || match goal with
                        | H : Ok _ = Ok _ |- _ => injection H as H
                        end); simplify_eq/=;
  repeat match goal with
  | H : ?x = Ok ?a, H' : ?x = Ok ?b |- _ => rewrite H in H'; injection H' as <-
  | H : ?x = Ok ?a, H' : ?x = Raise ?b |- _ => rewrite H in H'; discriminate H'
  | H : ?x = Raise ?a, H' : ?x = Raise ?b |- _ => rewrite H in H'; injection H' as <-
  end.

Section ListStepFacts.
Implicit Types (c : lcomputer).

Lemma lexecute_add_inputs op ps c vs c' j o :
  lexecute op ps c = Ok (LExecuted c' j o) ->
  lexecute op ps (lset_inputs c (linputs c ++ vs)) =
    Ok (LExecuted (lset_inputs c' (linputs c' ++ vs)) j o).
Proof.
  destruct op; cbn [lexecute]; unfold get_next_input; destruct (linputs c) eqn:Hq;
    intros H; lexec_cases; rewrite ?Hq in *; by simplify_eq/=.
Qed.

Lemma lexecute_add_inputs_other op ps c vs r :
  lexecute op ps c = r -> (forall c' j o, r <> Ok (LExecuted c' j o)) -> r <> Ok LBlock ->
  lexecute op ps (lset_inputs c (linputs c ++ vs)) = r.
Proof.
  intros <- H1 H2. destruct op; cbn [lexecute] in *; lexec_cases; try done;
    exfalso; by eapply H1 || apply H2.
Qed.

Lemma lexecute_block op ps c : lexecute op ps c = Ok LBlock -> linputs c = [].
Proof. destruct op; cbn [lexecute]; intros; by lexec_cases. Qed.

Lemma lstep_add_inputs c vs r :
  lstep c = r -> r <> Wait ->
  lstep (lset_inputs c (linputs c ++ vs)) =
    match r with Continue o c' => Continue o (lset_inputs c' (linputs c' ++ vs)) | _ => r end.
Proof.
  intros <- Hw. unfold lstep in *.
  change (lmemory (lset_inputs c (linputs c ++ vs))) with (lmemory c).
  change (lpc (lset_inputs c (linputs c ++ vs))) with (lpc c).
  destruct (_ <? _); [|done].
  destruct (decode _ _ _) as [[op ps]|]; [|done].
  destruct (lexecute op ps c) as [[c' j o| |]|e] eqn:E.
  - rewrite (lexecute_add_inputs _ _ _ _ _ _ _ E). by destruct j.
  - by rewrite (lexecute_add_inputs_other _ _ _ vs _ E).
  - done.
  - by rewrite (lexecute_add_inputs_other _ _ _ vs _ E).
Qed.

Lemma lstep_wait_inputs c : lstep c = Wait -> linputs c = [].
Proof.
  unfold lstep. destruct (_ <? _); [|done].
  destruct (decode _ _ _) as [[op ps]|]; [|done].
  destruct (lexecute op ps c) as [[| |]|] eqn:E; try done. intros _. by eapply lexecute_block.
Qed.
End ListStepFacts.

#[export] Instance lcomputer_machine_laws : IntcodeMachineLaws lcomputer.
Proof.
  split.
  - done.
  - by intros [].
  - intros c vs r Hs Hw. unfold add_inputs. simpl. rewrite send_inputs_app.
    rewrite (lstep_add_inputs c vs r Hs Hw).
    destruct r; try done. simpl. by rewrite send_inputs_app.
  - exact lstep_wait_inputs.
Qed.

(** ** Refinement of the spec on in-range instructions *)

(** The dict computer with the same program, queue, output and counter. *)
Definition to_computer (c : lcomputer) : computer :=
  mkComputer (init_memory (lmemory c)) (linputs c) (llast_output c) (lpc c) 0.


Definition in_list (n a : Z) : bool := (0 <=? a) && (a <? n).

Definition operand_in (n : Z) (o : operand) : bool :=
  match o with Position a => in_list n a | Immediate _ => true | Relative _ => false end.

Definition target_in (n : Z) (t : target) : bool :=
  match t with TPosition a => in_list n a | TRelative _ => false end.

(** The instruction reads and writes inside a list of length [n] only,
    and uses neither relative mode nor ADJUST_REL_BASE. *)
Definition instr_in_range (n : Z) (i : instr) : bool :=
  match i with
  | IAdd a b d | IMul a b d | ILessThan a b d | IEquals a b d =>
      operand_in n a && operand_in n b && target_in n d
  | IInput d => target_in n d
  | IOutput a => operand_in n a
  | IJumpIfTrue a b | IJumpIfFalse a b => operand_in n a && operand_in n b
  | IAdjustRelBase _ => false
  | IHalt => true
  end.

Section ListRefinement.
Implicit Types (l : list Z).

Lemma py_get_init l a :
  0 <= a < Z.of_nat (length l) -> py_get l a = Ok (read_memory (init_memory l) a).
Proof.
  intros Ha. destruct (py_get_nonneg l a Ha) as (v & Hv & ->).
  unfold read_memory. rewrite init_memory_lookup. case_decide; [|lia]. by rewrite Hv.
Qed.

Lemma py_set_init l a v :
  0 <= a < Z.of_nat (length l) ->
  exists l', py_set l a v = Ok l' /\ init_memory l' = write_memory (init_memory l) a v.
Proof.
  intros Ha. unfold py_set. rewrite py_index_nonneg by done. eexists. split; [done|].
  unfold init_memory, write_memory. rewrite map_seqZ_insert_0 by lia.
  by rewrite Z2Nat.id by lia.
Qed.

Lemma in_list_spec n a : in_list n a = true <-> 0 <= a < n.
Proof. unfold in_list. rewrite andb_true_iff, Z.leb_le, Z.ltb_lt. done. Qed.

Lemma lresolve_spec c m w o :
  spec_operand m w = Some o -> operand_in (Z.of_nat (length (lmemory c))) o = true ->
  lresolve_parameter_value c (mkParameter w m) = Ok (operand_value (to_computer c) o).
Proof.
  unfold spec_operand, lresolve_parameter_value, IMMEDIATE_MODE. cbn [mode value].
  destruct (Z.eqb_spec m 0), (Z.eqb_spec m 1), (Z.eqb_spec m 2); subst;
    intros Ho Hin; simplify_eq/=; try done; try lia.
  apply in_list_spec in Hin. by apply py_get_init.
Qed.

Lemma lset_spec c m w t v :
  spec_target m w = Some t -> target_in (Z.of_nat (length (lmemory c))) t = true ->
  exists l', py_set (lmemory c) w v = Ok l' /\
    init_memory l' = write_memory (init_memory (lmemory c)) (target_address (to_computer c) t) v.
Proof.
  unfold spec_target. destruct (Z.eqb_spec m 0), (Z.eqb_spec m 2); intros Ht Hin;
    simplify_eq/=; try done; try lia. apply in_list_spec in Hin. by apply py_set_init.
Qed.

Lemma table_day09_day07 z op :
  opcode_table_day09 z = Some op -> op <> ADJUST_REL_BASE -> opcode_table_day07 z = Some op.
Proof. unfold opcode_table_day09. destruct (z =? 9); [intros [= <-]; done | done]. Qed.

Lemma ldecode_words l i op :
  opcode_table_day07 (read_memory (init_memory l) i mod 100) = Some op ->
  (forall k, (k < OPCODE_TO_INST_SIZE op)%nat -> 0 <= i + Z.of_nat k < Z.of_nat (length l)) ->
  decode (py_get l) opcode_table_day07 i =
    Ok (op, map (fun k => mkParameter (read_memory (init_memory l) (i + 1 + Z.of_nat k))
                              (mode_digit (read_memory (init_memory l) i) k))
              (seq 0 (Nat.pred (OPCODE_TO_INST_SIZE op)))).
Proof.
  intros Hop Hin. unfold decode.
  rewrite (py_get_init l i) by (specialize (Hin 0%nat); destruct op; simpl in *; lia).
  rewrite Hop.
  rewrite (fetch_parameters_seq _ _ _ _ (fun k => read_memory (init_memory l) (i + 1 + Z.of_nat k)));
    [done|].
  intros k Hk. apply py_get_init. specialize (Hin (S k)). lia.
Qed.
End ListRefinement.

Ltac lspec_rewrite :=
  repeat match goal with
  | H : spec_operand ?m ?w = Some ?o, Hin : operand_in _ ?o = true
    |- context [lresolve_parameter_value ?c (mkParameter ?w ?m)] =>
      rewrite (lresolve_spec c m w o H Hin)
  | H : spec_target ?m ?w = Some ?t, Hin : target_in _ ?t = true
    |- context [py_set (lmemory ?c) ?w ?v] =>
      let l' := fresh "l" in let Hs := fresh "Hs" in let Hi := fresh "Hi" in
      destruct (lset_spec c m w t v H Hin) as (l' & Hs & Hi); rewrite Hs
  end.

(** C2: the day 7 computer refines the spec on in-range instructions.
    When the spec decodes the instruction at the program counter, its
    words lie inside the list, and its operands and targets are
    immediate or positions inside the list (no relative mode, no
    ADJUST_REL_BASE, which day 7 does not know), one iteration of the
    list-memory loop has the effect the spec's table gives, read on the
    dict image of the list. *)
Theorem list_step_refines_spec c i :
  0 <= lpc c ->
  lpc c + Z.of_nat (OPCODE_TO_INST_SIZE (instr_opcode i)) <= Z.of_nat (length (lmemory c)) ->
  spec_decode (init_memory (lmemory c)) (lpc c) = Some i ->
  instr_in_range (Z.of_nat (length (lmemory c))) i = true ->
  map_step to_computer (lstep c) = spec_exec i (to_computer c).
Proof.
  intros H0 Hlen Hdec Hr.
  assert (Hop : opcode_table_day07 (read_memory (init_memory (lmemory c)) (lpc c) mod 100)
                = Some (instr_opcode i)).
  { apply table_day09_day07; [exact (spec_decode_opcode _ _ _ Hdec)|].
    by destruct i. }
  unfold lstep. rewrite (proj2 (Z.ltb_lt _ _)) by (destruct i; simpl in Hlen; lia).
  rewrite (ldecode_words _ _ _ Hop) by lia.
  unfold spec_decode in Hdec. rewrite (spec_decode_opcode _ _ _ Hdec) in Hdec. simpl in Hdec.
  destruct i; simpl in Hdec; spec_binds Hdec; simpl in Hr;
    rewrite ?andb_true_iff in Hr; destruct_and?; cbn [lexecute]; simpl;
    unfold lwrite_result, get_next_input; simpl;
    try (destruct (linputs c); [done|]); lspec_rewrite;
    try (destruct (operand_value _ a =? 0)); unfold to_computer; simpl; rewrite ?Hi;
    reflexivity.
Qed.

(** The witness: [1002,4,3,4,33] of the day 5 puzzle statement, run by
    the day 7 computer. *)
Lemma list_step_refines_spec_witness :
  spec_decode (init_memory [1002;4;3;4;33]) 0 =
    Some (IMul (Position 4) (Immediate 3) (TPosition 4)) /\
  map_step to_computer (lstep (new_lcomputer [1002;4;3;4;33])) =
    spec_exec (IMul (Position 4) (Immediate 3) (TPosition 4))
      (to_computer (new_lcomputer [1002;4;3;4;33])).
Proof.
  split; [vm_compute; reflexivity|].
  apply list_step_refines_spec; vm_compute; first [reflexivity | discriminate].
Defined.

(** A negative write target wraps in the list computer.  The spec
    makes a negative target a fatal target error; [1101,1,1,-1] of day 7
    subscripts the list with -1, which Python reads from the end, so the
    sum lands in the last cell (over the target word itself) and the
    loop goes on, where the dict computer of day 9 writes key -1. *)
Theorem list_negative_target_wraps :
  spec_decode (init_memory [1101;1;1;-1]) 0 =
    Some (IAdd (Immediate 1) (Immediate 1) (TPosition (-1))) /\
  lstep (new_lcomputer [1101;1;1;-1]) = Continue None (mkLComputer [1101;1;1;2] [] 0 4) /\
  lstep (mkLComputer [1101;1;1;2] [] 0 4) = Exited.
Proof. vm_conj. Qed.

(** ** Day 5's worked examples *)

(** The comparison program of the day 5 puzzle: 999, 1000 or 1001 as
    the input is below, equal to or above 8. *)
Definition compare8 : list Z :=
  [3;21;1008;21;8;20;1005;20;22;107;8;21;20;1006;20;31;1106;0;36;98;0;0;1002;21;125;20;
   4;20;1105;1;46;104;999;1105;1;46;1101;1000;1;20;4;20;1105;1;46;98;99].

(** Day 5's [run_program] on the puzzle's examples.  The comparison
    program prints 999, 1000 and 1001 for the inputs 7, 8 and 9; the
    equal-to-8 program in position mode prints 0 and 1 for 7 and 8; the
    two jump programs (position and immediate mode) print 0 for input 0
    and 1 for input 5; every run halts. *)
Theorem day05_examples :
  (exists c, run_program_day05 100 compare8 [7] = Finished [999] c) /\
  (exists c, run_program_day05 100 compare8 [8] = Finished [1000] c) /\
  (exists c, run_program_day05 100 compare8 [9] = Finished [1001] c) /\
  (exists c, run_program_day05 100 [3;9;8;9;10;9;4;9;99;-1;8] [7] = Finished [0] c) /\
  (exists c, run_program_day05 100 [3;9;8;9;10;9;4;9;99;-1;8] [8] = Finished [1] c) /\
  (exists c, run_program_day05 100 [3;12;6;12;15;1;13;14;13;4;13;99;-1;0;1;9] [0] = Finished [0] c) /\
  (exists c, run_program_day05 100 [3;3;1105;-1;9;1101;0;0;12;4;12;99;1] [5] = Finished [1] c).
Proof. split_and!; eexists; vm_compute; reflexivity. Qed.
