(* ===== verification/Day02.v ===== *)
(** * Day02: the first Intcode interpreter of [src/day-02.py]

    [run_program] walks the list with [for i, opcode in enumerate(values)]
    and executes the word at [i] only when [i == next_opcode]; ADD and
    MULTIPLY read three index words and write through them, 99 returns,
    and any other word is skipped with [continue] -- which, since
    [next_opcode] is not moved, skips the rest of the list.  The list is
    mutated while [enumerate] walks it, so each word is read after the
    writes before it (self-modifying programs work).

    [run_program_loop] is that loop, one iteration per index.  The
    reference is [d2_step], a machine with a program counter run by the
    generic [run_with]: [run_program_equiv] shows the enumerate loop equals
    it and that the direct machine always ends within [len(values) + 1]
    steps; [d2_step_lstep] shows that on ADD, MULTIPLY and HALT words one
    step of it is one iteration of the day 5/7 list computer.  [main]'s
    noun/verb search is [find_noun_verb]. *)

From S2P Require Import Prelude Memory Decoder Machine ListComputer.

(** [values[target_index] = values[input1_index] (f) values[input2_index]]
    after reading the three index words at [i+1], [i+2], [i+3]. *)
Definition binop (f : Z -> Z -> Z) (values : list Z) (i : nat) : result (list Z) :=
  input1_index <- py_get values (Z.of_nat i + 1) ;;
  input2_index <- py_get values (Z.of_nat i + 2) ;;
  target_index <- py_get values (Z.of_nat i + 3) ;;
  a <- py_get values input1_index ;;
  b <- py_get values input2_index ;;
  py_set values target_index (f a b).

(** The [for] loop from index [i] with at most [n] iterations left; the
    iterator reads [values[i]] live and stops past the end. *)
Fixpoint run_program_loop (n i next_opcode : nat) (values : list Z) : result (list Z) :=
  match n with
  | O => Ok values
  | S n' =>
      match values !! i with
      | None => Ok values
      | Some opcode =>
          if negb (i =? next_opcode)%nat then run_program_loop n' (S i) next_opcode values
          else if opcode =? 1 then
            values' <- binop Z.add values i ;; run_program_loop n' (S i) (i + 4) values'
          else if opcode =? 2 then
            values' <- binop Z.mul values i ;; run_program_loop n' (S i) (i + 4) values'
          else if opcode =? 99 then Ok values
          else run_program_loop n' (S i) next_opcode values
      end
  end.

(** [run_program(values)]: the list is mutated in place; the model
    returns its final contents.  The assignment never changes the length,
    so [len(values)] iterations are all the iterator makes. *)
Definition run_program (values : list Z) : result (list Z) :=
  run_program_loop (length values) 0 0 values.

(** ** [main] *)

Definition PART_2_TARGET_VALUE : Z := 19690720.

(** [memory = values[:]; memory[1] = noun; memory[2] = verb;
    run_program(memory)]; then [memory[0]] is read. *)
Definition run_with_inputs (values : list Z) (noun verb : Z) : result Z :=
  memory <- py_set values 1 noun ;;
  memory <- py_set memory 2 verb ;;
  memory <- run_program memory ;;
  py_get memory 0.

Module Day02.

(** Part 1 prints [memory[0]] after the "1202 program alarm" patch. *)
Definition part1 (values : list Z) : result Z := run_with_inputs values 12 2.
End Day02.
Import Day02.

(** [range(0, n)] *)
Definition py_range (n : nat) : list Z := map Z.of_nat (seq 0 n).

(** A [for] loop that leaves through [sys.exit] at the first hit. *)
Fixpoint first_some {A B} (f : A -> result (option B)) (xs : list A) : result (option B) :=
  match xs with
  | [] => Ok None
  | x :: xs' => r <- f x ;; match r with Some b => Ok (Some b) | None => first_some f xs' end
  end.

(** Part 2: the nested [for noun ... for verb ...] search; the answer
    printed before [sys.exit(0)] is [100 * noun + verb]. *)
Definition find_noun_verb (values : list Z) : result (option Z) :=
  first_some (fun noun =>
    first_some (fun verb =>
      r <- run_with_inputs values noun verb ;;
      Ok (if r =? PART_2_TARGET_VALUE then Some (100 * noun + verb) else None))
    (py_range 100))
  (py_range 100).

(** The reference: a program counter over the list. *)
Record d2state := D2 { d2mem : list Z; d2pc : nat }.

Definition d2_step (s : d2state) : step_result d2state :=
  match d2mem s !! d2pc s with
  | None => Exited
  | Some opcode =>
      if opcode =? 1 then
        match binop Z.add (d2mem s) (d2pc s) with
        | Ok v => Continue None (D2 v (d2pc s + 4)) | Raise e => Crash e end
      else if opcode =? 2 then
        match binop Z.mul (d2mem s) (d2pc s) with
        | Ok v => Continue None (D2 v (d2pc s + 4)) | Raise e => Crash e end
      else if opcode =? 99 then Halted
      else Exited
  end.

#[export] Instance d2_machine : IntcodeMachine d2state := {|
  machine_step := d2_step;
  machine_inputs _ := [];
  machine_set_inputs s _ := s
|}.

Definition no_output (v : Z) (u : unit) : unit * list Z := (u, []).

Definition outcome_result (o : outcome d2state unit) : result (list Z) :=
  match o with
  | Finished _ s | Blocked _ s | OutOfFuel _ s => Ok (d2mem s)
  | Crashed e _ _ => Raise e
  end.

Definition outcome_done {M W} (o : outcome M W) : bool :=
  match o with Finished _ _ | Crashed _ _ _ => true | _ => false end.

(** ** The enumerate loop is the program-counter machine *)

Lemma binop_length f v i v' : binop f v i = Ok v' -> length v' = length v.
Proof. unfold binop. intros. py_simpl. by eapply py_set_length. Qed.

(** Past [next_opcode] nothing runs any more. *)
Lemma run_program_loop_skip n i next v :
  (next < i)%nat -> run_program_loop n i next v = Ok v.
Proof.
  revert i. induction n as [|n IH]; intros i Hi; simpl; [done|].
  destruct (v !! i); [|done].
  replace (i =? next)%nat with false by (symmetry; apply Nat.eqb_neq; lia).
  simpl. apply IH. lia.
Qed.

Lemma run_program_loop_direct n i next v m :
  (i <= next)%nat -> (length v <= n + i)%nat -> (length v <= m + next)%nat ->
  run_program_loop n i next v = outcome_result (run_with no_output (S m) tt (D2 v next)) /\
  outcome_done (run_with no_output (S m) tt (D2 v next)) = true.
Proof.
  revert i next v m. induction n as [|n IH]; intros i next v m Hin Hn Hm.
  - simpl. cbn [machine_step d2_machine]. unfold d2_step; simpl.
    by rewrite (proj2 (lookup_ge_None v next)) by lia.
  - simpl. destruct (v !! i) as [op|] eqn:Hi.
    2:{ apply lookup_ge_None in Hi. cbn [machine_step d2_machine]. unfold d2_step; simpl.
        by rewrite (proj2 (lookup_ge_None v next)) by lia. }
    destruct (Nat.eqb_spec i next) as [<-|Hne]; simpl; [|apply IH; lia].
    cbn [machine_step d2_machine]. unfold d2_step; simpl. rewrite Hi.
    pose proof (lookup_lt_Some _ _ _ Hi) as Hlt. destruct m as [|m]; [lia|].
    destruct (op =? 1); [|destruct (op =? 2); [|destruct (op =? 99)]].
    1,2: match goal with |- context [binop ?f ?v ?i] =>
           destruct (binop f v i) as [v'|e] eqn:Hb; [|done] end;
         apply binop_length in Hb; apply IH; lia.
    + done.
    + simpl. split; [|done]. apply run_program_loop_skip. lia.
Qed.

(** C4: the enumerate loop of [run_program] computes what the direct
    program-counter machine computes: the same final list on HALT, on an
    unknown opcode (the rest of the list is skipped) and past the end,
    and the same IndexError; and the direct machine run for
    [len(values) + 1] steps always ends (never out of fuel). *)
Theorem run_program_equiv values :
  run_program values =
    outcome_result (run_with no_output (S (length values)) tt (D2 values 0)) /\
  outcome_done (run_with no_output (S (length values)) tt (D2 values 0)) = true.
Proof. apply run_program_loop_direct; lia. Qed.

(** ** Day 2 against the list computer of days 5 and 7 *)

Definition to_lcomputer (s : d2state) : lcomputer :=
  mkLComputer (d2mem s) [] 0 (Z.of_nat (d2pc s)).

(** The word at the program counter is one day 2 knows, or the counter is
    past the end. *)
Definition d2_known (s : d2state) : bool :=
  match d2mem s !! d2pc s with
  | None => true
  | Some op => (op =? 1) || (op =? 2) || (op =? 99)
  end.

Lemma py_get_nat (v : list Z) (i : nat) :
  py_get v (Z.of_nat i) = match v !! i with Some x => Ok x | None => Raise (IndexError (Z.of_nat i)) end.
Proof.
  unfold py_get, py_index. destruct (decide (i < length v)%nat).
  - replace ((0 <=? Z.of_nat i) && (Z.of_nat i <? Z.of_nat (length v))) with true
      by (symmetry; apply andb_true_iff; lia). by rewrite Nat2Z.id.
  - rewrite (proj2 (lookup_ge_None v i)) by lia.
    replace ((0 <=? Z.of_nat i) && (Z.of_nat i <? Z.of_nat (length v))) with false
      by (symmetry; apply andb_false_iff; lia).
    replace ((- Z.of_nat (length v) <=? Z.of_nat i) && (Z.of_nat i <? 0)) with false
      by (symmetry; apply andb_false_iff; lia). done.
Qed.

(** On the words day 2 knows, its step is the list computer's.  When
    the word at the program counter is 1, 2 or 99 (or the counter is past
    the end), one step of the day 2 machine and one iteration of the day
    5/7 list computer (started with an empty queue) agree: the same
    writes, the same next counter, the same IndexError, the same end. *)
Lemma d2_step_lstep s :
  d2_known s = true -> map_step to_lcomputer (d2_step s) = lstep (to_lcomputer s).
Proof.
  destruct s as [v pc]. unfold d2_known, d2_step, lstep, to_lcomputer. cbn [d2mem d2pc lmemory lpc].
  destruct (v !! pc) as [op|] eqn:Hop; intros Hk.
  2:{ apply lookup_ge_None in Hop. rewrite (proj2 (Z.ltb_ge _ _)) by lia. done. }
  pose proof (lookup_lt_Some _ _ _ Hop) as Hlt.
  rewrite (proj2 (Z.ltb_lt _ _)) by lia. unfold decode. rewrite py_get_nat, Hop.
  rewrite !orb_true_iff, !Z.eqb_eq in Hk. destruct Hk as [[->| ->]| ->]; simpl; [..|done];
    unfold binop; cbn [lexecute fetch_parameters]; simpl;
    replace (Z.of_nat pc + 1 + 1) with (Z.of_nat pc + 2) by lia;
    replace (Z.of_nat pc + 2 + 1) with (Z.of_nat pc + 3) by lia;
    repeat match goal with |- context [?t] =>
      match t with (_ / _) mod _ => let x := eval vm_compute in t in change t with x end end;
    unfold lwrite_result, lresolve_parameter_value, param; simpl;
    repeat (unfold lwrite_result, lresolve_parameter_value, param; simpl; match goal with
            | |- context [match py_get ?l ?k with _ => _ end] => destruct (py_get l k)
            | |- context [match py_set ?l ?k ?x with _ => _ end] => destruct (py_set l k x)
            end; simpl; try done);
    unfold lset_pc; simpl; do 3 f_equal; lia.
Qed.

(** How the list computer's run ends, as the list [run_program] leaves. *)
Definition lresult (o : outcome lcomputer unit) : result (list Z) :=
  match o with
  | Finished _ c | Blocked _ c | OutOfFuel _ c => Ok (lmemory c)
  | Crashed e _ _ => Raise e
  end.

Lemma lresult_map (o : outcome d2state unit) :
  lresult (outcome_map to_lcomputer o) = outcome_result o.
Proof. by destruct o. Qed.

Lemma outcome_done_map (o : outcome d2state unit) :
  outcome_done (outcome_map to_lcomputer o) = outcome_done o.
Proof. by destruct o. Qed.

(** C15: day 2 computes what the day 5/7 computer computes.  When every
    state day 2's run visits holds a word it knows (1, 2 or 99) or lies
    past the end, [run_program] returns exactly the memory the list
    computer of days 5 and 7 leaves when run on the same list with an
    empty queue, or raises the same IndexError; and that run ends within
    [len(values) + 1] iterations.  This is the spec's property that a
    program of ADD, MULTIPLY and HALT computes the same memory as the
    direct arithmetic evaluation. *)
Theorem run_program_agrees_list_computer values :
  run_all no_output d2_known (S (length values)) tt (D2 values 0) = true ->
  run_program values =
    lresult (run_with no_output (S (length values)) tt (mkLComputer values [] 0 0)) /\
  outcome_done (run_with no_output (S (length values)) tt (mkLComputer values [] 0 0)) = true.
Proof.
  intros Hall.
  destruct (run_program_loop_direct (length values) 0 0 values (length values)) as [Hr Hd]; [lia..|].
  change (mkLComputer values [] 0 0) with (to_lcomputer (D2 values 0)).
  rewrite (run_with_simulation no_output to_lcomputer d2_known) by
    (first [ intros c Hc; symmetry; by apply d2_step_lstep
           | intros c v w; simpl; symmetry; apply add_inputs_nil | done ]).
  by rewrite lresult_map, outcome_done_map.
Qed.

(** The witness: the day 2 example [1,9,10,3,2,3,11,0,99,30,40,50]. *)
Lemma run_program_agrees_list_computer_witness :
  run_all no_output d2_known 13 tt (D2 [1;9;10;3;2;3;11;0;99;30;40;50] 0) = true /\
  run_program [1;9;10;3;2;3;11;0;99;30;40;50] =
    lresult (run_with no_output 13 tt (mkLComputer [1;9;10;3;2;3;11;0;99;30;40;50] [] 0 0)).
Proof.
  assert (H : run_all no_output d2_known 13 tt (D2 [1;9;10;3;2;3;11;0;99;30;40;50] 0) = true)
    by (vm_compute; reflexivity).
  split; [exact H | exact (proj1 (run_program_agrees_list_computer _ H))].
Defined.

(** The worked examples of the day 2 puzzle: [1,9,10,3,2,3,11,0,99,30,40,50]
    ends as [3500,9,10,70,...], and the four small programs end as
    stated, including [1,1,1,4,99,5,6,0,99], which rewrites its own
    second instruction before reaching it. *)
Theorem run_program_examples :
  run_program [1;9;10;3;2;3;11;0;99;30;40;50] = Ok [3500;9;10;70;2;3;11;0;99;30;40;50] /\
  run_program [1;0;0;0;99] = Ok [2;0;0;0;99] /\
  run_program [2;3;0;3;99] = Ok [2;3;0;6;99] /\
  run_program [2;4;4;5;99;0] = Ok [2;4;4;5;99;9801] /\
  run_program [1;1;1;4;99;5;6;0;99] = Ok [30;1;1;4;2;5;6;0;99].
Proof. vm_conj. Qed.

(** An unknown opcode silently ends day 2's loop.  The spec makes an
    opcode outside the table a fatal decode error; [run_program] takes
    the [else: continue] branch, never moves [next_opcode], and skips the
    rest of the list, so the ADD after the word 42 is not executed and the
    call returns normally. *)
Theorem unknown_opcode_skips_rest :
  run_program [1;0;0;0;42;1;0;0;0;99] = Ok [2;0;0;0;42;1;0;0;0;99] /\
  d2_step (D2 [2;0;0;0;42;1;0;0;0;99] 4) = Exited.
Proof. vm_conj. Qed.

(** ** The noun/verb search *)

Section FirstSome.
Context {A B : Type} (f : A -> result (option B)).

Lemma first_some_None xs : first_some f xs = Ok None <-> Forall (fun x => f x = Ok None) xs.
Proof.
  induction xs as [|x xs IH]; simpl; [split; auto|].
  rewrite Forall_cons, <- IH. destruct (f x) as [[b|]|e]; split;
    [intros [=] | intros [[=] _] | by split | by intros [_ ?] | intros [=] | intros [[=] _]].
Qed.

Lemma first_some_Some xs b :
  first_some f xs = Ok (Some b) <->
  exists pre x post, xs = pre ++ x :: post /\ Forall (fun y => f y = Ok None) pre /\
                     f x = Ok (Some b).
Proof.
  induction xs as [|x xs IH]; simpl.
  - split; [done|]. intros ([|? ?] & ? & ? & ? & _); discriminate.
  - split.
    + destruct (f x) as [[b'|]|e] eqn:Hx; [intros [= ->]| |done].
      * by exists [], x, xs.
      * intros (pre & y & post & -> & Hpre & Hy)%IH. exists (x :: pre), y, post.
        split_and!; [done | by constructor | done].
    + intros ([|x' pre] & y & post & Heq & Hpre & Hy); simplify_eq/=; [by rewrite Hy|].
      apply Forall_cons in Hpre as [Hx' Hpre]. rewrite Hx'. apply IH. by exists pre, y, post.
Qed.
End FirstSome.

Lemma py_range_split n pre x post :
  py_range n = pre ++ x :: post -> pre = py_range (length pre) /\ x = Z.of_nat (length pre) /\
                                   (length pre < n)%nat.
Proof.
  unfold py_range. intros Heq.
  assert (Hl : (length pre < n)%nat) by
    (apply (f_equal length) in Heq; rewrite length_map, length_seq, length_app in Heq; simpl in Heq; lia).
  pose proof (f_equal (take (length pre)) Heq) as Ht.
  pose proof (f_equal (.!! length pre) Heq) as Hx.
  rewrite lookup_app_r, Nat.sub_diag in Hx by lia.
  rewrite list_lookup_fmap, lookup_seq_lt in Hx by done. simpl in Hx. injection Hx as ->.
  split_and!; [| lia | done]. rewrite take_app_length in Ht.
  transitivity (take (length pre) (map Z.of_nat (seq 0 n))); [done|].
  rewrite <- fmap_take, take_seq. unfold py_range. do 2 f_equal. lia.
Qed.

Lemma in_py_range n z : In z (py_range n) <-> 0 <= z < Z.of_nat n.
Proof.
  unfold py_range. rewrite in_map_iff. setoid_rewrite in_seq.
  split; [intros (k & <- & ?); lia | intros ?; exists (Z.to_nat z); lia].
Qed.

Lemma verb_miss values noun verb (o : option Z) :
  (r <- run_with_inputs values noun verb ;;
   Ok (if r =? PART_2_TARGET_VALUE then Some (100 * noun + verb) else None)) = Ok o ->
  exists r, run_with_inputs values noun verb = Ok r /\
            o = (if r =? PART_2_TARGET_VALUE then Some (100 * noun + verb) else None).
Proof. destruct (run_with_inputs values noun verb) as [r|]; [intros [= <-]; eauto | done]. Qed.

Lemma Forall_py_range (P : Z -> Prop) n z :
  Forall P (py_range n) -> 0 <= z < Z.of_nat n -> P z.
Proof. rewrite Forall_forall. intros HP Hz. apply HP, list_elem_of_In, in_py_range, Hz. Qed.

(** C16: the noun/verb search prints the first hit.  When [main]'s nested
    loops stop at [sys.exit(0)] with the answer [a], then [a = 100 * noun +
    verb] for a noun and a verb in [0, 100) with which the patched program
    leaves 19690720 in cell 0, and every pair tried before it (smaller
    noun, or same noun and smaller verb) ran without an exception and left
    another value there. *)
Theorem find_noun_verb_first values answer :
  find_noun_verb values = Ok (Some answer) ->
  exists noun verb, 0 <= noun < 100 /\ 0 <= verb < 100 /\ answer = 100 * noun + verb /\
    run_with_inputs values noun verb = Ok PART_2_TARGET_VALUE /\
    forall noun' verb', 0 <= noun' < 100 -> 0 <= verb' < 100 ->
      (noun' < noun \/ noun' = noun /\ verb' < verb) ->
      exists r, run_with_inputs values noun' verb' = Ok r /\ r <> PART_2_TARGET_VALUE.
Proof.
  unfold find_noun_verb. intros (preN & noun & postN & HN & HpreN & Hnoun)%first_some_Some.
  apply first_some_Some in Hnoun as (preV & verb & postV & HV & HpreV & Hverb).
  destruct (py_range_split _ _ _ _ HN) as (HpN & -> & HlN).
  destruct (py_range_split _ _ _ _ HV) as (HpV & -> & HlV).
  destruct (verb_miss _ _ _ _ Hverb) as (r & Hr & Ho).
  destruct (Z.eqb_spec r PART_2_TARGET_VALUE) as [->|]; [injection Ho as ->|done].
  exists (Z.of_nat (length preN)), (Z.of_nat (length preV)).
  split_and!; [lia.. | done | done |].
  intros noun' verb' Hn' Hv' [Hlt | [-> Hlt]].
  - rewrite HpN in HpreN. pose proof (Forall_py_range _ _ noun' HpreN ltac:(lia)) as Hin.
    apply first_some_None in Hin.
    destruct (verb_miss _ _ _ _ (Forall_py_range _ _ verb' Hin ltac:(lia))) as (r' & Hr' & Ho').
    exists r'. split; [done|]. destruct (Z.eqb_spec r' PART_2_TARGET_VALUE); [discriminate | done].
  - rewrite HpV in HpreV.
    destruct (verb_miss _ _ _ _ (Forall_py_range _ _ verb' HpreV ltac:(lia))) as (r' & Hr' & Ho').
    exists r'. split; [done|]. destruct (Z.eqb_spec r' PART_2_TARGET_VALUE); [discriminate | done].
Qed.

(** The witness: a 100-word program whose cell 5 holds 19690719 is hit
    at noun 0, verb 5, since cell 0 holds the opcode 1. *)
Definition search_program : list Z := [1;0;0;0;99;19690719] ++ repeat 0 94.

Lemma find_noun_verb_first_witness :
  find_noun_verb search_program = Ok (Some 5) /\
  exists noun verb, 0 <= noun < 100 /\ 0 <= verb < 100 /\ 5 = 100 * noun + verb /\
    run_with_inputs search_program noun verb = Ok PART_2_TARGET_VALUE /\
    forall noun' verb', 0 <= noun' < 100 -> 0 <= verb' < 100 ->
      (noun' < noun \/ noun' = noun /\ verb' < verb) ->
      exists r, run_with_inputs search_program noun' verb' = Ok r /\ r <> PART_2_TARGET_VALUE.
Proof.
  assert (H : find_noun_verb search_program = Ok (Some 5)) by (vm_compute; reflexivity).
  split; [exact H | apply find_noun_verb_first, H].
Defined.
