(* ===== verification/Network.v ===== *)
(** * Network: instances wired together by their output handlers

    The orchestrators of [src/day-07.py] (part 2) and the spec's pipeline
    and feedback topologies run several instances at once, each on its own
    thread; the output handler of instance [i] calls [send_input] on
    instance [route i] ([amplifiers[(i+1) % 5].send_input(x)]).  A state of
    the network is the Python list of instances; [net_step i] is one
    iteration of instance [i]'s loop with the delivery of its output, and
    [net_rel] lets any thread move: it is the set of all interleavings the
    scheduler may choose.  [round_robin] is one executable schedule.

    The theorems are proved against the [IntcodeMachine] interface and its
    laws: when every channel has a single producer (the spec's
    single-producer/single-consumer queues), steps of different instances
    commute ([net_step_commute]), so all interleavings that run until no
    thread can move end in the same state, the one [round_robin]
    computes. *)

From S2P Require Import Prelude Channel Machine.

Section Network.
Context {M : Type} `{IntcodeMachine M}.
(** Where the output handler of each instance sends ([None]: no handler). *)
Variable route : nat -> option nat.

(** The values an output [o] of instance [i] adds to the queue of [k]. *)
Definition inbox (i : nat) (o : option Z) (k : nat) : list Z :=
  match o, route i with
  | Some v, Some k' => if decide (k = k') then [v] else []
  | _, _ => []
  end.

(** The output handler: [send_input] on the target instance. *)
Definition emit (i : nat) (o : option Z) (cs : list M) : list M :=
  match o, route i with
  | Some v, Some k => alter (fun d => add_inputs d [v]) k cs
  | _, _ => cs
  end.

(** One iteration of the loop of instance [i]; [None] when its thread
    cannot move (blocked on input, halted, exited or crashed). *)
Definition net_step (i : nat) (cs : list M) : option (list M) :=
  match cs !! i with
  | None => None
  | Some c =>
      match machine_step c with
      | Continue o c' => Some (emit i o (<[i := c']> cs))
      | _ => None
      end
  end.

Definition net_rel (cs cs' : list M) : Prop := exists i, net_step i cs = Some cs'.

(** Instance [i] runs until its thread cannot move (at most [fuel]
    iterations); the flag says whether it moved. *)
Fixpoint run_instance (fuel i : nat) (cs : list M) : list M * bool :=
  match fuel with
  | O => (cs, false)
  | S f =>
      match net_step i cs with
      | Some cs' => ((run_instance f i cs').1, true)
      | None => (cs, false)
      end
  end.

(** One round: each instance in list order runs until it cannot move. *)
Definition round (fuel : nat) (cs : list M) : list M * bool :=
  fold_left (fun acc i => let '(cs', b) := run_instance fuel i acc.1 in (cs', acc.2 || b))
    (seq 0 (length cs)) (cs, false).

(** Rounds until one moves no thread; [None] when [rounds] run out. *)
Fixpoint round_robin (rounds fuel : nat) (cs : list M) : option (list M) :=
  match rounds with
  | O => None
  | S r =>
      let '(cs', moved) := round fuel cs in
      if moved then round_robin r fuel cs' else Some cs'
  end.
End Network.

Section NetworkFacts.
Context {M : Type} `{IntcodeMachineLaws M} (route : nat -> option nat).

(** The spec's single-producer channels: no two instances send to the
    same queue. *)
Definition single_producer : Prop :=
  forall i j k, route i = Some k -> route j = Some k -> i = j.

Lemma emit_lookup i o cs k :
  emit route i o cs !! k = (fun d => add_inputs d (inbox route i o k)) <$> cs !! k.
Proof.
  unfold emit, inbox. destruct o as [v|], (route i) as [k'|]; simpl;
    try (destruct (cs !! k); simpl; by rewrite ?add_inputs_nil).
  destruct (decide (k = k')) as [->|Hne].
  - by rewrite list_lookup_alter_eq.
  - rewrite list_lookup_alter_ne by done. destruct (cs !! k); simpl; by rewrite ?add_inputs_nil.
Qed.

Lemma net_step_Some i cs cs' :
  net_step route i cs = Some cs' ->
  exists c o c', cs !! i = Some c /\ machine_step c = Continue o c' /\
    forall k, cs' !! k = (fun d => add_inputs d (inbox route i o k)) <$>
                          (if decide (k = i) then Some c' else cs !! k).
Proof.
  unfold net_step. destruct (cs !! i) as [c|] eqn:Hc; [|done].
  destruct (machine_step c) as [o c'| | | |] eqn:Hs; intros; simplify_eq.
  exists c, o, c'. split_and!; [done..|]. intros k. rewrite emit_lookup.
  destruct (decide (k = i)) as [->|].
  - rewrite list_lookup_insert_eq; [done|]. by eapply lookup_lt_Some.
  - by rewrite list_lookup_insert_ne.
Qed.

Lemma net_step_length i cs cs' : net_step route i cs = Some cs' -> length cs' = length cs.
Proof.
  unfold net_step, emit. destruct (cs !! i); [|done].
  destruct (machine_step _); intros; simplify_eq; try done.
  repeat case_match; by rewrite ?length_alter, length_insert.
Qed.

(** A queue receives from one sender at most. *)
Lemma inbox_single i j oi oj k :
  single_producer -> i <> j -> inbox route i oi k = [] \/ inbox route j oj k = [].
Proof.
  intros Hsp Hij. unfold inbox.
  destruct oi, oj, (route i) as [a|] eqn:Ha, (route j) as [b|] eqn:Hb; auto.
  destruct (decide (k = a)), (decide (k = b)); subst; auto.
  destruct Hij. by eapply Hsp.
Qed.

Lemma add_inputs_comm (c : M) vs ws : vs = [] \/ ws = [] ->
  add_inputs (add_inputs c vs) ws = add_inputs (add_inputs c ws) vs.
Proof. intros [-> | ->]; by rewrite !add_inputs_nil. Qed.

(** A thread that can move still moves, the same way, once values are
    queued for it. *)
Lemma step_add_inputs_Continue (c c' : M) o vs :
  machine_step c = Continue o c' ->
  machine_step (add_inputs c vs) = Continue o (add_inputs c' vs).
Proof. intros Hs. by rewrite (step_add_inputs _ vs _ Hs). Qed.

Lemma lookup_insert_fmap (cs : list M) i (c : M) k (f : M -> M) :
  (i < length cs)%nat ->
  f <$> (<[i := c]> cs !! k) = if decide (k = i) then Some (f c) else f <$> cs !! k.
Proof.
  intros Hi. destruct (decide (k = i)) as [->|].
  - by rewrite list_lookup_insert_eq. - by rewrite list_lookup_insert_ne.
Qed.

(** Steps of two different threads commute: the spec's queues have a
    single producer, and a thread that can move ignores what is queued
    behind. *)
Lemma net_step_commute i j cs cs1 cs2 :
  single_producer -> i <> j ->
  net_step route i cs = Some cs1 -> net_step route j cs = Some cs2 ->
  exists cs3, net_step route j cs1 = Some cs3 /\ net_step route i cs2 = Some cs3.
Proof.
  intros Hsp Hij H1 H2.
  pose proof (net_step_length _ _ _ H1) as Hlen1. pose proof (net_step_length _ _ _ H2) as Hlen2.
  destruct (net_step_Some _ _ _ H1) as (ci & oi & ci' & Hci & Hsi & Hl1).
  destruct (net_step_Some _ _ _ H2) as (cj & oj & cj' & Hcj & Hsj & Hl2).
  pose proof (lookup_lt_Some _ _ _ Hci). pose proof (lookup_lt_Some _ _ _ Hcj).
  unfold net_step. rewrite Hl1, Hl2, !decide_False, Hci, Hcj by done. simpl.
  rewrite (step_add_inputs_Continue _ _ _ _ Hsj), (step_add_inputs_Continue _ _ _ _ Hsi).
  eexists. split; [reflexivity|]. f_equal. apply list_eq. intros k.
  rewrite !emit_lookup, !lookup_insert_fmap by lia. rewrite Hl1, Hl2.
  destruct (decide (k = j)), (decide (k = i)); subst; simplify_eq/=;
    try destruct (cs !! k); simpl; f_equal; apply add_inputs_comm;
    first [by apply inbox_single | by apply or_comm, inbox_single].
Qed.
End NetworkFacts.

Section Schedules.
Context {M : Type} `{IntcodeMachineLaws M} (route : nat -> option nat).

(** At most one step: the reflexive closure, which has the diamond
    property when [net_rel] has it up to equal results. *)
Definition net_rel_opt (cs cs' : list M) : Prop := cs = cs' \/ net_rel route cs cs'.

Lemma net_rel_opt_diamond : single_producer route -> diamond net_rel_opt.
Proof.
  intros Hsp x y1 y2 [E1|[i H1]] [E2|[j H2]].
  - exists y1. split; left; congruence.
  - exists y2. split; [right; exists j; congruence | by left].
  - exists y1. split; [by left | right; exists i; congruence].
  - destruct (decide (i = j)) as [<-|Hij].
    + rewrite H1 in H2. injection H2 as E. exists y1. split; left; congruence.
    + destruct (net_step_commute route i j x y1 y2 Hsp Hij H1 H2) as (z & Hz1 & Hz2).
      exists z. split; right; [by exists j | by exists i].
Qed.

Lemma rtc_net_rel_opt cs cs' : rtc net_rel_opt cs cs' <-> rtc (net_rel route) cs cs'.
Proof.
  split.
  - induction 1 as [|x y z [<-|Hxy] _ IH]; [done | done | by eapply rtc_l].
  - induction 1 as [|x y z Hxy _ IH]; [done | eapply rtc_l; [right; exact Hxy | exact IH]].
Qed.

Lemma nf_net_rel cs : nf (net_rel route) cs <-> forall i, net_step route i cs = None.
Proof.
  split.
  - intros Hnf i. destruct (net_step route i cs) eqn:E; [|done]. destruct Hnf. by exists l, i.
  - intros Hnone [cs' [i Hi]]. by rewrite Hnone in Hi.
Qed.

Lemma run_instance_sound f i cs :
  rtc (net_rel route) cs (run_instance route f i cs).1 /\
  ((run_instance route f i cs).2 = false ->
   (run_instance route f i cs).1 = cs /\ (0 < f -> net_step route i cs = None)%nat).
Proof.
  revert cs. induction f as [|f IH]; intros cs; simpl; [split; [done | intros; split; [done | lia]]|].
  destruct (net_step route i cs) as [cs'|] eqn:E; simpl; [|done].
  split; [|done]. eapply rtc_l; [by exists i | apply IH].
Qed.

Lemma round_fold f idxs (acc : list M * bool) :
  let r := fold_left (fun acc i => let '(cs', b) := run_instance route f i acc.1 in (cs', acc.2 || b))
             idxs acc in
  rtc (net_rel route) acc.1 r.1 /\
  (r.2 = false -> acc.2 = false /\ r.1 = acc.1 /\
   ((0 < f)%nat -> Forall (fun i => net_step route i acc.1 = None) idxs)).
Proof.
  revert acc. induction idxs as [|i idxs IH]; intros [cs b]; simpl; [split; [done|auto]|].
  destruct (run_instance_sound f i cs) as [Hr Hb].
  destruct (run_instance route f i cs) as [cs' b'] eqn:E. simpl in *.
  destruct (IH (cs', b || b')) as [Hrtc Hnf]. simpl in *. split; [by eapply rtc_trans|].
  intros Hfalse. specialize (Hnf Hfalse) as [Hbb' [Heq Hrest]].
  apply orb_false_iff in Hbb' as [-> ->]. destruct (Hb eq_refl) as [-> Hnone].
  repeat split; [done.. | constructor; auto].
Qed.
Lemma round_sound f cs :
  rtc (net_rel route) cs (round route f cs).1 /\
  ((round route f cs).2 = false -> (round route f cs).1 = cs /\
   ((0 < f)%nat -> nf (net_rel route) cs)).
Proof.
  unfold round. destruct (round_fold f (seq 0 (length cs)) (cs, false)) as [Hr Hb].
  simpl in *. split; [done|]. intros Hfalse. destruct (Hb Hfalse) as (_ & Heq & Hall).
  split; [done|]. intros Hf. apply nf_net_rel. intros i.
  destruct (decide (i < length cs)%nat).
  - rewrite Forall_forall in Hall. apply Hall; [done|]. apply list_elem_of_In, in_seq. lia.
  - unfold net_step. by rewrite (proj2 (lookup_ge_None cs i)) by lia.
Qed.

(** The round-robin schedule follows the interleaving relation, and when
    it stops no thread can move. *)
Lemma round_robin_sound r f cs cs' :
  (0 < f)%nat -> round_robin route r f cs = Some cs' ->
  rtc (net_rel route) cs cs' /\ nf (net_rel route) cs'.
Proof.
  intros Hf. revert cs. induction r as [|r IH]; intros cs; simpl; [done|].
  destruct (round_sound f cs) as [Hr Hb].
  destruct (round route f cs) as [cs1 moved]. simpl in *. destruct moved.
  - intros Hrr. destruct (IH cs1 Hrr) as [Hr' Hnf]. split; [by eapply rtc_trans | done].
  - intros [= <-]. destruct (Hb eq_refl) as [-> Hnf]. split; [done | by apply Hnf].
Qed.
Lemma net_rel_confluent : single_producer route -> confluent (net_rel route).
Proof.
  intros Hsp x y1 y2 H1 H2. apply rtc_net_rel_opt in H1, H2.
  destruct (diamond_confluent (net_rel_opt_diamond Hsp) x y1 y2 H1 H2) as (z & Hz1 & Hz2).
  exists z. split; by apply rtc_net_rel_opt.
Qed.

(** C3: the thread schedule does not matter.  In a network whose queues
    have a single producer each, every interleaving of the instances'
    threads that runs until no thread can move (all halted, exited,
    crashed or blocked on input) ends in the same state: the one the
    round-robin schedule computes.  So the answer the Python program
    reads after [wait_for_exit] does not depend on how the operating
    system scheduled its threads. *)
Theorem schedule_independence r f cs cs' cs'' :
  single_producer route -> (0 < f)%nat ->
  round_robin route r f cs = Some cs' ->
  rtc (net_rel route) cs cs'' -> nf (net_rel route) cs'' -> cs'' = cs'.
Proof.
  intros Hsp Hf Hrr Hr Hnf. destruct (round_robin_sound r f cs cs' Hf Hrr) as [Hr' Hnf'].
  exact (confluent_rtc_nf _ _ _ (net_rel_confluent Hsp) Hr Hnf Hr' Hnf').
Qed.
End Schedules.
