(* ===== verification/Amplifiers.v ===== *)
(** * Amplifiers: the orchestration of [main] in [src/day-07.py]

    Part 1 runs five amplifiers one after the other: each is a fresh
    [IntcodeComputer(input_values[:])] that is started, sent its phase
    setting and the previous amplifier's output, and joined; its
    [get_last_output()] feeds the next ([amplifier_chain]).  Part 2 wires
    five amplifiers in a cycle with output handlers
    [amplifiers[(i+1) % 5].send_input(x)], seeds the queues, starts all
    threads and joins them ([feedback_thrust], a [Network] with route
    [feedback_route]).  Both parts take the largest thrust over
    [itertools.permutations] of the phase settings ([max_thrust]).

    The values are sent after [start_program()] in the source and queued
    before the start here; [Machine.input_timing] shows the two orders
    reach the same state.  A thread that ends with an exception is joined
    like one that halts (its last output is read); a thread blocked on
    input forever makes [wait_for_exit] hang, which is [None] here, as is
    running out of fuel.

    [parts_largest_thrust]: both parts answer the largest thrust over
    every order of the phase settings, or 0 (the initial [max_output])
    when no order gives a positive one; [itertools.permutations] lists
    exactly the reorderings of its argument ([py_permutations_spec]). *)

From S2P Require Import Prelude Machine Channel ListComputer Network.

(** No output handler is installed in part 1. *)
Definition no_handler (v : Z) (u : unit) : unit * list Z := (u, []).

(** One amplifier of part 1, joined; [Some] of its last output. *)
Definition run_amplifier (fuel : nat) (program : list Z) (phase last_output : Z) : option Z :=
  match run_with no_handler fuel tt (mkLComputer program [phase; last_output] 0 0) with
  | Finished _ c | Crashed _ _ c => Some (llast_output c)
  | Blocked _ _ | OutOfFuel _ _ => None
  end.

(** [for i in range(5): ... last_output = amplifier.get_last_output()] *)
Fixpoint amplifier_chain (fuel : nat) (program : list Z) (phases : list Z) (last_output : Z)
    : option Z :=
  match phases with
  | [] => Some last_output
  | p :: ps =>
      match run_amplifier fuel program p last_output with
      | Some o => amplifier_chain fuel program ps o
      | None => None
      end
  end.

(** [itertools.permutations]: positions in order, the first position
    varying slowest. *)
Fixpoint picks (l : list Z) : list (Z * list Z) :=
  match l with
  | [] => []
  | x :: xs => (x, xs) :: map (fun '(y, r) => (y, x :: r)) (picks xs)
  end.

Fixpoint permutations_n (n : nat) (l : list Z) : list (list Z) :=
  match n with
  | O => [[]]
  | S n' => flat_map (fun '(x, r) => map (cons x) (permutations_n n' r)) (picks l)
  end.

Definition py_permutations (l : list Z) : list (list Z) := permutations_n (length l) l.

(** [max_output = 0; for values in permutations(...): ... if last_output >
    max_output: max_output = last_output] *)
Definition max_thrust (thrust : list Z -> option Z) (perms : list (list Z)) : option Z :=
  fold_left (fun acc values =>
      match acc, thrust values with
      | Some m, Some o => Some (if o >? m then o else m)
      | _, _ => None
      end) perms (Some 0).

Module Day07.

Definition part1 (fuel : nat) (program : list Z) : option Z :=
  max_thrust (fun values => amplifier_chain fuel program values 0) (py_permutations [0;1;2;3;4]).

(** Part 2: [amplifiers[(i+1) % 5].send_input(x)] for the five amplifiers. *)
Definition feedback_route (i : nat) : option nat :=
  if (i <? 4)%nat then Some (S i) else if (i =? 4)%nat then Some 0%nat else None.

(** The amplifiers after [send_input(values[i])] and, for the first,
    [send_input(0)]. *)
Definition feedback_network (program : list Z) (phases : list Z) : list lcomputer :=
  imap (fun i p => mkLComputer program (if (i =? 0)%nat then [p; 0] else [p]) 0 0) phases.

Definition is_waiting (c : lcomputer) : bool :=
  match lstep c with Wait => true | _ => false end.

(** Start all, join all, read [amplifiers[4].get_last_output()]; a thread
    still blocked on input makes the join hang. *)
Definition feedback_thrust (rounds fuel : nat) (program : list Z) (phases : list Z) : option Z :=
  match round_robin feedback_route rounds fuel (feedback_network program phases) with
  | Some cs =>
      if existsb is_waiting cs then None
      else match cs !! 4%nat with Some c => Some (llast_output c) | None => None end
  | None => None
  end.

Definition part2 (rounds fuel : nat) (program : list Z) : option Z :=
  max_thrust (feedback_thrust rounds fuel program) (py_permutations [5;6;7;8;9]).

End Day07.
Import Day07.

(** ** The worked examples of the day 7 puzzle *)

Definition example1 : list Z := [3;15;3;16;1002;16;10;16;1;16;15;15;4;15;99;0;0].
Definition example2 : list Z :=
  [3;23;3;24;1002;24;10;24;1002;23;-1;23;101;5;23;23;1;24;23;23;4;23;99;0;0].
Definition example3 : list Z :=
  [3;26;1001;26;-4;26;3;27;1002;27;2;27;1;27;26;27;4;27;1001;28;-1;28;1005;28;6;99;0;0;5].
Definition example4 : list Z :=
  [3;52;1001;52;-5;52;3;53;1;52;56;54;1007;54;5;55;1005;55;26;1001;54;-5;54;1105;1;12;1;53;
   54;53;1008;54;0;55;1001;55;1;55;2;53;55;53;4;53;1001;56;-1;56;1005;56;6;99;0;0;0;0;10].

(** The amplifier examples.  Part 1 finds the maximal thrust 43210
    and 54321 of the puzzle's first two programs; part 2 finds 139629729
    for the third, and the feedback loop with phases 9,7,8,5,6 gives
    18216 for the fourth. *)
Theorem amplifier_examples :
  part1 100 example1 = Some 43210 /\
  amplifier_chain 100 example1 [4;3;2;1;0] 0 = Some 43210 /\
  part1 100 example2 = Some 54321 /\
  part2 100 1000 example3 = Some 139629729 /\
  feedback_thrust 100 1000 example3 [9;8;7;6;5] = Some 139629729 /\
  feedback_thrust 100 1000 example4 [9;7;8;5;6] = Some 18216.
Proof. vm_conj. Qed.

(** ** The spec's two-instance pipeline *)

(** Instance A's output handler sends to instance B; B has none. *)
Definition pipe_route (i : nat) : option nat := if (i =? 0)%nat then Some 1%nat else None.

Definition echo : list Z := [3;0;4;0;99].

(** The spec's scenario 5.  Two instances of [3,0,4,0,99], A's
    output wired to B's input and 7 sent to A, pass the value end to end
    without deadlock: the schedule ends with both halted and B's last
    output 7. *)
Theorem pipeline_scenario :
  exists cs, round_robin pipe_route 10 100 [mkLComputer echo [7] 0 0; mkLComputer echo [] 0 0] = Some cs /\
    map lstep cs = [Halted; Halted] /\ map llast_output cs = [7; 7].
Proof. eexists. split; [reflexivity | vm_conj]. Qed.

(** ** Schedule independence at work *)

Lemma feedback_single_producer : single_producer feedback_route.
Proof.
  intros i j k. unfold feedback_route.
  destruct (Nat.ltb_spec i 4), (Nat.eqb_spec i 4), (Nat.ltb_spec j 4), (Nat.eqb_spec j 4);
    intros; simplify_eq; lia.
Qed.

Definition fb_net : list lcomputer := feedback_network example3 [9;8;7;6;5].

Definition fb_final : list lcomputer :=
  Eval vm_compute in
    match round_robin feedback_route 100 1000 fb_net with Some cs => cs | None => [] end.

(** The witness: the instruction-by-instruction interleaving (fuel 1 per
    turn) ends where the coarse schedule does. *)
Lemma schedule_independence_witness :
  round_robin feedback_route 100 1000 fb_net = Some fb_final /\
  round_robin feedback_route 1000 1 fb_net = Some fb_final.
Proof.
  assert (E1 : round_robin feedback_route 100 1000 fb_net = Some fb_final)
    by (vm_compute; reflexivity).
  split; [exact E1|].
  destruct (round_robin feedback_route 1000 1 fb_net) as [cs|] eqn:E2;
    [| vm_compute in E2; discriminate E2].
  destruct (round_robin_sound feedback_route 1000 1 fb_net cs ltac:(lia) E2) as [Hr Hnf].
  f_equal. exact (schedule_independence feedback_route 100 1000 fb_net fb_final cs
    feedback_single_producer ltac:(lia) E1 Hr Hnf).
Defined.

(** ** The largest thrust over all phase orders *)

Lemma elem_of_flat_map {A B} (f : A -> list B) l y : y ∈ flat_map f l <-> exists x, x ∈ l /\ y ∈ f x.
Proof.
  induction l as [|x l IH]; simpl; [split; [by intros ?%not_elem_of_nil|intros (? & ?%not_elem_of_nil & _); done]|].
  rewrite elem_of_app, IH. setoid_rewrite elem_of_cons. naive_solver.
Qed.

Lemma picks_perm l x r : (x, r) ∈ picks l -> x :: r ≡ₚ l.
Proof.
  revert x r. induction l as [|y l IH]; intros x r; simpl; [by intros ?%not_elem_of_nil|].
  rewrite elem_of_cons, list_elem_of_fmap. intros [[= -> ->]|([z r'] & [= -> ->] & Hz)]; [done|].
  rewrite perm_swap. constructor. by apply IH.
Qed.

Lemma picks_complete l x : x ∈ l -> exists r, (x, r) ∈ picks l.
Proof.
  induction l as [|y l IH]; simpl; [by intros ?%not_elem_of_nil|].
  intros [->|Hx]%elem_of_cons; [eexists; by left|].
  destruct (IH Hx) as [r Hr]. exists (y :: r). right. apply list_elem_of_fmap. by exists (x, r).
Qed.

(** [itertools.permutations] of a list lists exactly its reorderings. *)
Lemma permutations_n_spec n l p : length l = n -> p ∈ permutations_n n l <-> p ≡ₚ l.
Proof.
  revert l p. induction n as [|n IH]; intros l p Hl; simpl.
  - destruct l; [|done]. rewrite list_elem_of_singleton. split; [by intros ->|intros Hp; by apply Permutation_nil_r in Hp].
  - rewrite elem_of_flat_map. split.
    + intros ([x r] & Hxr & Hp). apply list_elem_of_fmap in Hp as (p' & -> & Hp').
      pose proof (picks_perm _ _ _ Hxr) as Hperm. apply Permutation_length in Hperm as Hlen.
      rewrite <- Hperm. constructor. apply IH; [simpl in Hlen; lia|done].
    + intros Hp. destruct p as [|x p']; [apply Permutation_length in Hp; simpl in Hp; lia|].
      destruct (picks_complete l x) as [r Hr]; [rewrite <- Hp; left|].
      exists (x, r). split; [done|]. apply list_elem_of_fmap. exists p'. split; [done|].
      pose proof (picks_perm _ _ _ Hr) as Hperm. apply Permutation_length in Hperm as Hlen.
      apply IH; [simpl in Hlen; lia|]. apply (Permutation_cons_inv (a:=x)). by rewrite Hperm.
Qed.

Lemma py_permutations_spec l p : p ∈ py_permutations l <-> p ≡ₚ l.
Proof. by apply permutations_n_spec. Qed.

Lemma max_thrust_none (thrust : list Z -> option Z) (perms : list (list Z)) : fold_left (fun acc values =>
    match acc, thrust values with
    | Some m, Some o => Some (if o >? m then o else m)
    | _, _ => None
    end) perms None = None.
Proof. induction perms; simpl; auto. Qed.

Lemma max_thrust_fold (thrust : list Z -> option Z) (perms : list (list Z)) m0 m :
  fold_left (fun acc values =>
    match acc, thrust values with
    | Some m, Some o => Some (if o >? m then o else m)
    | _, _ => None
    end) perms (Some m0) = Some m ->
  m0 <= m /\ (forall p, p ∈ perms -> exists o, thrust p = Some o /\ o <= m) /\
  (m = m0 \/ exists p, p ∈ perms /\ thrust p = Some m).
Proof.
  revert m0. induction perms as [|p perms IH]; intros m0; simpl.
  - intros [= ->]. split_and!; [lia|by intros ? ?%not_elem_of_nil|by left].
  - destruct (thrust p) as [o|] eqn:Ho; [|by rewrite max_thrust_none].
    intros (Hle & Hall & Hm)%IH. setoid_rewrite elem_of_cons.
    destruct (Z.gtb_spec o m0); split_and!; try lia.
    + intros q [->|Hq]; [exists o; split; [done|lia]|by apply Hall].
    + destruct Hm as [->|(q & Hq & Hqm)]; right; [by exists p; auto|by exists q; auto].
    + intros q [->|Hq]; [exists o; split; [done|lia]|by apply Hall].
    + destruct Hm as [->|(q & Hq & Hqm)]; [by left|right; by exists q; auto].
Qed.

(** [max_output] after the loop is the largest thrust of the phase
    orders, or 0 when none is positive. *)
Definition largest_thrust (thrust : list Z -> option Z) (phases : list Z) (m : Z) : Prop :=
  0 <= m /\ (forall p, p ≡ₚ phases -> exists o, thrust p = Some o /\ o <= m) /\
  (m = 0 \/ exists p, p ≡ₚ phases /\ thrust p = Some m).

Lemma max_thrust_largest thrust phases m :
  max_thrust thrust (py_permutations phases) = Some m -> largest_thrust thrust phases m.
Proof.
  intros (Hle & Hall & Hm)%max_thrust_fold. split_and!; [done| |].
  - intros p Hp. apply Hall, py_permutations_spec, Hp.
  - destruct Hm as [->|(p & Hp & Ho)]; [by left|right]. exists p. by rewrite <- py_permutations_spec.
Qed.

(** C5: both parts answer the largest thrust.  Whenever [main]'s loop
    over [itertools.permutations] ends with [max_output], it is the
    largest thrust over every order of the phase settings (the chain of
    part 1, the feedback loop of part 2), or 0 when no order gives a
    positive thrust. *)
Theorem parts_largest_thrust fuel rounds program m1 m2 :
  (part1 fuel program = Some m1 ->
   largest_thrust (fun phases => amplifier_chain fuel program phases 0) [0;1;2;3;4] m1) /\
  (part2 rounds fuel program = Some m2 ->
   largest_thrust (feedback_thrust rounds fuel program) [5;6;7;8;9] m2).
Proof. split; apply max_thrust_largest. Qed.

Lemma parts_largest_thrust_witness :
  largest_thrust (fun phases => amplifier_chain 100 example1 phases 0) [0;1;2;3;4] 43210 /\
  largest_thrust (feedback_thrust 100 1000 example3) [5;6;7;8;9] 139629729.
Proof.
  destruct (parts_largest_thrust 100 100 example1 43210 139629729) as [H1 _].
  destruct (parts_largest_thrust 1000 100 example3 43210 139629729) as [_ H2].
  split; [apply H1|apply H2]; vm_compute; reflexivity.
Defined.
