(* ===== verification/Robot.v ===== *)
(** * Robot: the hull-painting robot of [src/day-11.py]

    [main] installs [handle_computer_output] on a day 9 [IntcodeComputer]
    (the class of day 11 is the same code, [Computer]).  The handler keeps
    its state in the locals of [main] it closes over: the sets
    [white_panels] and [white_panels_all], [robot_location],
    [robot_direction] and the flag [is_output_for_color].  Outputs
    alternate: a color (0 black, 1 white) paints the current panel; a turn
    (0 left, 1 right) turns, moves one panel, and answers on the same
    computer's queue with the color of the new panel (the camera).

    [robot] is that state, [handle_computer_output] the handler as a
    function returning the values it sends back, and [paint] the run of
    [main] with [Machine.run_with].  The theorems: the direction stays one
    of the four constants and every turn moves the robot to a neighbouring
    panel; [white_panels] stays inside [white_panels_all]; the protocol
    answers exactly once per color/turn pair; and part 1 prints the number
    of panels the program's outputs painted white ([part1_white_painted],
    over the outputs recorded by [Machine.recording]), not the number of
    panels painted. *)

From S2P Require Import Prelude Memory Channel Machine Computer.
From stdpp Require Import gmap sets.
Local Open Scope Z_scope.

Definition DIRECTION_UP : Z := 0.
Definition DIRECTION_RIGHT : Z := 1.
Definition DIRECTION_DOWN : Z := 2.
Definition DIRECTION_LEFT : Z := 3.

Module Day11.

(** [Point = namedtuple('Point', 'x y')] *)
Record Point := mkPoint { px : Z; py : Z }.

#[export] Instance Point_eq_dec : EqDecision Point.
Proof. solve_decision. Defined.

#[export] Instance Point_countable : Countable Point.
Proof.
  refine (inj_countable' (fun p => (px p, py p)) (fun '(a, b) => mkPoint a b) _).
  by intros [].
Defined.

Record robot := mkRobot {
  white_panels : gset Point;
  white_panels_all : gset Point;
  robot_location : Point;
  robot_direction : Z;
  is_output_for_color : bool
}.

(** The move after a turn (lines 207-214); any other direction stays. *)
Definition move (d : Z) (p : Point) : Point :=
  if d =? DIRECTION_UP then mkPoint (px p) (py p + 1)
  else if d =? DIRECTION_RIGHT then mkPoint (px p + 1) (py p)
  else if d =? DIRECTION_DOWN then mkPoint (px p) (py p - 1)
  else if d =? DIRECTION_LEFT then mkPoint (px p - 1) (py p)
  else p.

(** [handle_computer_output(output)]: the new state and the values sent
    back with [computer.send_input]. *)
Definition handle_computer_output (output : Z) (r : robot) : robot * list Z :=
  if is_output_for_color r then
    let '(w, wa) :=
      if output =? 0 then
        (if decide (robot_location r ∈ white_panels r)
         then (white_panels r ∖ {[robot_location r]}, white_panels_all r)
         else (white_panels r, white_panels_all r))
      else if output =? 1 then
        ({[robot_location r]} ∪ white_panels r, {[robot_location r]} ∪ white_panels_all r)
      else (white_panels r, white_panels_all r) in
    (mkRobot w wa (robot_location r) (robot_direction r) false, [])
  else
    let d :=
      if output =? 0 then (robot_direction r - 1) mod 4
      else if output =? 1 then (robot_direction r + 1) mod 4
      else robot_direction r in
    let loc := move d (robot_location r) in
    (mkRobot (white_panels r) (white_panels_all r) loc d true,
     [if decide (loc ∈ white_panels r) then 1 else 0]).

Definition initial_robot (white : gset Point) (white_all : gset Point) : robot :=
  mkRobot white white_all (mkPoint 0 0) DIRECTION_UP true.

(** A run of [main]: the computer, the handler installed, [start_program()],
    [send_input(first)], [wait_for_exit()]. *)
Definition paint (fuel : nat) (program : list Z) (r0 : robot) (first : Z) :
    outcome computer robot :=
  run_with handle_computer_output fuel r0 (set_inputs (new_computer program) [first]).

(** Part 1: from an all-black hull, [len(white_panels_all)]. *)
Definition part1 (fuel : nat) (program : list Z) : option nat :=
  match paint fuel program (initial_robot ∅ ∅) 0 with
  | Finished r _ | Crashed _ r _ => Some (size (white_panels_all r))
  | _ => None
  end.

(** Part 2: the starting panel white; the white panels are printed.
    [white_panels_all] is not reset in the source; it is not read. *)
Definition part2 (fuel : nat) (program : list Z) (white_all : gset Point) : option (gset Point) :=
  match paint fuel program (initial_robot {[mkPoint 0 0]} white_all) 1 with
  | Finished r _ | Crashed _ r _ => Some (white_panels r)
  | _ => None
  end.

End Day11.
Import Day11.

(** ** The handler's invariant *)

(** The direction is one of the four constants; the white panels were
    all painted white at some point. *)
Definition robot_inv (r : robot) : Prop :=
  0 <= robot_direction r < 4 /\ white_panels r ⊆ white_panels_all r.

Lemma handle_inv output r : robot_inv r -> robot_inv (handle_computer_output output r).1.
Proof.
  unfold robot_inv, handle_computer_output. intros [Hd Hw].
  destruct (is_output_for_color r); simpl.
  - destruct (output =? 0); [case_decide|destruct (output =? 1)]; simpl; split; try done; set_solver.
  - split; [|done]. destruct (output =? 0); [|destruct (output =? 1)]; simpl;
      try (apply Z.mod_pos_bound; lia); lia.
Qed.

(** C32: the robot's invariant.  Started with a direction among the four
    constants and no white panel outside [white_panels_all] (as part 1
    starts), the robot keeps both through any run of [main]: its
    direction stays UP, RIGHT, DOWN or LEFT, and every panel it
    believes white was painted white at some point. *)
Theorem paint_keeps_inv fuel program r0 first :
  robot_inv r0 -> robot_inv (outcome_state (paint fuel program r0 first)).1.
Proof. intros H0. unfold paint. apply run_with_handler_inv; [apply handle_inv | done]. Qed.

Lemma paint_keeps_inv_witness :
  robot_inv (initial_robot ∅ ∅) /\
  robot_inv (outcome_state (paint 10 [104;1;104;0;99] (initial_robot ∅ ∅) 0)).1.
Proof.
  assert (H : robot_inv (initial_robot ∅ ∅)) by (split; [cbn; unfold DIRECTION_UP; lia | cbn; set_solver]).
  split; [exact H | exact (paint_keeps_inv 10 [104;1;104;0;99] _ 0 H)].
Defined.

(** ** Turns move to a neighbouring panel *)

Lemma move_adjacent d p :
  0 <= d < 4 -> Z.abs (px (move d p) - px p) + Z.abs (py (move d p) - py p) = 1.
Proof.
  intros Hd. unfold move, DIRECTION_UP, DIRECTION_RIGHT, DIRECTION_DOWN, DIRECTION_LEFT.
  destruct (Z.eqb_spec d 0); [simpl; lia|]. destruct (Z.eqb_spec d 1); [simpl; lia|].
  destruct (Z.eqb_spec d 2); [simpl; lia|]. destruct (Z.eqb_spec d 3); [simpl; lia | lia].
Qed.

(** Every turn moves the robot one panel.  When the robot holds its
    invariant and the output is a turn, the handler turns left on 0 and
    right on 1 (modulo 4), moves to one of the four neighbouring panels,
    and answers with 1 exactly when the new panel is white. *)
Theorem turn_moves_one output r :
  robot_inv r -> is_output_for_color r = false ->
  let '(r', sent) := handle_computer_output output r in
  robot_direction r' = (if output =? 0 then (robot_direction r - 1) mod 4
                        else if output =? 1 then (robot_direction r + 1) mod 4
                        else robot_direction r) /\
  Z.abs (px (robot_location r') - px (robot_location r)) +
    Z.abs (py (robot_location r') - py (robot_location r)) = 1 /\
  sent = [if decide (robot_location r' ∈ white_panels r) then 1 else 0] /\
  is_output_for_color r' = true.
Proof.
  intros Hinv Hc. pose proof (handle_inv output r Hinv) as [Hd _].
  unfold handle_computer_output in *. rewrite Hc in *. simpl in *.
  split_and!; [done | by apply move_adjacent | done | done].
Qed.

Definition turning_robot : robot := mkRobot ∅ ∅ (mkPoint 0 0) DIRECTION_UP false.

(** The witness: a right turn from the origin facing up. *)
Lemma turn_moves_one_witness :
  robot_inv turning_robot /\ is_output_for_color turning_robot = false /\
  Z.abs (px (robot_location (handle_computer_output 1 turning_robot).1) - 0) +
    Z.abs (py (robot_location (handle_computer_output 1 turning_robot).1) - 0) = 1.
Proof.
  assert (H : robot_inv turning_robot) by (split; [cbn; unfold DIRECTION_UP; lia | cbn; set_solver]).
  split_and!; [exact H | reflexivity |].
  pose proof (turn_moves_one 1 turning_robot H eq_refl) as Hm.
  destruct (handle_computer_output 1 turning_robot) as [r' sent]. exact (proj1 (proj2 Hm)).
Defined.

(** ** The output protocol *)

Lemma handle_flag o r :
  is_output_for_color (handle_computer_output o r).1 = negb (is_output_for_color r) /\
  length (handle_computer_output o r).2 = (if is_output_for_color r then 0 else 1)%nat.
Proof.
  unfold handle_computer_output. destruct (is_output_for_color r); [|done].
  by repeat case_match.
Qed.

Lemma handler_run_count os r :
  length (handler_run handle_computer_output os r).2 =
    (if is_output_for_color r then Nat.div2 (length os) else Nat.div2 (S (length os)))
  /\ is_output_for_color (handler_run handle_computer_output os r).1 =
    (if Nat.even (length os) then is_output_for_color r else negb (is_output_for_color r)).
Proof.
  revert r. induction os as [|o os IH]; intros r; cbn [handler_run length fst snd];
    [by destruct (is_output_for_color r); split|].
  destruct (handle_flag o r) as [Hf Hl].
  destruct (handle_computer_output o r) as [r1 s1] eqn:E. cbn [fst snd] in *.
  destruct (IH r1) as [Hl' Hf']. destruct (handler_run handle_computer_output os r1) as [r2 s2]. cbn [fst snd] in *.
  rewrite length_app, Hl, Hl', Hf', Hf, Nat.even_succ, <- Nat.negb_even.
  destruct (is_output_for_color r), (Nat.even (length os)); cbn [negb]; split; try done.
  all: destruct (length os) as [|n]; [done | cbn [Nat.div2]; lia].
Qed.

(** The color/turn protocol.  Starting on a color output, as [main]
    does, the handler answers exactly once for every color/turn pair of
    outputs: after [n] outputs it has sent [n / 2] values and expects a
    color again exactly when [n] is even -- the spec's state machine keyed
    on the output counter modulo the tuple width 2. *)
Theorem protocol_pairs os r :
  is_output_for_color r = true ->
  length (handler_run handle_computer_output os r).2 = Nat.div2 (length os) /\
  is_output_for_color (handler_run handle_computer_output os r).1 = Nat.even (length os).
Proof.
  intros Hc. destruct (handler_run_count os r) as [Hl Hf]. rewrite Hc in Hl, Hf.
  split; [done|]. by destruct (Nat.even _).
Qed.

Lemma protocol_pairs_witness :
  is_output_for_color (initial_robot ∅ ∅) = true /\
  length (handler_run handle_computer_output [1;0;0;0;1] (initial_robot ∅ ∅)).2 = 2%nat.
Proof.
  split; [reflexivity|]. exact (proj1 (protocol_pairs [1;0;0;0;1] (initial_robot ∅ ∅) eq_refl)).
Defined.

(** ** What part 1 counts *)

(** The panels a sequence of outputs paints (any color). *)
Fixpoint painted_panels (os : list Z) (r : robot) : gset Point :=
  match os with
  | [] => ∅
  | o :: os' =>
      (if is_output_for_color r then {[robot_location r]} else ∅) ∪
      painted_panels os' (handle_computer_output o r).1
  end.

(** The panels on which a color output is 1 (white). *)
Fixpoint white_painted (os : list Z) (r : robot) : gset Point :=
  match os with
  | [] => ∅
  | o :: os' =>
      (if is_output_for_color r && (o =? 1) then {[robot_location r]} else ∅) ∪
      white_painted os' (handle_computer_output o r).1
  end.

(** The outputs of part 1's run, recorded beside the robot. *)
Definition part1_outputs (fuel : nat) (program : list Z) : option (list Z) :=
  match run_with (recording handle_computer_output) fuel (initial_robot ∅ ∅, [])
          (set_inputs (new_computer program) [0]) with
  | Finished x _ | Crashed _ x _ => Some x.2
  | _ => None
  end.

Lemma handle_white_all o r :
  white_panels_all (handle_computer_output o r).1 =
    (if is_output_for_color r && (o =? 1) then {[robot_location r]} else ∅) ∪ white_panels_all r.
Proof.
  unfold handle_computer_output. destruct (is_output_for_color r); simpl; [|set_solver].
  destruct (Z.eqb_spec o 0) as [->|]; [case_decide; simpl; set_solver|].
  destruct (Z.eqb_spec o 1); simpl; set_solver.
Qed.

Lemma handler_run_white_all os r :
  white_panels_all (handler_run handle_computer_output os r).1 = white_painted os r ∪ white_panels_all r.
Proof.
  revert r. induction os as [|o os IH]; intros r; simpl; [set_solver|].
  pose proof (handle_white_all o r) as Hw.
  destruct (handle_computer_output o r) as [r1 s1]. simpl in *.
  specialize (IH r1). destruct (handler_run handle_computer_output os r1) as [r2 s2]. simpl in *.
  rewrite IH, Hw. set_solver.
Qed.

Lemma white_painted_painted os r : white_painted os r ⊆ painted_panels os r.
Proof.
  revert r. induction os as [|o os IH]; intros r; simpl; [done|].
  destruct (is_output_for_color r); simpl; specialize (IH (handle_computer_output o r).1);
    [destruct (o =? 1)|]; set_solver.
Qed.

(** C33: part 1 counts the panels painted white.  For every program, when
    part 1 prints [len(white_panels_all)], that number is the number of
    distinct panels on which the program's color output was 1 (white)
    during the run, and those panels are among the panels the robot
    painted: a panel only ever painted black is not counted. *)
Theorem part1_white_painted fuel program n :
  part1 fuel program = Some n ->
  exists os, part1_outputs fuel program = Some os /\
    n = size (white_painted os (initial_robot ∅ ∅)) /\
    white_painted os (initial_robot ∅ ∅) ⊆ painted_panels os (initial_robot ∅ ∅).
Proof.
  unfold part1, part1_outputs, paint.
  rewrite <- (run_with_recording handle_computer_output fuel _ []).
  pose proof (run_with_recording_outputs handle_computer_output fuel (initial_robot ∅ ∅) []
                (set_inputs (new_computer program) [0])) as Hx. simpl in Hx.
  destruct (run_with _ _ _ _) as [x c|x c|e x c|x c]; simpl in *; intros; simplify_eq.
  all: exists x.2; split_and!; [done | | apply white_painted_painted].
  all: rewrite Hx, handler_run_white_all; f_equal; set_solver.
Qed.

(** The outputs of the puzzle's example, emitted by immediate OUTPUTs. *)
Definition example_outputs : list Z := [1;0; 0;0; 1;0; 1;0; 0;1; 1;0; 1;0].
Definition example_program : list Z := flat_map (fun v => [104; v]) example_outputs ++ [99].

Lemma part1_white_painted_witness :
  part1 100 example_program = Some 5%nat /\
  exists os, part1_outputs 100 example_program = Some os /\
    5%nat = size (white_painted os (initial_robot ∅ ∅)).
Proof.
  assert (H : part1 100 example_program = Some 5%nat) by (vm_compute; reflexivity).
  split; [exact H|]. destruct (part1_white_painted 100 example_program 5 H) as (os & Ho & Hn & _).
  exists os. split; [exact Ho | exact Hn].
Defined.

(** On the puzzle's example the robot paints six distinct panels, but the
    origin is painted white and then black, and [len(white_panels_all)]
    counts the five panels painted white at some point; the four panels
    left white are those of the puzzle's picture. *)
Example part1_counts_white_only :
  size (painted_panels example_outputs (initial_robot ∅ ∅)) = 6%nat /\
  part1 100 example_program = Some 5%nat /\
  (exists c r, paint 100 example_program (initial_robot ∅ ∅) 0 = Finished r c /\
     elements (white_panels r) = [mkPoint (-1) (-1); mkPoint 0 (-1); mkPoint 1 0; mkPoint 1 1]).
Proof. split_and!; [vm_compute; reflexivity | vm_compute; reflexivity | do 2 eexists; vm_conj]. Qed.
