(* ===== verification/Arcade.v ===== *)
(** * Arcade: the arcade cabinet of [src/day-13.py]

    The day 13 [IntcodeComputer] is the day 9 code ([Computer]) plus the
    flag [__is_waiting_for_input], set inside the [while
    self.__inputs.empty()] loop of [__get_next_input] and cleared once a
    value is taken; [waiting_for_input()] reads it without the lock.
    [computer13] pairs the day 9 state with the flag and [step13] is one
    iteration of the loop, entering the wait included.

    [main] installs [handle_computer_output], which decodes the outputs
    as triples [x, y, tile_id] (with [(-1, 0, score)] for the score) by
    the counter [output_num]; [game] is the state of that closure.  Part 1
    counts block tiles.  Part 2 polls: [while not computer.has_exited():
    if computer.waiting_for_input(): send the joystick]; [arcade_step]
    lets either thread move.

    The theorems: the byte-wise handler implements the triple semantics
    ([handle_triples]); the flag can still read true after the main
    thread has sent a value, so two joystick values can be queued for one
    INPUT ([double_joystick]); a schedule that lets the computer run
    until it waits again after every send never queues more than one
    value ([play_single_pending]). *)

From S2P Require Import Prelude Decoder Memory Channel Machine Computer.
Local Open Scope Z_scope.

Definition TILE_EMPTY : Z := 0.
Definition TILE_WALL : Z := 1.
Definition TILE_BLOCK : Z := 2.
Definition TILE_PADDLE : Z := 3.
Definition TILE_BALL : Z := 4.

Module Day13.

(** [Point = namedtuple('Point', 'x y')] *)
Record Point := mkPoint { px : Z; py : Z }.

#[export] Instance Point_eq_dec : EqDecision Point.
Proof. solve_decision. Defined.

#[export] Instance Point_countable : Countable Point.
Proof.
  refine (inj_countable' (fun p => (px p, py p)) (fun '(a, b) => mkPoint a b) _).
  by intros [].
Defined.

(** The locals of [main] the handler closes over. *)
Record game := mkGame {
  tiles : gmap Point Z;
  output_num : Z;
  x : Z;
  y : Z;
  tile_id : Z;
  score : Z;
  ball_x : Z;
  paddle_x : Z
}.

Definition initial_game : game := mkGame ∅ 0 0 0 0 0 0 0.

(** The third output of a triple (lines 207-216). *)
Definition draw (output : Z) (g : game) : game :=
  if (x g =? -1) && (y g =? 0) then
    mkGame (tiles g) (output_num g) (x g) (y g) (tile_id g) output (ball_x g) (paddle_x g)
  else
    let bx := if output =? TILE_BALL then x g else ball_x g in
    let pdx := if output =? TILE_BALL then paddle_x g
               else if output =? TILE_PADDLE then x g else paddle_x g in
    mkGame (<[mkPoint (x g) (y g) := output]> (tiles g)) (output_num g) (x g) (y g)
      output (score g) bx pdx.

(** [handle_computer_output(output)]; it sends nothing back. *)
Definition handle_computer_output (output : Z) (g : game) : game * list Z :=
  let g' :=
    if output_num g =? 0 then
      mkGame (tiles g) (output_num g) output (y g) (tile_id g) (score g) (ball_x g) (paddle_x g)
    else if output_num g =? 1 then
      mkGame (tiles g) (output_num g) (x g) output (tile_id g) (score g) (ball_x g) (paddle_x g)
    else draw output g in
  (mkGame (tiles g') ((output_num g + 1) mod 3) (x g') (y g') (tile_id g') (score g')
     (ball_x g') (paddle_x g'), []).

(** [sum(1 if tiles[p] == TILE_BLOCK else 0 for p in tiles.keys())] *)
Definition block_count (g : game) : nat :=
  map_fold (fun _ t n => if t =? TILE_BLOCK then S n else n) 0%nat (tiles g).

(** Part 1: run with the handler and join. *)
Definition part1 (fuel : nat) (program : list Z) : option nat :=
  match run_with handle_computer_output fuel initial_game (new_computer program) with
  | Finished g _ | Crashed _ g _ => Some (block_count g)
  | _ => None
  end.

(** ** The computer with its waiting flag *)

Record computer13 := mkComputer13 {
  core : computer;
  is_waiting_for_input : bool
}.

(** [opcode == INPUT] for the instruction at the program counter. *)
Definition at_input (c : computer) : bool :=
  match decode (fetch_word (memory c)) opcode_table_day09 (pc c) with
  | Ok (INPUT, _) => true
  | _ => false
  end.

(** One iteration of the loop.  On an empty queue [__get_next_input]
    first sets the flag (entering [wait()]), which is a move of its own;
    an INPUT that takes a value clears it. *)
Definition step13 (c : computer13) : step_result computer13 :=
  match step (core c) with
  | Continue o c' =>
      Continue o (mkComputer13 c' (if at_input (core c) then false else is_waiting_for_input c))
  | Wait => if is_waiting_for_input c then Wait else Continue None (mkComputer13 (core c) true)
  | Halted => Halted
  | Exited => Exited
  | Crash e => Crash e
  end.

#[export] Instance computer13_machine : IntcodeMachine computer13 := {|
  machine_step := step13;
  machine_inputs c := inputs (core c);
  machine_set_inputs c q := mkComputer13 (set_inputs (core c) q) (is_waiting_for_input c)
|}.

Definition new_computer13 (program : list Z) : computer13 := mkComputer13 (new_computer program) false.

(** [has_exited()]: the thread has left its loop. *)
Definition has_exited (c : computer13) : bool :=
  match step13 c with Halted | Exited | Crash _ => true | _ => false end.

(** The joystick the main loop sends (lines 236-241). *)
Definition joystick (g : game) : Z :=
  if ball_x g <? paddle_x g then -1 else if ball_x g >? paddle_x g then 1 else 0.

(** Part 2: either thread moves.  The computer thread runs one iteration
    (the handler drawing on an OUTPUT); the main thread, while the
    computer has not exited, sends the joystick when it reads the flag
    set ([sleep(0.001)] only spaces the polls). *)
Inductive arcade_step : computer13 * game -> computer13 * game -> Prop :=
| arcade_computer c g o c' :
    step13 c = Continue o c' ->
    arcade_step (c, g) (c', match o with Some v => (handle_computer_output v g).1 | None => g end)
| arcade_main c g :
    has_exited c = false -> is_waiting_for_input c = true ->
    arcade_step (c, g) (add_inputs c [joystick g], g).

(** The polls of a schedule in which the main thread sends only when the
    computer thread cannot move (it sleeps long enough). *)
Inductive polite_step : computer13 * game -> computer13 * game -> Prop :=
| polite_computer c g o c' :
    step13 c = Continue o c' ->
    polite_step (c, g) (c', match o with Some v => (handle_computer_output v g).1 | None => g end)
| polite_main c g :
    step13 c = Wait -> polite_step (c, g) (add_inputs c [joystick g], g).

(** That schedule as a program: the computer moves whenever it can. *)
Fixpoint play (fuel : nat) (c : computer13) (g : game) : option (computer13 * game) :=
  match fuel with
  | O => None
  | S f =>
      match step13 c with
      | Continue o c' =>
          play f c' (match o with Some v => (handle_computer_output v g).1 | None => g end)
      | Wait => play f (add_inputs c [joystick g]) g
      | _ => Some (c, g)
      end
  end.

(** Part 2: [memory[0] = 2], the game state left by part 1, and the
    final score. *)
Definition part2 (fuel : nat) (program : list Z) (g1 : game) : option Z :=
  match play fuel (new_computer13 (<[0%nat := 2]> program)) g1 with
  | Some (_, g) => Some (score g)
  | None => None
  end.

End Day13.
Import Day13.

(** ** The triple protocol *)

(** What a triple means to the game: the score, or a tile drawn at
    [(x, y)] with the ball's and the paddle's columns. *)
Record screen := mkScreen { s_tiles : gmap Point Z; s_score : Z; s_ball_x : Z; s_paddle_x : Z }.

Definition screen_of (g : game) : screen := mkScreen (tiles g) (score g) (ball_x g) (paddle_x g).

Definition apply_triple (s : screen) (t : Z * Z * Z) : screen :=
  let '(a, b, v) := t in
  if (a =? -1) && (b =? 0) then mkScreen (s_tiles s) v (s_ball_x s) (s_paddle_x s)
  else mkScreen (<[mkPoint a b := v]> (s_tiles s)) (s_score s)
         (if v =? TILE_BALL then a else s_ball_x s)
         (if v =? TILE_BALL then s_paddle_x s else if v =? TILE_PADDLE then a else s_paddle_x s).

Definition flatten_triples (ts : list (Z * Z * Z)) : list Z :=
  flat_map (fun '(a, b, v) => [a; b; v]) ts.

Lemma handle_triple g a b v :
  output_num g = 0 ->
  output_num (handler_run handle_computer_output [a; b; v] g).1 = 0 /\
  screen_of (handler_run handle_computer_output [a; b; v] g).1 = apply_triple (screen_of g) (a, b, v) /\
  (handler_run handle_computer_output [a; b; v] g).2 = [].
Proof.
  intros H0. destruct g as [ts n gx gy t sc bx pdx]. simpl in H0. subst n. cbn.
  change ((0 + 1) mod 3) with 1. change ((1 + 1) mod 3) with 2. change ((2 + 1) mod 3) with 0.
  unfold draw, screen_of, apply_triple. cbn.
  by destruct ((a =? -1) && (b =? 0)), (v =? TILE_BALL), (v =? TILE_PADDLE).
Qed.

(** C30: the handler decodes triples.  From [output_num = 0] (as [main]
    starts), feeding the handler the outputs of a sequence of triples
    [x, y, tile_id] leaves the counter at 0, sends nothing, and leaves the
    tiles, the score and the ball's and paddle's columns exactly as
    applying the triples one by one: [(-1, 0, s)] sets the score, any
    other triple draws a tile. *)
Theorem handle_triples ts g :
  output_num g = 0 ->
  output_num (handler_run handle_computer_output (flatten_triples ts) g).1 = 0 /\
  screen_of (handler_run handle_computer_output (flatten_triples ts) g).1 =
    fold_left apply_triple ts (screen_of g) /\
  (handler_run handle_computer_output (flatten_triples ts) g).2 = [].
Proof.
  revert g. induction ts as [|[[a b] v] ts IH]; intros g H0; [done|].
  destruct (handle_triple g a b v H0) as (H1 & H2 & H3).
  change (flatten_triples ((a, b, v) :: ts)) with ([a; b; v] ++ flatten_triples ts).
  rewrite handler_run_app. cbn [fst snd fold_left]. destruct (IH _ H1) as (IH1 & IH2 & IH3).
  split_and!; [done | by rewrite IH2, H2 | by rewrite IH3, H3].
Qed.

Lemma handle_triples_witness :
  output_num initial_game = 0 /\
  screen_of (handler_run handle_computer_output (flatten_triples [(1, 2, 2); (-1, 0, 42)])
               initial_game).1 =
    fold_left apply_triple [(1, 2, 2); (-1, 0, 42)] (screen_of initial_game).
Proof.
  split; [reflexivity|]. exact (proj1 (proj2 (handle_triples _ initial_game eq_refl))).
Defined.

(** ** The waiting flag and the polling loop *)

Lemma step13_wait c : step13 c = Wait -> is_waiting_for_input c = true /\ inputs (core c) = [].
Proof.
  unfold step13. destruct (step (core c)) eqn:E; try done.
  destruct (is_waiting_for_input c); [|done]. intros _. split; [done|].
  by apply computer_step_wait_inputs.
Qed.

Lemma step13_inputs c o c' :
  step13 c = Continue o c' -> (length (inputs (core c')) <= length (inputs (core c)))%nat.
Proof.
  unfold step13. destruct (step (core c)) as [o' c''| | | |] eqn:E; try done.
  - intros [= <- <-]. simpl. destruct (step_inputs _ _ _ E) as (op & ps & _ & Hin).
    destruct (decide (op = INPUT)) as [_|_]; [destruct Hin as [v ->]; simpl; lia | by rewrite Hin].
  - destruct (is_waiting_for_input c); intros; simplify_eq/=; lia.
Qed.

(** The polite schedule is one of the interleavings of the two threads. *)
Lemma polite_arcade s s' : polite_step s s' -> arcade_step s s'.
Proof.
  destruct 1 as [c g o c' Hs|c g Hs]; [by constructor|].
  destruct (step13_wait c Hs) as [Hw _]. constructor; [|done].
  unfold has_exited. by rewrite Hs.
Qed.

(** C31: the polite schedule queues one joystick value at most.  When
    the main thread sends only while the computer thread is blocked in
    INPUT (as the [sleep] between polls is meant to ensure), the input
    queue never holds more than one value: each INPUT reads the joystick
    computed for it. *)
Theorem polite_single_pending s s' :
  (length (inputs (core s.1)) <= 1)%nat -> rtc polite_step s s' ->
  (length (inputs (core s'.1)) <= 1)%nat /\ rtc arcade_step s s'.
Proof.
  intros H0 Hr. induction Hr as [s|s1 s2 s3 Hs _ IH]; [split; [done | constructor]|].
  destruct IH as [IH1 IH2].
  - destruct Hs as [c g o c' Hst|c g Hst]; simpl in *.
    + pose proof (step13_inputs _ _ _ Hst). lia.
    + destruct (step13_wait c Hst) as [_ Hq]. simpl. unfold add_inputs. simpl.
      by rewrite Hq.
  - split; [done|]. eapply rtc_l; [by apply polite_arcade | done].
Qed.

(** [play] follows the polite schedule. *)
Lemma play_sound f c g s : play f c g = Some s -> rtc polite_step (c, g) s.
Proof.
  revert c g. induction f as [|f IH]; intros c g; simpl; [done|].
  destruct (step13 c) as [o c'| | | |] eqn:E; try (intros [= <-]; constructor).
  - intros Hp. eapply rtc_l; [by constructor | by apply IH].
  - intros Hp. eapply rtc_l; [by apply polite_main | by apply IH].
Qed.

(** A small game: read the joystick into cell 100, draw the paddle at
    [(joystick, 5)], report the joystick as the score, halt. *)
Definition mini_game : list Z := [3;100; 1004;100; 104;5; 104;3; 104;-1; 104;0; 1004;100; 99].

Definition mini_final : computer13 * game :=
  Eval vm_compute in default (new_computer13 [], initial_game) (play 50 (new_computer13 mini_game) initial_game).

(** The witness: the polite run of [mini_game] from an empty queue. *)
Lemma polite_single_pending_witness :
  play 50 (new_computer13 mini_game) initial_game = Some mini_final /\
  (length (inputs (core mini_final.1)) <= 1)%nat.
Proof.
  assert (E : play 50 (new_computer13 mini_game) initial_game = Some mini_final)
    by (vm_compute; reflexivity).
  split; [exact E|].
  exact (proj1 (polite_single_pending (new_computer13 mini_game, initial_game) mini_final
                  ltac:(vm_compute; lia) (play_sound _ _ _ _ E))).
Defined.

(** A computer blocked in INPUT is at an INPUT instruction, and once
    values are queued the INPUT takes the first and keeps the rest. *)
Lemma wait_input_continues c v vs :
  step c = Wait -> at_input c = true /\
  exists c', step (set_inputs c (v :: vs)) = Continue None c' /\ inputs c' = vs.
Proof.
  unfold step, at_input. change (memory (set_inputs c (v :: vs))) with (memory c).
  change (pc (set_inputs c (v :: vs))) with (pc c).
  destruct (_ <? _); [|done]. destruct (decode _ _ _) as [[op ps]|]; [|done].
  destruct (execute op ps c) as [[| |]|] eqn:E; try done. intros _.
  destruct (execute_block_unblocks _ _ _ v vs E) as (-> & a & ->). split; [done|]. by eexists.
Qed.

Lemma step13_wait_core c : step13 c = Wait -> step (core c) = Wait.
Proof. unfold step13. by destruct (step (core c)). Qed.

(** The main thread's send on a computer blocked in INPUT. *)
Lemma add_inputs_waiting c vs :
  step13 c = Wait ->
  add_inputs c vs = mkComputer13 (set_inputs (core c) vs) true.
Proof.
  intros Hw. destruct (step13_wait c Hw) as [Hf Hq]. destruct c as [k f]. simpl in *. subst f.
  unfold add_inputs. simpl. by rewrite send_inputs_app, Hq.
Qed.

(** C34: the waiting flag is stale, and the poll can send twice.  The
    spec's [isWaitingForInput()] is true iff the instance is blocked in
    INPUT.  The flag is cleared only when the computer thread wakes up,
    so after the main thread's [send_input] it still reads true while the
    instance is no longer blocked.  For every program and game, whenever
    the computer thread is blocked in INPUT, the main thread can poll
    twice before the computer thread runs, queuing the joystick twice for
    that one INPUT; the INPUT then takes one value, clears the flag, and
    leaves the other queued for the next INPUT to read stale. *)
Theorem double_joystick c g :
  step13 c = Wait ->
  rtc arcade_step (c, g) (add_inputs (add_inputs c [joystick g]) [joystick g], g) /\
  exists c', step13 (add_inputs (add_inputs c [joystick g]) [joystick g]) = Continue None c' /\
    inputs (core c') = [joystick g] /\ is_waiting_for_input c' = false.
Proof.
  intros Hw. set (j := joystick g). pose proof (step13_wait_core c Hw) as Hc.
  destruct (wait_input_continues _ j [] Hc) as [Hat [c1 [Hs1 _]]].
  destruct (wait_input_continues _ j [j] Hc) as [_ [c2 [Hs2 Hq2]]].
  assert (E1 : add_inputs c [j] = mkComputer13 (set_inputs (core c) [j]) true)
    by apply (add_inputs_waiting _ _ Hw).
  assert (E2 : add_inputs (add_inputs c [j]) [j] = mkComputer13 (set_inputs (core c) [j; j]) true)
    by (rewrite E1; reflexivity).
  assert (Hat2 : at_input (set_inputs (core c) [j; j]) = true) by exact Hat.
  rewrite E2. split.
  - eapply rtc_l; [apply arcade_main; [unfold has_exited; by rewrite Hw | apply (step13_wait c Hw)]|].
    fold j. rewrite E1. eapply rtc_l; [apply arcade_main; [|done]|].
    + unfold has_exited, step13. simpl. by rewrite Hs1.
    + fold j. rewrite <- E1, E2. constructor.
  - unfold step13. simpl. rewrite Hs2, Hat2. by eexists.
Qed.

(** The computer of [3,0,99] after entering [wait()] on its empty queue. *)
Definition echo_waiting : computer13 :=
  Eval vm_compute in
    match step13 (new_computer13 [3;0;99]) with Continue _ c => c | _ => new_computer13 [] end.

Lemma double_joystick_witness :
  step13 echo_waiting = Wait /\
  rtc arcade_step (new_computer13 [3;0;99], initial_game) (echo_waiting, initial_game) /\
  exists c', step13 (add_inputs (add_inputs echo_waiting [0]) [0]) = Continue None c' /\
    inputs (core c') = [0].
Proof.
  assert (H : step13 echo_waiting = Wait) by (vm_compute; reflexivity).
  split; [exact H|]. split.
  - eapply rtc_l; [apply (arcade_computer _ _ None echo_waiting); vm_compute; reflexivity | constructor].
  - destruct (proj2 (double_joystick echo_waiting initial_game H)) as (c' & Hs & Hq & _).
    exists c'. split; [exact Hs | exact Hq].
Defined.

(** ** Both parts on small programs *)

(** Three tiles, the first block overwritten by an empty tile. *)
Definition blocks_program : list Z :=
  [104;0;104;0;104;2; 104;1;104;0;104;2; 104;2;104;0;104;1; 104;0;104;0;104;0; 99].

(** A one-move game whose first word is the ADD that part 2 turns into a
    MULTIPLY by writing 2 into cell 0 (the "quarters"), then [mini_game]. *)
Definition quarter_game : list Z := [1;0;0;200] ++ mini_game.

(** Both parts of [main] on small programs.  Part 1 counts the one
    block tile left after a block is overwritten by an empty tile; part 2
    moves the joystick towards the ball (right when the ball is at
    column 3 and the paddle at 1, left in the mirror case) and reports
    the score the program sends as [(-1, 0, score)]. *)
Theorem arcade_examples :
  part1 100 blocks_program = Some 1%nat /\
  part2 100 quarter_game (mkGame ∅ 0 0 0 0 0 3 1) = Some 1 /\
  part2 100 quarter_game (mkGame ∅ 0 0 0 0 0 1 3) = Some (-1).
Proof. vm_conj. Qed.
