(* ===== verification/Moons.v ===== *)
(** * Moons: the N-body simulation of [src/day-12.py]

    [Moon] is the class with its position, the position it started at and
    its velocity; [time_step] is the function of the same name: for every
    pair [first, second] of [itertools.combinations(moons, 2)] each axis
    pulls the two velocities one unit towards each other, then every moon
    moves by its velocity.  The list is updated in place in the source;
    here [gravity_pair] returns the list with the two moons replaced.

    The theorems: the three axes evolve independently ([axis_step]
    refines [time_step] on each axis); total velocity is conserved on each
    axis, so moons that start at rest keep their centre of mass fixed;
    and the number part 2 prints, the [lcm] of the first return of each
    axis to its start, is a period of the whole system. *)

From S2P Require Import Prelude.
Local Open Scope Z_scope.

Record Moon := mkMoon {
  x : Z; y : Z; z : Z;
  start_x : Z; start_y : Z; start_z : Z;
  vx : Z; vy : Z; vz : Z
}.

(** [Moon(x, y, z)] *)
Definition new_moon (x0 y0 z0 : Z) : Moon := mkMoon x0 y0 z0 x0 y0 z0 0 0 0.

(** [total_energy()] *)
Definition total_energy (m : Moon) : Z :=
  (Z.abs (x m) + Z.abs (y m) + Z.abs (z m)) * (Z.abs (vx m) + Z.abs (vy m) + Z.abs (vz m)).

(** The three axes: a position, a start and a velocity each. *)
Inductive axis := AX | AY | AZ.

#[export] Instance axis_eq_dec : EqDecision axis.
Proof. solve_decision. Defined.

Definition pos (a : axis) (m : Moon) : Z := match a with AX => x m | AY => y m | AZ => z m end.
Definition vel (a : axis) (m : Moon) : Z := match a with AX => vx m | AY => vy m | AZ => vz m end.
Definition start (a : axis) (m : Moon) : Z :=
  match a with AX => start_x m | AY => start_y m | AZ => start_z m end.

(** [moon.v<a> += d] *)
Definition add_vel (a : axis) (d : Z) (m : Moon) : Moon :=
  match a with
  | AX => mkMoon (x m) (y m) (z m) (start_x m) (start_y m) (start_z m) (vx m + d) (vy m) (vz m)
  | AY => mkMoon (x m) (y m) (z m) (start_x m) (start_y m) (start_z m) (vx m) (vy m + d) (vz m)
  | AZ => mkMoon (x m) (y m) (z m) (start_x m) (start_y m) (start_z m) (vx m) (vy m) (vz m + d)
  end.

(** The change of [first]'s velocity on one axis (lines 62-67):
    [if first.x > second.x: first.vx -= 1 ... elif first.x < second.x:
    first.vx += 1]; [second] gets the opposite. *)
Definition pull (p q : Z) : Z := if p >? q then -1 else if p <? q then 1 else 0.

(** One pair of the loop, on the x, y and z axes in turn. *)
Definition gravity_moons (first second : Moon) : Moon * Moon :=
  fold_left (fun '(f, s) a =>
      let d := pull (pos a f) (pos a s) in (add_vel a d f, add_vel a (- d) s))
    [AX; AY; AZ] (first, second).

(** [itertools.combinations(range(n), 2)] in its order. *)
Definition pairs (n : nat) : list (nat * nat) :=
  flat_map (fun i => map (fun j => (i, j)) (seq (S i) (n - S i))) (seq 0 n).

Definition gravity_pair (ms : list Moon) (ij : nat * nat) : list Moon :=
  match ms !! ij.1, ms !! ij.2 with
  | Some f, Some s =>
      let '(f', s') := gravity_moons f s in <[ij.2 := s']> (<[ij.1 := f']> ms)
  | _, _ => ms
  end.

(** [moon.x += moon.vx] and so on. *)
Definition apply_velocity (m : Moon) : Moon :=
  mkMoon (x m + vx m) (y m + vy m) (z m + vz m) (start_x m) (start_y m) (start_z m)
    (vx m) (vy m) (vz m).

(** [time_step(moons)] *)
Definition time_step (ms : list Moon) : list Moon :=
  apply_velocity <$> fold_left gravity_pair (pairs (length ms)) ms.

Definition steps (n : nat) (ms : list Moon) : list Moon := Nat.iter n time_step ms.

Module Day12.

(** Part 1: [sum([x.total_energy() for x in moons])] after 1000 steps. *)
Definition part1 (ms : list Moon) : Z := foldr Z.add 0 (map total_energy (steps 1000 ms)).

(** [all(m.x == m.start_x and m.vx == 0 for m in moons)] *)
Definition at_start (a : axis) (ms : list Moon) : bool :=
  forallb (fun m => (pos a m =? start a m) && (vel a m =? 0)) ms.

(** [if 'x' not in repeats and ...: repeats['x'] = count]; the dict
    [repeats] as its items in insertion order. *)
Definition record (a : axis) (count : Z) (ms : list Moon) (repeats : list (axis * Z))
    : list (axis * Z) :=
  if negb (existsb (fun '(k, _) => bool_decide (k = a)) repeats) && at_start a ms
  then repeats ++ [(a, count)] else repeats.

(** [while len(repeats) < 3: ...; time_step(moons); count += 1], with
    fuel; [None] when the fuel runs out. *)
Fixpoint repeats_loop (fuel : nat) (ms : list Moon) (count : Z) (repeats : list (axis * Z))
    : option (list (axis * Z)) :=
  if (length repeats <? 3)%nat then
    match fuel with
    | O => None
    | S f =>
        repeats_loop f (time_step ms) (count + 1)
          (record AZ count ms (record AY count ms (record AX count ms repeats)))
    end
  else Some repeats.

(** [functools.reduce(lambda a, b: (a * b) // math.gcd(a, b), values)];
    [reduce] of an empty list raises. *)
Definition lcm (values : list Z) : option Z :=
  match values with
  | [] => None
  | v :: vs => Some (fold_left (fun a b => a * b / Z.gcd a b) vs v)
  end.

(** Part 2: one [time_step], [count = 1], the loop, then [lcm(list(repeats.values()))]. *)
Definition part2 (fuel : nat) (ms : list Moon) : option Z :=
  match repeats_loop fuel (time_step ms) 1 [] with
  | Some r => lcm (map snd r)
  | None => None
  end.

End Day12.
Import Day12.

(** ** One axis on its own *)

(** The state of one axis: each moon's position and velocity. *)
Definition proj (a : axis) (ms : list Moon) : list (Z * Z) := (fun m => (pos a m, vel a m)) <$> ms.

Definition axis_pair (ps : list (Z * Z)) (ij : nat * nat) : list (Z * Z) :=
  match ps !! ij.1, ps !! ij.2 with
  | Some (pf, vf), Some (ps2, vs) =>
      let d := pull pf ps2 in <[ij.2 := (ps2, vs - d)]> (<[ij.1 := (pf, vf + d)]> ps)
  | _, _ => ps
  end.

Definition axis_step (ps : list (Z * Z)) : list (Z * Z) :=
  (fun '(p, v) => (p + v, v)) <$> fold_left axis_pair (pairs (length ps)) ps.

Lemma gravity_moons_axis a f s :
  (pos a (gravity_moons f s).1, vel a (gravity_moons f s).1) =
    (pos a f, vel a f + pull (pos a f) (pos a s)) /\
  (pos a (gravity_moons f s).2, vel a (gravity_moons f s).2) =
    (pos a s, vel a s - pull (pos a f) (pos a s)) /\
  start a (gravity_moons f s).1 = start a f /\ start a (gravity_moons f s).2 = start a s.
Proof. destruct a; cbn; split_and!; f_equal; lia. Qed.

Lemma gravity_pair_length ms ij : length (gravity_pair ms ij) = length ms.
Proof.
  unfold gravity_pair. destruct (ms !! ij.1), (ms !! ij.2); try done.
  destruct (gravity_moons _ _). by rewrite !length_insert.
Qed.

Lemma proj_gravity_pair a ms ij : proj a (gravity_pair ms ij) = axis_pair (proj a ms) ij.
Proof.
  unfold gravity_pair, axis_pair, proj. rewrite !list_lookup_fmap.
  destruct (ms !! ij.1) as [f|], (ms !! ij.2) as [s|]; cbn [fmap option_fmap option_map];
    try done.
  destruct (gravity_moons_axis a f s) as (H1 & H2 & _).
  destruct (gravity_moons f s) as [f' s']. cbn [fst snd] in *.
  rewrite !list_fmap_insert. cbv beta. by rewrite H1, H2.
Qed.

Lemma proj_fold a prs ms :
  proj a (fold_left gravity_pair prs ms) = fold_left axis_pair prs (proj a ms).
Proof.
  revert ms. induction prs as [|ij prs IH]; intros ms; simpl; [done|].
  by rewrite IH, proj_gravity_pair.
Qed.

(** One step of the system, seen on one axis, is one step of that axis
    alone: the other axes do not enter. *)
Lemma proj_time_step a ms : proj a (time_step ms) = axis_step (proj a ms).
Proof.
  unfold time_step, axis_step.
  replace (length (proj a ms)) with (length ms) by (unfold proj; by rewrite length_fmap).
  rewrite <- proj_fold. unfold proj. rewrite <- !list_fmap_compose.
  apply list_fmap_ext. intros _ m _. by destruct a.
Qed.

Lemma proj_steps a n ms : proj a (steps n ms) = Nat.iter n axis_step (proj a ms).
Proof. induction n as [|n IH]; simpl; [done|]. by rewrite proj_time_step, IH. Qed.

(** ** Conservation *)

Lemma pull_same p : pull p p = 0.
Proof. unfold pull. rewrite Z.gtb_ltb, !Z.ltb_irrefl. done. Qed.

(** A pair moves no position and keeps the total velocity. *)
Lemma axis_pair_sums ps ij :
  sumZ fst (axis_pair ps ij) = sumZ fst ps /\ sumZ snd (axis_pair ps ij) = sumZ snd ps.
Proof.
  unfold axis_pair. destruct (ps !! ij.1) as [[pf vf]|] eqn:Hf, (ps !! ij.2) as [[ps2 vs]|] eqn:Hs;
    try done.
  destruct (decide (ij.1 = ij.2)) as [Heq|Hne].
  - rewrite <- Heq in *. rewrite Hf in Hs. injection Hs as <- <-.
    rewrite list_insert_insert_eq, (sumZ_insert fst _ _ _ _ Hf), (sumZ_insert snd _ _ _ _ Hf),
      pull_same. simpl. lia.
  - assert (Hs' : <[ij.1 := (pf, vf + pull pf ps2)]> ps !! ij.2 = Some (ps2, vs))
      by (by rewrite list_lookup_insert_ne).
    rewrite (sumZ_insert fst _ _ _ _ Hs'), (sumZ_insert snd _ _ _ _ Hs'),
      (sumZ_insert fst _ _ _ _ Hf), (sumZ_insert snd _ _ _ _ Hf). simpl. lia.
Qed.

Lemma move_sums (l : list (Z * Z)) :
  sumZ snd ((fun '(p, v) => (p + v, v)) <$> l) = sumZ snd l /\
  sumZ fst ((fun '(p, v) => (p + v, v)) <$> l) = sumZ fst l + sumZ snd l.
Proof.
  unfold sumZ. induction l as [|[p v] l IH]; [done|]. rewrite fmap_cons. cbn [foldr fst snd].
  destruct IH as [-> ->]. lia.
Qed.

Lemma axis_step_sums ps :
  sumZ snd (axis_step ps) = sumZ snd ps /\ sumZ fst (axis_step ps) = sumZ fst ps + sumZ snd ps.
Proof.
  unfold axis_step. generalize (pairs (length ps)) as prs. intros prs.
  assert (H : sumZ fst (fold_left axis_pair prs ps) = sumZ fst ps /\
              sumZ snd (fold_left axis_pair prs ps) = sumZ snd ps).
  { revert ps. induction prs as [|ij prs IH]; intros ps; simpl; [done|].
    destruct (axis_pair_sums ps ij) as [H1 H2]. destruct (IH (axis_pair ps ij)). lia. }
  destruct (move_sums (fold_left axis_pair prs ps)) as [-> ->]. lia.
Qed.

Lemma sumZ_proj a ms :
  sumZ snd (proj a ms) = sumZ (vel a) ms /\ sumZ fst (proj a ms) = sumZ (pos a) ms.
Proof. unfold proj. by rewrite !sumZ_fmap. Qed.

Lemma iter_axis_sums n ps :
  sumZ snd (Nat.iter n axis_step ps) = sumZ snd ps /\
  sumZ fst (Nat.iter n axis_step ps) = sumZ fst ps + Z.of_nat n * sumZ snd ps.
Proof.
  induction n as [|n [IH1 IH2]]; simpl; [lia|].
  destruct (axis_step_sums (Nat.iter n axis_step ps)) as [H1 H2]. lia.
Qed.

(** C28: the axes are independent.  Two systems whose moons agree on
    one axis (positions and velocities) agree on that axis after any
    number of [time_step]s, whatever their other axes: part 2 may look
    for each axis's return to its start separately. *)
Theorem axes_independent a n ms1 ms2 :
  proj a ms1 = proj a ms2 -> proj a (steps n ms1) = proj a (steps n ms2).
Proof. intros H. by rewrite !proj_steps, H. Qed.

Lemma axes_independent_witness :
  proj AX [new_moon 1 2 3; new_moon 5 0 0] = proj AX [new_moon 1 7 7; new_moon 5 (-4) 9] /\
  proj AX (steps 10 [new_moon 1 2 3; new_moon 5 0 0]) =
    proj AX (steps 10 [new_moon 1 7 7; new_moon 5 (-4) 9]).
Proof.
  assert (H : proj AX [new_moon 1 2 3; new_moon 5 0 0] = proj AX [new_moon 1 7 7; new_moon 5 (-4) 9])
    by reflexivity.
  split; [exact H | exact (axes_independent AX 10 _ _ H)].
Defined.

(** C27: momentum is conserved.  On every axis, [time_step] keeps the sum
    of the velocities (each pair changes by +1 and -1) and moves the sum
    of the positions by it; after [n] steps the velocity sum is the
    initial one and the position sum has moved [n] times it.  Moons
    created at rest ([Moon(x, y, z)]) keep their centre of mass. *)
Theorem momentum_conserved a n ms :
  sumZ (vel a) (steps n ms) = sumZ (vel a) ms /\
  sumZ (pos a) (steps n ms) = sumZ (pos a) ms + Z.of_nat n * sumZ (vel a) ms.
Proof.
  destruct (sumZ_proj a ms) as [<- <-]. destruct (sumZ_proj a (steps n ms)) as [<- <-].
  rewrite proj_steps. apply iter_axis_sums.
Qed.

(** ** Part 2's answer is a period *)

Definition starts (a : axis) (ms : list Moon) : list Z := start a <$> ms.

Lemma starts_gravity_pair a ms ij : starts a (gravity_pair ms ij) = starts a ms.
Proof.
  unfold gravity_pair, starts. destruct (ms !! ij.1) as [f|] eqn:Hf, (ms !! ij.2) as [s|] eqn:Hs;
    try done.
  destruct (gravity_moons_axis a f s) as (_ & _ & H3 & H4).
  destruct (gravity_moons f s) as [f' s']. cbn [fst snd] in *.
  rewrite !list_fmap_insert, H3, H4.
  rewrite (list_insert_id (start a <$> ms) ij.1) by (by rewrite list_lookup_fmap, Hf).
  rewrite list_insert_id; [done|]. by rewrite list_lookup_fmap, Hs.
Qed.

Lemma starts_time_step a ms : starts a (time_step ms) = starts a ms.
Proof.
  unfold time_step, starts at 1. rewrite <- list_fmap_compose.
  rewrite (list_fmap_ext _ (start a)) by (intros _ m _; by destruct a).
  generalize (pairs (length ms)). intros prs. revert ms.
  induction prs as [|ij prs IH]; intros ms; simpl; [done|].
  rewrite IH. apply starts_gravity_pair.
Qed.

Lemma starts_steps a n ms : starts a (steps n ms) = starts a ms.
Proof. induction n as [|n IH]; simpl; [done|]. by rewrite starts_time_step. Qed.

Lemma at_start_proj a ms :
  at_start a ms = true -> proj a ms = (fun s => (s, 0)) <$> starts a ms.
Proof.
  unfold at_start, proj, starts. induction ms as [|m ms IH]; [done|]. cbn [forallb].
  intros H. apply andb_true_iff in H as [H Hr]. apply andb_true_iff in H as [Hp Hv].
  apply Z.eqb_eq in Hp, Hv.
  rewrite !fmap_cons, IH by done. cbv beta. by rewrite Hp, Hv.
Qed.

(** An axis back at its start after [c] steps is back after every
    multiple of [c]. *)
Lemma iter_period n k (ps : list (Z * Z)) :
  Nat.iter n axis_step ps = ps -> Nat.iter (k * n) axis_step ps = ps.
Proof.
  intros Hn. induction k as [|k IH]; [done|].
  by rewrite Nat.mul_succ_l, Nat.iter_add, Hn, IH.
Qed.

(** The three axes and the starts determine the moons. *)
Lemma moons_ext l1 l2 :
  (forall a, proj a l1 = proj a l2 /\ starts a l1 = starts a l2) -> l1 = l2.
Proof.
  unfold proj, starts. revert l2. induction l1 as [|m1 l1 IH]; intros [|m2 l2] H;
    try (specialize (H AX) as [H _]; discriminate H); [done|].
  assert (Hhd : forall a, pos a m1 = pos a m2 /\ vel a m1 = vel a m2 /\ start a m1 = start a m2).
  { intros a. destruct (H a) as [H1 H2]. rewrite !fmap_cons in H1; rewrite !fmap_cons in H2.
    injection H1 as Hp Hv _. injection H2 as Hs _. done. }
  f_equal.
  - destruct m1, m2.
    destruct (Hhd AX) as (? & ? & ?), (Hhd AY) as (? & ? & ?), (Hhd AZ) as (? & ? & ?).
    simpl in *. by subst.
  - apply IH. intros a. destruct (H a) as [H1 H2]. rewrite !fmap_cons in H1; rewrite !fmap_cons in H2.
    injection H1 as _ _ H1. injection H2 as _ H2. done.
Qed.

(** The moons of [main] (lines 34-35): [Moon(x, y, z)] for each line of
    the input, at rest at their starts. *)
Definition input_moons (coords : list (Z * Z * Z)) : list Moon :=
  (fun '(x0, y0, z0) => new_moon x0 y0 z0) <$> coords.

Lemma input_moons_at_start a coords : at_start a (input_moons coords) = true.
Proof.
  unfold at_start, input_moons. apply forallb_forall. intros m Hm.
  apply list_elem_of_In, list_elem_of_fmap in Hm as ([[x0 y0] z0] & -> & _).
  destruct a; simpl; by rewrite !Z.eqb_refl.
Qed.

(** An axis found at its start after [c] steps has period [c]. *)
Lemma return_period a c ms0 :
  at_start a ms0 = true -> at_start a (steps c ms0) = true ->
  Nat.iter c axis_step (proj a ms0) = proj a ms0.
Proof.
  intros H0 Hc. rewrite <- proj_steps, (at_start_proj _ _ Hc), (at_start_proj _ _ H0).
  by rewrite starts_steps.
Qed.

(** A common multiple of the periods of the three axes is a period of
    the system. *)
Lemma common_period ms0 (n : nat) :
  (forall a, at_start a ms0 = true) ->
  (forall a, exists c, at_start a (steps c ms0) = true /\ Nat.divide c n) ->
  steps n ms0 = ms0.
Proof.
  intros H0 Hc. apply moons_ext. intros a. rewrite starts_steps. split; [|done].
  destruct (Hc a) as (c & Ha & [k ->]). rewrite proj_steps.
  by apply iter_period, return_period.
Qed.

(** The dict [repeats]: no axis twice, each value [c] at least 1 with the
    axis at its start after [c] steps. *)
Definition repeats_ok (ms0 : list Moon) (rs : list (axis * Z)) : Prop :=
  NoDup (fst <$> rs) /\
  Forall (fun '(a, c) => 1 <= c /\ at_start a (steps (Z.to_nat c) ms0) = true) rs.

Lemma record_ok a k ms0 rs :
  (1 <= k)%nat -> repeats_ok ms0 rs ->
  repeats_ok ms0 (record a (Z.of_nat k) (steps k ms0) rs).
Proof.
  intros Hk [Hnd Hall]. unfold record.
  destruct (existsb _ rs) eqn:He, (at_start a (steps k ms0)) eqn:Hs; simpl; try done.
  split.
  - rewrite fmap_app. apply NoDup_app. split_and!; [done| |apply NoDup_singleton].
    intros b Hb Hb'. apply list_elem_of_singleton in Hb'. simpl in Hb'. subst b.
    apply list_elem_of_fmap in Hb as ([b' c] & Hb & Hin). simpl in Hb. subst b'.
    apply list_elem_of_In in Hin.
    enough (existsb (fun '(k0, _) => bool_decide (k0 = a)) rs = true) by congruence.
    apply existsb_exists. exists (a, c). split; [done|]. by apply bool_decide_true.
  - apply Forall_app. split; [done|]. apply Forall_singleton. rewrite Nat2Z.id. split; [lia|done].
Qed.

(** The loop: when it ends it has found all three axes, each with a
    valid period. *)
Lemma repeats_loop_ok fuel k rs r ms0 :
  (1 <= k)%nat -> repeats_ok ms0 rs ->
  repeats_loop fuel (steps k ms0) (Z.of_nat k) rs = Some r ->
  repeats_ok ms0 r /\ (3 <= length r)%nat.
Proof.
  revert k rs. induction fuel as [|fuel IH]; intros k rs Hk Hrs; simpl;
    destruct (length rs <? 3)%nat eqn:Hl; intros Heq; simplify_eq;
    try (split; [done | apply Nat.ltb_ge in Hl; lia]).
  replace (Z.of_nat k + 1) with (Z.of_nat (S k)) in Heq by lia.
  refine (IH (S k) _ _ _ Heq); [lia|]. by do 3 (apply record_ok; [lia|]).
Qed.

Lemma axes_found (l : list axis) a : NoDup l -> (3 <= length l)%nat -> a ∈ l.
Proof.
  intros Hnd Hl. destruct (decide (a ∈ l)) as [|Hn]; [done|]. exfalso.
  assert (Hinc : incl l (filter (fun b => b <> a) [AX; AY; AZ])).
  { intros b Hb. apply list_elem_of_In, list_elem_of_filter. split.
    - intros ->. apply Hn. by apply list_elem_of_In.
    - destruct b; set_solver. }
  pose proof (NoDup_incl_length (proj1 (NoDup_ListNoDup l) Hnd) Hinc) as Hle.
  destruct a; simpl in Hle; lia.
Qed.

(** The [reduce] of [lcm]: a positive common multiple of the values. *)
Lemma lcm_step_pos a b : 0 < a -> 0 < b -> a * b / Z.gcd a b = Z.lcm a b.
Proof.
  intros Ha Hb.
  assert (Hg : 0 < Z.gcd a b).
  { destruct (Z.eq_dec (Z.gcd a b) 0) as [H|H]; [apply Z.gcd_eq_0 in H; lia|].
    pose proof (Z.gcd_nonneg a b). lia. }
  unfold Z.lcm. rewrite (Z.divide_div_mul_exact b (Z.gcd a b) a) by (lia || apply Z.gcd_divide_r).
  symmetry. apply Z.abs_eq, Z.mul_nonneg_nonneg; [lia|]. apply Z.div_pos; lia.
Qed.

Lemma lcm_fold_multiple vs acc :
  0 < acc -> Forall (fun c => 0 < c) vs ->
  let r := fold_left (fun a b => a * b / Z.gcd a b) vs acc in
  0 < r /\ (acc | r) /\ Forall (fun c => (c | r)) vs.
Proof.
  revert acc. induction vs as [|b vs IH]; intros acc Hacc Hvs; simpl.
  - split_and!; [done | apply Z.divide_refl | constructor].
  - apply Forall_cons in Hvs as [Hb Hvs]. rewrite lcm_step_pos by done.
    assert (Hl : 0 < Z.lcm acc b).
    { pose proof (Z.lcm_nonneg acc b). destruct (Z.eq_dec (Z.lcm acc b) 0) as [E|E];
        [apply Z.lcm_eq_0 in E; lia | lia]. }
    destruct (IH _ Hl Hvs) as (Hr & Hd & Hall). split_and!; [done| |constructor; [|done]].
    + eapply Z.divide_trans; [apply Z.divide_lcm_l | done].
    + eapply Z.divide_trans; [apply Z.divide_lcm_r | done].
Qed.

Lemma lcm_multiple vs v :
  Forall (fun c => 0 < c) vs -> lcm vs = Some v -> 0 < v /\ Forall (fun c => (c | v)) vs.
Proof.
  destruct vs as [|c vs]; intros Hvs Hv; simplify_eq/=.
  apply Forall_cons in Hvs as [Hc Hvs].
  destruct (lcm_fold_multiple vs c Hc Hvs) as (Hr & Hd & Hall). split; [done|]. by constructor.
Qed.

Lemma divide_to_nat c v : 0 < c -> 0 < v -> (c | v) -> Nat.divide (Z.to_nat c) (Z.to_nat v).
Proof.
  intros Hc Hv [k ->]. exists (Z.to_nat k). rewrite <- Z2Nat.inj_mul; [done| |lia]. nia.
Qed.

(** C26: the number part 2 prints is a period of the system.  When the
    loop of [main] ends with [repeats] holding a step count for each
    axis, [lcm] of those counts is positive and after that many
    [time_step]s every moon is back where it started, at rest. *)
Theorem part2_period fuel coords v :
  part2 fuel (input_moons coords) = Some v ->
  0 < v /\ steps (Z.to_nat v) (input_moons coords) = input_moons coords.
Proof.
  unfold part2. set (ms0 := input_moons coords).
  destruct (repeats_loop _ _ _ _) as [r|] eqn:Hr; intros Hv; [|done].
  change (time_step ms0) with (steps 1 ms0) in Hr.
  apply repeats_loop_ok in Hr as [[Hnd Hall] Hlen]; [|lia|split; constructor].
  destruct (lcm_multiple (snd <$> r) v) as [Hpos Hdiv]; [|done|].
  { apply Forall_fmap. eapply Forall_impl; [exact Hall|]. intros [a c] [? _]. simpl. lia. }
  split; [done|]. apply common_period; [intros a; apply input_moons_at_start|]. intros a.
  assert (Ha : a ∈ fst <$> r) by (apply axes_found; [done | by rewrite length_fmap]).
  apply list_elem_of_fmap in Ha as ([a' c] & Ha & Hin). simpl in Ha. subst a'.
  rewrite Forall_forall in Hall. rewrite Forall_fmap, Forall_forall in Hdiv.
  destruct (Hall _ Hin) as [Hc Hs]. exists (Z.to_nat c). split; [done|].
  apply divide_to_nat; [lia|done|]. exact (Hdiv _ Hin).
Qed.

(** The example of the puzzle: [<x=-1, y=0, z=2>] and three more moons. *)
Definition example_moons : list (Z * Z * Z) := [(-1, 0, 2); (2, -10, -7); (4, -8, 8); (3, 5, -1)].

Lemma part2_period_witness :
  part2 50 (input_moons example_moons) = Some 2772 /\
  steps 2772 (input_moons example_moons) = input_moons example_moons.
Proof.
  assert (H : part2 50 (input_moons example_moons) = Some 2772) by (vm_compute; reflexivity).
  split; [exact H | exact (proj2 (part2_period _ _ _ H))].
Defined.
