(* ===== verification/Fuel.v ===== *)
(** * Fuel: the rocket equation of [src/day-01.py]

    [get_fuel(value, recurse)] is [max(value // 3 - 2, 0)], plus, when
    [recurse] is set, the fuel for that fuel, recursively until it is 0.
    The recursion is not structural; it is defined with Equations by
    well-founded recursion on the value, which proves it terminates on
    every integer.  [main] sums it over the module masses for both
    parts.  The theorem bounds both totals. *)

From S2P Require Import Prelude.
From Equations Require Import Equations.

(** [fuel = max((value // 3) - 2, 0)] *)
Definition fuel_of (value : Z) : Z := Z.max (value / 3 - 2) 0.

(** [get_fuel(value, recurse)]: the recursive call is on [fuel], which
    is smaller than [value] whenever it is not 0. *)
Equations? get_fuel (value : Z) (recurse : bool) : Z by wf (Z.to_nat value) lt :=
  get_fuel value recurse with Z.eq_dec (fuel_of value) 0 => {
    | left _ := fuel_of value;
    | right _ := if recurse then fuel_of value + get_fuel (fuel_of value) recurse
                 else fuel_of value }.
Proof. unfold fuel_of in *. Z.div_mod_to_equations. lia. Qed.

(** [sum([get_fuel(value, recurse) for value in values])] *)
Definition total_fuel (values : list Z) (recurse : bool) : Z :=
  sumZ (fun v => get_fuel v recurse) values.

Module Day01.

Definition part1 (values : list Z) : Z := total_fuel values false.
Definition part2 (values : list Z) : Z := total_fuel values true.

End Day01.
Import Day01.

Lemma fuel_of_bound v : 0 <= fuel_of v /\ (fuel_of v <> 0 -> 3 * fuel_of v + 6 <= v).
Proof. unfold fuel_of. Z.div_mod_to_equations. lia. Qed.

Lemma get_fuel_false v : get_fuel v false = fuel_of v.
Proof. simp get_fuel. destruct (Z.eq_dec (fuel_of v) 0); simp get_fuel; reflexivity. Qed.

(** One module: the fuel is non-negative, the recursive total is at
    least the first term and at most half the mass. *)
Lemma get_fuel_bounds v :
  0 <= get_fuel v false <= get_fuel v true /\ 2 * get_fuel v true <= Z.max v 0.
Proof.
  rewrite get_fuel_false. remember true as r eqn:Hr.
  funelim (get_fuel v r); subst; pose proof (fuel_of_bound value) as [H0 H1]; [lia|].
  specialize (H1 n). lia.
Qed.

(** C35: the totals of [main] are bounded.  Part 1's total is
    non-negative and at most part 2's, and twice part 2's total is at
    most the sum of the (non-negative parts of the) masses: the fuel for
    the fuel never makes the total exceed half the mass. *)
Theorem total_fuel_bounds values :
  0 <= part1 values <= part2 values /\ 2 * part2 values <= sumZ (fun v => Z.max v 0) values.
Proof.
  unfold part1, part2, total_fuel. split_and!.
  - apply sumZ_nonneg. intros v. apply get_fuel_bounds.
  - apply sumZ_le. intros v. apply get_fuel_bounds.
  - rewrite sumZ_scale. apply sumZ_le. intros v. apply get_fuel_bounds.
Qed.

(** The puzzle's examples: 12, 14, 1969 and 100756. *)
Example fuel_examples :
  map (fun v => get_fuel v false) [12; 14; 1969; 100756] = [2; 2; 654; 33583] /\
  map (fun v => get_fuel v true) [14; 1969; 100756] = [2; 966; 50346].
Proof. split; reflexivity. Qed.
