(* ===== verification/Passwords.v ===== *)
(** * Passwords: the digit rules of [src/day-04.py]

    [get_digits] peels decimal digits off a number ([value % 10],
    [value //= 10]) and prepends them; [is_increasing] and
    [min_adjacent_duplicates] loop over the indices of the digit list
    with Python subscripts (so [digits[i - 1]] at [i = 0] is the last
    digit); [main] counts the numbers of a range that pass the rules of
    each part.  The subscripts are [Memory.py_get] in the result monad.

    The theorems: [get_digits] returns the canonical decimal digits of
    its argument, and is the inverse of reading digits back; the
    index loop of [min_adjacent_duplicates] computes the shortest run of
    equal digits of length at least 2, the reference being the
    run-length encoding of the digits; and so [main] counts exactly the
    numbers the puzzle's rules accept. *)

From S2P Require Import Prelude Memory.
From Equations Require Import Equations.

(** ** The code *)

(** [get_digits(value)]: [while value > 0: digits.insert(0, value % 10);
    value //= 10]. *)
Equations? get_digits_loop (value : Z) (digits : list Z) : list Z by wf (Z.to_nat value) lt :=
  get_digits_loop value digits with Z_lt_dec 0 value => {
    | left _ := get_digits_loop (value / 10) (value mod 10 :: digits);
    | right _ := digits }.
Proof. Z.div_mod_to_equations. lia. Qed.

Definition get_digits (value : Z) : list Z := get_digits_loop value [].

(** The locals of [min_adjacent_duplicates]. *)
Record mad_state := mkMad {
  has_adjacent : bool;
  count : Z;
  min : Z;
  current : Z
}.

(** [has_adjacent = False; count = 0; min = 100; current = -1] *)
Definition mad_init : mad_state := mkMad false 0 100 (-1).

(** [if count >= 2 and count < min: min = count] *)
Definition close_run (st : mad_state) : Z :=
  if (2 <=? count st) && (count st <? min st) then count st else min st.

(** The body of [for i in range(len(digits))]. *)
Definition mad_body (digits : list Z) (st : mad_state) (i : Z) : result mad_state :=
  d <- py_get digits i ;;
  if negb (current st =? d) then
    Ok (mkMad (has_adjacent st) 1 (close_run st) d)
  else
    p <- py_get digits (i - 1) ;;
    if current st =? p then Ok (mkMad true (count st + 1) (min st) (current st))
    else Ok st.

(** [min_adjacent_duplicates(digits)] *)
Definition min_adjacent_duplicates (digits : list Z) : result Z :=
  st <- result_fold_left (mad_body digits) (seqZ 0 (Z.of_nat (length digits))) mad_init ;;
  Ok (if has_adjacent st then close_run st else 0).

(** [is_increasing(digits)]: [for i in range(1, len(digits)): if
    digits[i] < digits[i - 1]: return False]. *)
Fixpoint is_increasing_loop (digits : list Z) (indices : list Z) : result bool :=
  match indices with
  | [] => Ok true
  | i :: rest =>
      d <- py_get digits i ;; p <- py_get digits (i - 1) ;;
      if d <? p then Ok false else is_increasing_loop digits rest
  end.

Definition is_increasing (digits : list Z) : result bool :=
  is_increasing_loop digits (seqZ 1 (Z.of_nat (length digits) - 1)).

(** The body of [main]'s loop for one [i]: [(count1, count2)] updated. *)
Definition count_password (counts : Z * Z) (i : Z) : result (Z * Z) :=
  let digits := get_digits i in
  inc <- is_increasing digits ;;
  if inc then
    m <- min_adjacent_duplicates digits ;;
    Ok (if 2 <=? m then counts.1 + 1 else counts.1, if m =? 2 then counts.2 + 1 else counts.2)
  else Ok counts.

(** [for i in range(lower_bound, upper_bound + 1)] *)
Definition count_passwords (lower_bound upper_bound : Z) : result (Z * Z) :=
  result_fold_left count_password (seqZ lower_bound (upper_bound + 1 - lower_bound)) (0, 0).

(** ** Reference definitions *)

(** The number a list of decimal digits denotes. *)
Definition digits_value (ds : list Z) : Z := fold_left (fun acc d => 10 * acc + d) ds 0.

(** Decimal digits with no leading zero. *)
Definition canonical (ds : list Z) : bool :=
  forallb (fun d => (0 <=? d) && (d <? 10)) ds &&
  match ds with d :: _ => negb (d =? 0) | [] => true end.

(** Run-length encoding, the last run first. *)
Definition push_run (acc : list (Z * nat)) (d : Z) : list (Z * nat) :=
  match acc with
  | (e, n) :: r => if e =? d then (e, S n) :: r else (d, 1%nat) :: acc
  | [] => [(d, 1%nat)]
  end.

Definition run_lengths (ds : list Z) : list nat := snd <$> reverse (fold_left push_run ds []).

(** The length of the shortest run of at least two equal digits (capped
    at 100), 0 when there is none. *)
Definition shortest_repeat (ds : list Z) : Z :=
  match filter (fun n => 2 <= n)%nat (run_lengths ds) with
  | [] => 0
  | ns => foldr Z.min 100 (Z.of_nat <$> ns)
  end.

(** The puzzle's rules: digits never decrease; some two adjacent digits
    are equal; some two adjacent equal digits are not part of a larger
    group. *)
Definition never_decreases (ds : list Z) : bool :=
  forallb (fun '(a, b) => a <=? b) (zip ds (tail ds)).
Definition has_double (ds : list Z) : bool := existsb (fun n => 2 <=? n)%nat (run_lengths ds).
Definition has_exact_double (ds : list Z) : bool := existsb (fun n => n =? 2)%nat (run_lengths ds).

(** ** [get_digits] returns the canonical digits *)

Lemma get_digits_loop_pos v acc :
  0 < v -> get_digits_loop v acc = get_digits_loop (v / 10) (v mod 10 :: acc).
Proof. intros Hv. simp get_digits_loop. destruct (Z_lt_dec 0 v); simp get_digits_loop; first [done | lia]. Qed.

Lemma get_digits_loop_nonpos v acc : v <= 0 -> get_digits_loop v acc = acc.
Proof. intros Hv. simp get_digits_loop. destruct (Z_lt_dec 0 v); simp get_digits_loop; first [done | lia]. Qed.

(** Induction along the [while value > 0] loop. *)
Lemma digits_ind (P : Z -> Prop) :
  (forall v, v <= 0 -> P v) -> (forall v, 0 < v -> P (v / 10) -> P v) -> forall v, P v.
Proof.
  intros H0 HS v. destruct (Z_le_gt_dec v 0) as [|Hv]; [by apply H0|].
  apply (Z_lt_induction (fun v => 0 < v -> P v)); [|lia|lia]. clear v Hv.
  intros v IH Hv. apply HS; [done|].
  destruct (Z_le_gt_dec (v / 10) 0); [by apply H0|].
  apply IH; [Z.div_mod_to_equations; lia | lia].
Qed.

Lemma get_digits_loop_app v acc : get_digits_loop v acc = get_digits_loop v [] ++ acc.
Proof.
  revert acc. induction v as [v Hv|v Hv IH] using digits_ind; intros acc.
  - by rewrite !get_digits_loop_nonpos.
  - rewrite (get_digits_loop_pos v acc), (get_digits_loop_pos v []) by done.
    rewrite (IH (_ :: acc)), (IH [_]). by rewrite <- app_assoc.
Qed.

Lemma get_digits_nonpos v : v <= 0 -> get_digits v = [].
Proof. apply get_digits_loop_nonpos. Qed.

Lemma get_digits_pos v : 0 < v -> get_digits v = get_digits (v / 10) ++ [v mod 10].
Proof. intros Hv. unfold get_digits. by rewrite get_digits_loop_pos, get_digits_loop_app. Qed.

Lemma digits_value_snoc ds d : digits_value (ds ++ [d]) = 10 * digits_value ds + d.
Proof. unfold digits_value. by rewrite fold_left_app. Qed.

Lemma digits_value_get_digits v : digits_value (get_digits v) = Z.max v 0.
Proof.
  induction v as [v Hv|v Hv IH] using digits_ind.
  - rewrite get_digits_nonpos by done. cbn. lia.
  - rewrite get_digits_pos, digits_value_snoc, IH by done. Z.div_mod_to_equations. lia.
Qed.

Lemma canonical_spec ds :
  canonical ds = true <-> Forall (fun d => 0 <= d < 10) ds /\ head ds <> Some 0.
Proof.
  unfold canonical. rewrite andb_true_iff, forallb_forall, Forall_forall.
  setoid_rewrite <- list_elem_of_In. setoid_rewrite andb_true_iff. setoid_rewrite Z.leb_le. setoid_rewrite Z.ltb_lt.
  destruct ds as [|d ds]; simpl; [naive_solver|].
  rewrite negb_true_iff, Z.eqb_neq. naive_solver.
Qed.

Lemma get_digits_shape v :
  Forall (fun d => 0 <= d < 10) (get_digits v) /\
  (0 < v -> exists d ds, get_digits v = d :: ds /\ d <> 0).
Proof.
  induction v as [v Hv|v Hv [IHf IHh]] using digits_ind.
  - rewrite get_digits_nonpos by done. split; [constructor | lia].
  - rewrite get_digits_pos by done. split.
    + apply Forall_app. split; [done|]. apply Forall_singleton. apply Z.mod_pos_bound. lia.
    + intros _. destruct (Z_le_gt_dec (v / 10) 0) as [Hq|Hq].
      * rewrite get_digits_nonpos by done. exists (v mod 10), []. split; [done|].
        Z.div_mod_to_equations. lia.
      * destruct (IHh ltac:(lia)) as (d & ds & -> & Hd). by exists d, (ds ++ [v mod 10]).
Qed.

Lemma canonical_snoc ds d :
  canonical (ds ++ [d]) = true -> ds <> [] -> canonical ds = true /\ 0 <= d < 10.
Proof.
  rewrite !canonical_spec, Forall_app, Forall_singleton. intros [[Hf Hd] Hh] Hne.
  destruct ds; [done|]. naive_solver.
Qed.

Lemma digits_value_pos ds : canonical ds = true -> ds <> [] -> 0 < digits_value ds.
Proof.
  induction ds as [|d ds IH] using rev_ind; [done|]. intros Hc _.
  rewrite digits_value_snoc. destruct (decide (ds = [])) as [->|Hne].
  - apply canonical_spec in Hc as [Hf Hh]. inversion Hf; simplify_eq/=.
    assert (d <> 0) by congruence. cbn. lia.
  - destruct (canonical_snoc _ _ Hc Hne) as [Hc' Hd]. specialize (IH Hc' Hne). lia.
Qed.

Lemma get_digits_digits_value ds : canonical ds = true -> get_digits (digits_value ds) = ds.
Proof.
  induction ds as [|d ds IH] using rev_ind; [done|]. intros Hc.
  rewrite digits_value_snoc. destruct (decide (ds = [])) as [->|Hne].
  - apply canonical_spec in Hc as [Hf Hh]. inversion Hf; simplify_eq/=.
    assert (d <> 0) by congruence. cbn [digits_value fold_left].
    rewrite get_digits_pos, get_digits_nonpos by (Z.div_mod_to_equations; lia).
    simpl. f_equal. Z.div_mod_to_equations. lia.
  - destruct (canonical_snoc _ _ Hc Hne) as [Hc' Hd]. pose proof (digits_value_pos _ Hc' Hne).
    rewrite get_digits_pos by lia.
    replace ((10 * digits_value ds + d) / 10) with (digits_value ds) by (Z.div_mod_to_equations; lia).
    replace ((10 * digits_value ds + d) mod 10) with d by (Z.div_mod_to_equations; lia).
    by rewrite IH.
Qed.

(** C39: [get_digits] returns decimal digits: each in [0, 10) and no
    leading zero (the empty list for 0 and negative numbers). *)
Theorem get_digits_canonical v : canonical (get_digits v) = true.
Proof.
  apply canonical_spec. destruct (get_digits_shape v) as [Hf Hh]. split; [done|].
  destruct (Z_le_gt_dec v 0) as [Hv|Hv]; [by rewrite get_digits_nonpos|].
  destruct (Hh ltac:(lia)) as (d & ds & -> & Hd). simpl. congruence.
Qed.

(** C36: [get_digits] and reading digits back are inverse: for a list of
    decimal digits without leading zero, [get_digits(v)] is that list
    exactly when the list denotes [v] (or denotes 0 and [v <= 0]). *)
Theorem get_digits_spec v ds :
  canonical ds = true -> get_digits v = ds <-> digits_value ds = Z.max v 0.
Proof.
  intros Hc. split; [intros <-; apply digits_value_get_digits|].
  intros H. rewrite <- (get_digits_digits_value ds Hc), H.
  destruct (Z_le_gt_dec v 0) as [Hv|Hv].
  - rewrite Z.max_r, !get_digits_nonpos by lia. done.
  - by rewrite Z.max_l by lia.
Qed.

Lemma get_digits_spec_witness :
  canonical [1; 2; 3; 4] = true /\ (get_digits 1234 = [1; 2; 3; 4] <-> digits_value [1; 2; 3; 4] = Z.max 1234 0).
Proof.
  assert (H : canonical [1; 2; 3; 4] = true) by reflexivity.
  split; [exact H | exact (get_digits_spec 1234 _ H)].
Defined.

(** ** The index loop of [min_adjacent_duplicates] *)

(** One digit of the loop once the subscripts are resolved:
    [digits[i - 1]] is always [current] when the [elif] is reached. *)
Definition elem_step (st : mad_state) (d : Z) : mad_state :=
  if current st =? d then mkMad true (count st + 1) (min st) (current st)
  else mkMad (has_adjacent st) 1 (close_run st) d.

Lemma mad_loop_elems (ds : list Z) :
  Forall (fun d => 0 <= d) ds ->
  forall k n st, (n + k = length ds)%nat ->
  (n = 0%nat /\ current st = -1 \/ exists m, n = S m /\ ds !! m = Some (current st)) ->
  result_fold_left (mad_body ds) (seqZ (Z.of_nat n) (Z.of_nat k)) st =
    Ok (fold_left elem_step (drop n ds) st).
Proof.
  intros Hpos k. induction k as [|k IH]; intros n st Hlen Hst.
  - by rewrite seqZ_nil, drop_ge by lia.
  - destruct (lookup_lt_is_Some_2 ds n) as [d Hd]; [lia|].
    rewrite seqZ_succ, (drop_S _ d) by done. cbn [result_fold_left fold_left].
    unfold mad_body. rewrite (py_get_lookup _ _ _ Hd).
    assert (Hd0 : 0 <= d) by (eapply Forall_lookup_1; eauto).
    unfold elem_step. destruct (Z.eqb_spec (current st) d) as [Heq|Hne]; simpl.
    + destruct Hst as [[-> Hc]|(m & -> & Hm)]; [lia|].
      replace (Z.of_nat (S m) - 1) with (Z.of_nat m) by lia.
      rewrite (py_get_lookup _ _ _ Hm), Z.eqb_refl. apply IH; [lia|]. right. exists (S m). split; [done|]. simpl. congruence.
    + apply IH; [lia|]. right. eauto.
Qed.

Lemma min_adjacent_duplicates_elems ds :
  Forall (fun d => 0 <= d) ds ->
  min_adjacent_duplicates ds =
    let st := fold_left elem_step ds mad_init in Ok (if has_adjacent st then close_run st else 0).
Proof.
  intros Hpos. unfold min_adjacent_duplicates.
  pose proof (mad_loop_elems ds Hpos (length ds) 0 mad_init) as H.
  change (Z.of_nat 0) with 0 in H. rewrite drop_0 in H.
  rewrite H; [done|lia|by left].
Qed.

(** ** The loop state and the run-length encoding *)

#[local] Instance Z_min_assoc : Assoc (=) Z.min := Z.min_assoc.
#[local] Instance Z_min_comm : Comm (=) Z.min := Z.min_comm.
#[local] Instance Z_min_proper x : Proper ((=) ==> (=)) (Z.min x).
Proof. solve_proper. Qed.

(** The minimum over the runs of at least two digits, capped at 100. *)
Definition min_long (ns : list nat) : Z :=
  foldr Z.min 100 (Z.of_nat <$> filter (fun n => 2 <= n)%nat ns).

(** After a prefix whose runs, last first, are [(e, n) :: r]: the
    current run is [e] repeated [n] times, [min] is the shortest finished
    run of at least two digits, and [has_adjacent] says a run of at least
    two digits has been seen. *)
Definition mad_inv (acc : list (Z * nat)) (st : mad_state) : Prop :=
  match acc with
  | [] => st = mad_init
  | (e, n) :: r =>
      current st = e /\ count st = Z.of_nat n /\ (1 <= n)%nat /\
      min st = min_long (snd <$> r) /\
      has_adjacent st = existsb (fun n => 2 <=? n)%nat (snd <$> acc)
  end.

Lemma close_run_min_long e n r st :
  mad_inv ((e, n) :: r) st -> close_run st = min_long (snd <$> (e, n) :: r).
Proof.
  intros (_ & Hc & _ & Hm & _). unfold close_run, min_long. rewrite Hc, Hm.
  rewrite fmap_cons, filter_cons. cbn [snd].
  destruct (decide (2 <= n)%nat).
  - rewrite (proj2 (Z.leb_le 2 (Z.of_nat n))) by lia. unfold min_long.
    rewrite fmap_cons. cbn [foldr andb].
    destruct (Z.ltb_spec (Z.of_nat n) (foldr Z.min 100 (Z.of_nat <$> filter (fun n => 2 <= n)%nat (snd <$> r))));
      lia.
  - replace (2 <=? Z.of_nat n) with false by (symmetry; apply Z.leb_gt; lia). done.
Qed.

Lemma mad_inv_step acc st d : 0 <= d -> mad_inv acc st -> mad_inv (push_run acc d) (elem_step st d).
Proof.
  intros Hd Hinv. destruct acc as [|[e n] r].
  - simpl in Hinv. subst st. unfold elem_step.
    replace (current mad_init =? d) with false by (symmetry; apply Z.eqb_neq; simpl; lia).
    simpl. split_and!; done.
  - pose proof (close_run_min_long _ _ _ _ Hinv) as Hclose.
    destruct Hinv as (He & Hc & Hn & Hm & Hh). unfold push_run, elem_step. rewrite He.
    destruct (Z.eqb_spec e d) as [<-|Hne]; simpl.
    + split_and!; [done|lia|lia|done|]. destruct n as [|[|n]]; [lia| |]; done.
    + split_and!; [done|done|lia|done|]. by rewrite Hh.
Qed.

Lemma mad_inv_fold ds acc st :
  Forall (fun d => 0 <= d) ds -> mad_inv acc st ->
  mad_inv (fold_left push_run ds acc) (fold_left elem_step ds st).
Proof.
  revert acc st. induction ds as [|d ds IH]; intros acc st Hpos Hinv; [done|].
  apply Forall_cons in Hpos as [Hd Hpos]. simpl. apply IH; [done|]. by apply mad_inv_step.
Qed.

Lemma existsb_filter_nil (ns : list nat) :
  existsb (fun n => 2 <=? n)%nat ns = false <-> filter (fun n => 2 <= n)%nat ns = [].
Proof.
  induction ns as [|n ns IH]; [done|]. rewrite filter_cons. cbn [existsb].
  destruct (decide (2 <= n)%nat) as [Hn|Hn].
  - apply Nat.leb_le in Hn. by rewrite Hn.
  - apply Nat.leb_nle in Hn. by rewrite Hn.
Qed.

Lemma shortest_repeat_alt ds :
  shortest_repeat ds =
    if existsb (fun n => 2 <=? n)%nat (run_lengths ds) then min_long (run_lengths ds) else 0.
Proof.
  unfold shortest_repeat, min_long.
  destruct (filter _ (run_lengths ds)) as [|m ms] eqn:Hf.
  - by rewrite (proj2 (existsb_filter_nil _) Hf).
  - destruct (existsb _ _) eqn:He; [done|].
    apply existsb_filter_nil in He. congruence.
Qed.

Lemma existsb_reverse {A} (f : A -> bool) (l : list A) : existsb f (reverse l) = existsb f l.
Proof.
  induction l as [|a l IH]; [done|].
  rewrite reverse_cons, existsb_app, IH. simpl. by rewrite orb_false_r, orb_comm.
Qed.

Lemma min_long_reverse ns : min_long (reverse ns) = min_long ns.
Proof.
  unfold min_long. rewrite filter_reverse, fmap_reverse.
  apply (foldr_permutation_proper' (=) Z.min 100). apply reverse_Permutation.
Qed.

(** C17: the index loop of [min_adjacent_duplicates] computes the length
    of the shortest run of at least two equal digits (0 when there is
    none, capped at the initial [min = 100]), on any list of
    non-negative digits. *)
Theorem min_adjacent_duplicates_spec ds :
  Forall (fun d => 0 <= d) ds -> min_adjacent_duplicates ds = Ok (shortest_repeat ds).
Proof.
  intros Hpos. rewrite min_adjacent_duplicates_elems by done. cbv zeta.
  pose proof (mad_inv_fold ds [] mad_init Hpos eq_refl) as Hinv.
  rewrite shortest_repeat_alt. unfold run_lengths.
  rewrite fmap_reverse, existsb_reverse, min_long_reverse.
  destruct (fold_left push_run ds []) as [|[e n] r]; [simpl in Hinv; by rewrite Hinv|].
  rewrite (close_run_min_long _ _ _ _ Hinv). destruct Hinv as (_ & _ & _ & _ & ->). done.
Qed.

Lemma min_adjacent_duplicates_spec_witness :
  Forall (fun d => 0 <= d) [1; 1; 2; 2; 2; 3] /\
  min_adjacent_duplicates [1; 1; 2; 2; 2; 3] = Ok (shortest_repeat [1; 1; 2; 2; 2; 3]).
Proof.
  assert (H : Forall (fun d => 0 <= d) [1; 1; 2; 2; 2; 3]) by (repeat constructor; lia).
  split; [exact H | exact (min_adjacent_duplicates_spec _ H)].
Defined.

(** ** [is_increasing] and the rules of [main] *)

Lemma never_decreases_cons2 a b l :
  never_decreases (a :: b :: l) = (a <=? b) && never_decreases (b :: l).
Proof. done. Qed.

Lemma is_increasing_loop_drop ds :
  forall k n, (1 <= n)%nat -> (n + k = length ds)%nat ->
  is_increasing_loop ds (seqZ (Z.of_nat n) (Z.of_nat k)) = Ok (never_decreases (drop (n - 1) ds)).
Proof.
  intros k. induction k as [|k IH]; intros n Hn Hlen.
  - rewrite seqZ_nil by lia. destruct (drop (n - 1) ds) as [|a [|b l]] eqn:Hd; [done|done|].
    apply (f_equal length) in Hd. rewrite length_drop in Hd. simpl in Hd. lia.
  - destruct (lookup_lt_is_Some_2 ds n) as [d Hd]; [lia|].
    destruct (lookup_lt_is_Some_2 ds (n - 1)) as [p Hp]; [lia|].
    rewrite seqZ_succ. cbn [is_increasing_loop].
    rewrite (py_get_lookup _ _ _ Hd).
    replace (Z.of_nat n - 1) with (Z.of_nat (n - 1)) by lia. rewrite (py_get_lookup _ _ _ Hp).
    rewrite (drop_S _ p) by done. replace (S (n - 1)) with n by lia.
    rewrite (drop_S _ d), never_decreases_cons2 by done.
    destruct (Z.ltb_spec d p); [rewrite (proj2 (Z.leb_gt p d)) by lia; done|].
    rewrite (proj2 (Z.leb_le p d)) by lia. simpl.
    replace (d :: drop (S n) ds) with (drop (S n - 1) ds) by (simpl; rewrite Nat.sub_0_r; by apply drop_S).
    apply IH; lia.
Qed.

Lemma is_increasing_spec ds : is_increasing ds = Ok (never_decreases ds).
Proof.
  destruct ds as [|d ds]; [done|]. unfold is_increasing.
  replace (Z.of_nat (length (d :: ds)) - 1) with (Z.of_nat (length ds)) by (simpl; lia).
  apply (is_increasing_loop_drop _ (length ds) 1); simpl; lia.
Qed.

Lemma min_long_ge2 ns : 2 <= min_long ns.
Proof.
  unfold min_long. induction ns as [|n ns IH]; simpl; [lia|].
  rewrite filter_cons. destruct (decide (2 <= n)%nat); [rewrite fmap_cons; cbn [foldr]|]; lia.
Qed.

Lemma min_long_two ns : min_long ns = 2 <-> existsb (fun n => n =? 2)%nat ns = true.
Proof.
  induction ns as [|n ns IH]; [done|]. cbn [existsb]. rewrite orb_true_iff, Nat.eqb_eq, <- IH.
  pose proof (min_long_ge2 ns). unfold min_long in *. rewrite filter_cons.
  destruct (decide (2 <= n)%nat); [rewrite fmap_cons; cbn [foldr]|]; lia.
Qed.

(** The rules of part 1 and part 2 on the digits of a number. *)
Definition part1_rule (ds : list Z) : bool := never_decreases ds && has_double ds.
Definition part2_rule (ds : list Z) : bool := never_decreases ds && has_exact_double ds.

Lemma count_password_rules counts i :
  count_password counts i =
    Ok (if part1_rule (get_digits i) then counts.1 + 1 else counts.1,
        if part2_rule (get_digits i) then counts.2 + 1 else counts.2).
Proof.
  unfold count_password, part1_rule, part2_rule. rewrite is_increasing_spec.
  destruct (never_decreases _); simpl; [|by destruct counts].
  rewrite min_adjacent_duplicates_spec.
  2:{ destruct (proj1 (canonical_spec _) (get_digits_canonical i)) as [Hf _].
      eapply Forall_impl; [exact Hf|]. simpl. lia. }
  simpl. rewrite shortest_repeat_alt. unfold has_double, has_exact_double.
  pose proof (min_long_ge2 (run_lengths (get_digits i))).
  destruct (existsb (fun n => 2 <=? n)%nat _) eqn:Hd.
  - replace (2 <=? min_long _) with true by lia.
    destruct (existsb (fun n => n =? 2)%nat _) eqn:He.
    + by rewrite (proj2 (min_long_two _) He), Z.eqb_refl.
    + replace (min_long _ =? 2) with false; [done|].
      symmetry. apply Z.eqb_neq. rewrite min_long_two. congruence.
  - replace (existsb (fun n => n =? 2)%nat _) with false; [done|].
    symmetry. apply not_true_iff_false. intros He. apply existsb_exists in He as (n & Hin & Hn).
    apply Nat.eqb_eq in Hn. subst n. apply not_true_iff_false in Hd. apply Hd, existsb_exists.
    exists 2%nat. done.
Qed.

Lemma count_passwords_fold l a b :
  result_fold_left count_password l (a, b) =
    Ok (a + Z.of_nat (length (filter (fun i => part1_rule (get_digits i) = true) l)),
        b + Z.of_nat (length (filter (fun i => part2_rule (get_digits i) = true) l))).
Proof.
  revert a b. induction l as [|i l IH]; intros a b; simpl; [f_equal; f_equal; lia|].
  rewrite count_password_rules, !filter_cons. cbn [fst snd result_fold_left]. rewrite IH.
  destruct (part1_rule _), (part2_rule _); simpl; repeat case_decide; try done; f_equal; f_equal; lia.
Qed.

(** C18: [main] counts exactly the numbers of [range(lower_bound,
    upper_bound + 1)] whose digits never decrease and contain two equal
    adjacent digits (part 1), resp. two equal adjacent digits that are
    not part of a larger group (part 2). *)
Theorem count_passwords_spec lower_bound upper_bound :
  count_passwords lower_bound upper_bound =
    Ok (Z.of_nat (length (filter (fun i => part1_rule (get_digits i) = true)
                           (seqZ lower_bound (upper_bound + 1 - lower_bound)))),
        Z.of_nat (length (filter (fun i => part2_rule (get_digits i) = true)
                           (seqZ lower_bound (upper_bound + 1 - lower_bound))))).
Proof. unfold count_passwords. by rewrite count_passwords_fold. Qed.

(** The puzzle's examples: 111111 and 112233 pass, 223450 decreases,
    123789 has no double, 123444's only double is part of a group of
    three, 111122 passes part 2 through its 22. *)
Example password_examples :
  map (fun v => (part1_rule (get_digits v), part2_rule (get_digits v)))
    [111111; 223450; 123789; 112233; 123444; 111122] =
  [(true, false); (false, false); (false, false); (true, true); (true, false); (true, true)].
Proof. reflexivity. Qed.
