(* ===== verification/Image.v ===== *)
(** * Image: the space image format of [src/day-08.py]

    [main] cuts the digit string into [len(input) // (25 * 6)] layers of
    [25 * 6] pixels by subscripting the input; part 1 keeps the first
    layer with the fewest 0 digits ([min_zeroes], starting from
    [sys.maxsize]) and multiplies its counts of 1 and 2 digits; part 2
    prints, for each pixel, a space or an [X] for the first layer whose
    pixel is not 2 (transparent).  Subscripts are [Memory.py_get] in the
    result monad; [min_zeroes_layer] is an option, [None] when there are
    no layers, and iterating it raises [TypeError].  The printed text of
    part 2 is a [string].

    The theorems: the layers partition the input; part 1 uses the first
    layer with the fewest zeros; part 2 prints the pixelwise overlay of
    the layers, the top layer first. *)

From S2P Require Import Prelude Memory.
From stdpp Require Import strings.
Local Open Scope Z_scope.

(** ** The code *)

Definition IMAGE_WIDTH : Z := 25.
Definition IMAGE_HEIGHT : Z := 6.

(** [[input[j + (i * IMAGE_WIDTH * IMAGE_HEIGHT)] for j in range(IMAGE_WIDTH * IMAGE_HEIGHT)]] *)
Definition layer_at (input : list Z) (i : Z) : result (list Z) :=
  result_mapM (fun j => py_get input (j + i * IMAGE_WIDTH * IMAGE_HEIGHT))
    (seqZ 0 (IMAGE_WIDTH * IMAGE_HEIGHT)).

(** [for i in range(len(input) // (IMAGE_WIDTH * IMAGE_HEIGHT)): layers.append(...)] *)
Definition layers (input : list Z) : result (list (list Z)) :=
  result_mapM (layer_at input) (seqZ 0 (Z.of_nat (length input) / (IMAGE_WIDTH * IMAGE_HEIGHT))).

(** [sys.maxsize] on a 64-bit build. *)
Definition maxsize : Z := 2 ^ 63 - 1.

(** [sum(1 for i in layer if i == v)] *)
Definition count_digit (v : Z) (layer : list Z) : Z := sumZ (fun i => if i =? v then 1 else 0) layer.

(** One iteration of [for layer in layers] with [min_zeroes] and
    [min_zeroes_layer]. *)
Definition min_zeroes_step (st : Z * option (list Z)) (layer : list Z) : Z * option (list Z) :=
  let num_zeroes := count_digit 0 layer in
  if num_zeroes <? st.1 then (num_zeroes, Some layer) else st.

Module Day08.

(** Part 1: [num_ones * num_twos] of [min_zeroes_layer]; iterating
    [None] raises. *)
Definition part1 (input : list Z) : result Z :=
  ls <- layers input ;;
  match (fold_left min_zeroes_step ls (maxsize, None)).2 with
  | Some layer => Ok (count_digit 1 layer * count_digit 2 layer)
  | None => Raise TypeError
  end.

(** [for layer in layers: if layer[layer_index] == 2: continue; if ... == 0:
    print(' ', end='') elif ... == 1: print('X', end=''); break]: what is
    printed for one pixel. *)
Fixpoint print_pixel (ls : list (list Z)) (layer_index : Z) : result string :=
  match ls with
  | [] => Ok ""
  | layer :: rest =>
      p <- py_get layer layer_index ;;
      if p =? 2 then print_pixel rest layer_index
      else Ok (if p =? 0 then " " else if p =? 1 then "X" else "")
  end.

(** [for j in range(IMAGE_WIDTH): ...] then [print()]. *)
Definition print_row (ls : list (list Z)) (out : string) (i : Z) : result string :=
  row <- result_fold_left (fun acc j =>
           s <- print_pixel ls (i * IMAGE_WIDTH + j) ;; Ok (String.append acc s))
         (seqZ 0 IMAGE_WIDTH) out ;;
  Ok (String.append row (String.String (Ascii.ascii_of_nat 10) "")).

(** Part 2: the text printed by [for i in range(IMAGE_HEIGHT)]. *)
Definition part2 (input : list Z) : result string :=
  ls <- layers input ;; result_fold_left (print_row ls) (seqZ 0 IMAGE_HEIGHT) "".

End Day08.
Import Day08.

(** ** Reference definitions *)

(** The [i]-th block of [IMAGE_WIDTH * IMAGE_HEIGHT] digits. *)
Definition chunk (input : list Z) (i : nat) : list Z := take 150 (drop (i * 150) input).

(** Layer [top] over layer [bottom]: a 2 in [top] lets [bottom] show. *)
Definition overlay (top bottom : list Z) : list Z :=
  zip_with (fun t b => if t =? 2 then b else t) top bottom.

(** The image: the layers overlaid, the first on top, over a
    transparent background. *)
Definition image (ls : list (list Z)) : list Z := foldr overlay (replicate 150 2) ls.

Definition pixel_text (v : Z) : string :=
  if v =? 0 then " " else if v =? 1 then "X" else "".

(** The text of an image, row by row. *)
Definition image_text (img : list Z) : string :=
  fold_left (fun out i =>
      String.append
        (fold_left (fun acc j => String.append acc (pixel_text (img !!! Z.to_nat (i * IMAGE_WIDTH + j))))
           (seqZ 0 IMAGE_WIDTH) out)
        (String.String (Ascii.ascii_of_nat 10) ""))
    (seqZ 0 IMAGE_HEIGHT) "".

(** ** The layers partition the input *)

Lemma py_get_window (input : list Z) (s off : Z) (n : nat) :
  0 <= s + off -> (Z.to_nat (s + off) + n <= length input)%nat ->
  result_mapM (fun j => py_get input (j + off)) (seqZ s (Z.of_nat n)) =
    Ok (take n (drop (Z.to_nat (s + off)) input)).
Proof.
  revert s. induction n as [|n IH]; intros s Hs Hlen; [by rewrite seqZ_nil by lia|].
  destruct (lookup_lt_is_Some_2 input (Z.to_nat (s + off))) as [x Hx]; [lia|].
  rewrite seqZ_cons by lia. cbn [result_mapM].
  rewrite <- (Z2Nat.id (s + off)) at 1 by lia. rewrite (py_get_lookup _ _ _ Hx).
  replace (Z.pred (Z.of_nat (S n))) with (Z.of_nat n) by lia.
  rewrite IH by lia. rewrite (drop_S _ x (Z.to_nat (s + off))) by done.
  replace (Z.to_nat (Z.succ s + off)) with (S (Z.to_nat (s + off))) by lia. done.
Qed.

Lemma layer_at_chunk input (i : nat) :
  ((i + 1) * 150 <= length input)%nat -> layer_at input (Z.of_nat i) = Ok (chunk input i).
Proof.
  intros Hi. unfold layer_at, chunk, IMAGE_WIDTH, IMAGE_HEIGHT.
  change (25 * 6) with (Z.of_nat 150).
  rewrite py_get_window by lia. do 3 f_equal. lia.
Qed.

Lemma layers_chunks input :
  layers input = Ok (chunk input <$> seq 0 (length input / 150)).
Proof.
  unfold layers. change (IMAGE_WIDTH * IMAGE_HEIGHT) with (Z.of_nat 150).
  rewrite <- Nat2Z.inj_div.
  rewrite (result_mapM_Ok _ (fun i => chunk input (Z.to_nat i))).
  - f_equal. unfold seqZ. rewrite Nat2Z.id, <- list_fmap_compose. apply list_fmap_ext.
    intros _ i _. simpl. f_equal. lia.
  - intros i Hi. apply elem_of_seqZ in Hi.
    rewrite <- (Z2Nat.id i) at 1 by lia. apply layer_at_chunk.
    pose proof (Nat.Div0.mul_div_le (length input) 150). lia.
Qed.

Lemma chunk_length input i : ((i + 1) * 150 <= length input)%nat -> length (chunk input i) = 150%nat.
Proof. intros Hi. unfold chunk. rewrite length_take, length_drop. lia. Qed.

Lemma concat_chunks input k :
  (k * 150 <= length input)%nat -> concat (chunk input <$> seq 0 k) = take (k * 150) input.
Proof.
  induction k as [|k IH]; intros Hk; [done|].
  rewrite seq_S, fmap_app, concat_app, IH by lia. simpl. rewrite app_nil_r.
  unfold chunk. rewrite take_take_drop. f_equal. lia.
Qed.

(** C37: the layers partition the input.  [layers] never raises; it
    returns [len(input) // 150] layers of 150 digits each, which
    concatenated give the input without its incomplete last block. *)
Theorem layers_partition input :
  exists ls, layers input = Ok ls /\ length ls = (length input / 150)%nat /\
    Forall (fun l => length l = 150%nat) ls /\ concat ls = take (length ls * 150) input.
Proof.
  pose proof (Nat.Div0.mul_div_le (length input) 150) as Hle.
  eexists. split_and!; [apply layers_chunks | by rewrite length_fmap, length_seq | |].
  - apply Forall_fmap, Forall_forall. intros i Hi. apply list_elem_of_In, in_seq in Hi.
    simpl. apply chunk_length. nia.
  - rewrite length_fmap, length_seq. apply concat_chunks. lia.
Qed.

(** ** Part 1 keeps the first layer with the fewest zeros *)

Lemma count_digit_le v l : count_digit v l <= Z.of_nat (length l).
Proof. induction l as [|a l IH]; unfold count_digit in *; simpl; [lia|]. case_match; lia. Qed.

Lemma min_zeroes_fold ls :
  Forall (fun l => count_digit 0 l < maxsize) ls -> ls <> [] ->
  exists k L, ls !! k = Some L /\
    fold_left min_zeroes_step ls (maxsize, None) = (count_digit 0 L, Some L) /\
    (forall k' L', ls !! k' = Some L' -> count_digit 0 L <= count_digit 0 L') /\
    (forall k' L', (k' < k)%nat -> ls !! k' = Some L' -> count_digit 0 L < count_digit 0 L').
Proof.
  induction ls as [|x p IH] using rev_ind; [done|]. intros Hall _.
  apply Forall_app in Hall as [Hp Hx]. rewrite Forall_singleton in Hx.
  rewrite fold_left_app. cbn [fold_left].
  destruct (decide (p = [])) as [->|Hne].
  - cbn [fold_left]. unfold min_zeroes_step. cbn [fst]. rewrite (proj2 (Z.ltb_lt _ _) Hx). exists 0%nat, x. split_and!; [done|done| |].
    + intros [|k'] L' HL; simplify_eq/=; lia.
    + lia.
  - destruct (IH Hp Hne) as (k & L & HL & -> & Hmin & Hfirst). unfold min_zeroes_step. cbn [fst].
    destruct (Z.ltb_spec (count_digit 0 x) (count_digit 0 L)) as [Hlt|Hge].
    + exists (length p), x. split_and!; [by rewrite lookup_app_r, Nat.sub_diag by lia|done| |].
      * intros k' L' HL'. apply lookup_app_Some in HL' as [HL'|[_ HL']];
          [specialize (Hmin _ _ HL'); lia|].
        apply list_lookup_singleton_Some in HL' as [_ <-]. lia.
      * intros k' L' Hk' HL'. rewrite lookup_app_l in HL' by done. specialize (Hmin _ _ HL'). lia.
    + exists k, L. split_and!; [by apply lookup_app_l_Some|done| |].
      * intros k' L' HL'. apply lookup_app_Some in HL' as [HL'|[_ HL']]; [by eauto|].
        apply list_lookup_singleton_Some in HL' as [_ <-]. lia.
      * intros k' L' Hk' HL'. apply (Hfirst k'); [done|].
        rewrite lookup_app_l in HL'; [done|]. apply lookup_lt_Some in HL. lia.
Qed.

(** C20: part 1 keeps the first layer with the fewest zeros.  When the
    input holds no complete layer, [min_zeroes_layer] stays [None] and
    part 1 raises [TypeError]; otherwise it answers the count of 1s
    times the count of 2s of a layer [L] with no more zeros than any
    layer and strictly fewer than every layer before it. *)
Theorem part1_fewest_zeros input ls :
  layers input = Ok ls ->
  (ls = [] /\ part1 input = Raise TypeError) \/
  (exists k L, ls !! k = Some L /\ part1 input = Ok (count_digit 1 L * count_digit 2 L) /\
    (forall k' L', ls !! k' = Some L' -> count_digit 0 L <= count_digit 0 L') /\
    (forall k' L', (k' < k)%nat -> ls !! k' = Some L' -> count_digit 0 L < count_digit 0 L')).
Proof.
  intros Hls. unfold part1. rewrite Hls. cbv beta iota.
  destruct (decide (ls = [])) as [->|Hne]; [by left|right].
  pose proof (layers_chunks input) as Hc.
  assert (ls = chunk input <$> seq 0 (length input / 150)) as -> by congruence.
  destruct (min_zeroes_fold (chunk input <$> seq 0 (length input / 150))) as (k & L & HL & Hf & Hmin & Hfirst);
    [|done|].
  - apply Forall_fmap, Forall_forall. intros i Hi. simpl.
    pose proof (count_digit_le 0 (chunk input i)). unfold chunk in *. rewrite length_take in *.
    unfold maxsize. lia.
  - exists k, L. rewrite Hf. simpl. eauto.
Qed.

(** An input of two layers: the first without zeros, the second the
    top half dark and the bottom half lit. *)
Definition example_input : list Z := (replicate 75 2 ++ replicate 75 1) ++ (replicate 100 0 ++ replicate 50 1).

Lemma part1_fewest_zeros_witness :
  layers example_input = Ok (chunk example_input <$> seq 0 2) /\
  ((chunk example_input <$> seq 0 2) = [] /\ part1 example_input = Raise TypeError \/
   (exists k L, (chunk example_input <$> seq 0 2) !! k = Some L /\
      part1 example_input = Ok (count_digit 1 L * count_digit 2 L) /\
      (forall k' L', (chunk example_input <$> seq 0 2) !! k' = Some L' -> count_digit 0 L <= count_digit 0 L') /\
      (forall k' L', (k' < k)%nat -> (chunk example_input <$> seq 0 2) !! k' = Some L' ->
         count_digit 0 L < count_digit 0 L'))).
Proof.
  assert (H : layers example_input = Ok (chunk example_input <$> seq 0 2)) by (vm_compute; reflexivity).
  split; [exact H | exact (part1_fewest_zeros _ _ H)].
Defined.

(** ** Part 2 prints the overlay of the layers *)

Lemma image_length ls : Forall (fun l => length l = 150%nat) ls -> length (image ls) = 150%nat.
Proof.
  induction 1 as [|l ls Hl _ IH]; [done|]. simpl. unfold overlay. rewrite length_zip_with. lia.
Qed.

Lemma print_pixel_image ls k :
  Forall (fun l => length l = 150%nat) ls -> 0 <= k < 150 ->
  print_pixel ls k = Ok (pixel_text (image ls !!! Z.to_nat k)).
Proof.
  intros Hls Hk. induction Hls as [|l ls Hl Hls IH]; cbn [print_pixel].
  - unfold image. cbn [foldr]. by rewrite lookup_total_replicate_2 by lia.
  - destruct (lookup_lt_is_Some_2 l (Z.to_nat k)) as [x Hx]; [lia|].
    destruct (lookup_lt_is_Some_2 (image ls) (Z.to_nat k)) as [y Hy]; [rewrite image_length; [lia|done]|].
    change (image (l :: ls)) with (overlay l (image ls)).
    rewrite <- (Z2Nat.id k) at 1 by lia. rewrite (py_get_lookup _ _ _ Hx).
    rewrite (list_lookup_total_correct (overlay l (image ls)) (Z.to_nat k) (if x =? 2 then y else x)).
    2:{ unfold overlay. by rewrite lookup_zip_with, Hx, Hy. }
    cbn beta iota.
    destruct (x =? 2); [by rewrite IH, (list_lookup_total_correct _ _ _ Hy)|done].
Qed.

(** C19: part 2 prints the overlay of the layers.  The first-non-2 search
    of [main] over the layers, pixel by pixel and row by row, prints the
    text of the image obtained by laying each layer over the ones after
    it: a space for 0, an [X] for 1, and nothing for a pixel that stays
    2 (or holds another digit). *)
Theorem part2_overlay input :
  part2 input = (ls <- layers input ;; Ok (image_text (image ls))).
Proof.
  destruct (layers_partition input) as (ls & Hls & _ & Hlen & _).
  unfold part2, image_text. rewrite Hls. cbv beta iota.
  apply result_fold_left_Ok. intros out i Hi. apply elem_of_seqZ in Hi.
  unfold print_row. rewrite (result_fold_left_Ok _
    (fun acc j => String.append acc (pixel_text (image ls !!! Z.to_nat (i * IMAGE_WIDTH + j))))); [done|].
  intros acc j Hj. apply elem_of_seqZ in Hj. unfold IMAGE_WIDTH, IMAGE_HEIGHT in *.
  rewrite print_pixel_image by (done || lia). done.
Qed.

(** A pixel that is 2 in every layer prints nothing: the row comes out
    shorter than [IMAGE_WIDTH]. *)
Example transparent_rows :
  part2 (replicate 150 2) = Ok (String.String (Ascii.ascii_of_nat 10) (String.String (Ascii.ascii_of_nat 10)
    (String.String (Ascii.ascii_of_nat 10) (String.String (Ascii.ascii_of_nat 10)
    (String.String (Ascii.ascii_of_nat 10) (String.String (Ascii.ascii_of_nat 10) "")))))).
Proof. vm_compute. reflexivity. Qed.
