(* ===== verification/Orbits.v ===== *)
(** * Orbits: the orbit map of [src/day-06.py]

    [main] reads lines [target)source] into a dict [graph[source] =
    target]; [get_orbit_chain] follows the dict from a start object while
    the current object is a key, collecting the chain; [get_checksum]
    sums the chain lengths minus one over the keys, and
    [get_steps_to_santa] looks for the first object of YOU's chain that
    is on SAN's chain.  The dict is a [gmap string string]; the [while]
    loop has fuel and [None] means the fuel ran out; the implicit
    [return None] of [get_steps_to_santa] is the inner [None].

    The theorems: on an orbit map ranked by a measure that every orbit
    decreases, the chain loop ends within the rank of the start and
    returns the path to a root; on a map with a cycle it never ends. *)

From S2P Require Import Prelude.
From stdpp Require Import strings.
Local Open Scope Z_scope.

(** [graph[source] = target] for each line in turn. *)
Definition build_graph (orbits : list (string * string)) : gmap string string :=
  fold_left (fun g '(target, source) => <[source := target]> g) orbits ∅.

(** [while value in graph: chain.append(graph[value]); value = graph[value]] *)
Fixpoint orbit_chain_loop (fuel : nat) (graph : gmap string string) (value : string)
    (chain : list string) : option (list string) :=
  match graph !! value with
  | None => Some chain
  | Some next =>
      match fuel with
      | O => None
      | S fuel' => orbit_chain_loop fuel' graph next (chain ++ [next])
      end
  end.

(** [get_orbit_chain(graph, start)] *)
Definition get_orbit_chain (fuel : nat) (graph : gmap string string) (start : string)
    : option (list string) :=
  orbit_chain_loop fuel graph start [start].

(** [get_checksum(graph)]: [sum([len(get_orbit_chain(graph, x)) - 1 for x in graph])]. *)
Definition get_checksum (fuel : nat) (graph : gmap string string) : option Z :=
  foldr (fun x acc =>
      chain ← get_orbit_chain fuel graph x; s ← acc; Some (Z.of_nat (length chain) - 1 + s))
    (Some 0) (fst <$> map_to_list graph).

(** [for j, san_step in enumerate(san_chain): if you_step == san_step: return ...] *)
Fixpoint find_step (san_chain : list string) (you_step : string) (j : nat) : option nat :=
  match san_chain with
  | [] => None
  | san_step :: rest => if bool_decide (you_step = san_step) then Some j else find_step rest you_step (S j)
  end.

(** [for i, you_step in enumerate(you_chain): ...: return i + j - 2] *)
Fixpoint find_transfer (you_chain san_chain : list string) (i : nat) : option Z :=
  match you_chain with
  | [] => None
  | you_step :: rest =>
      match find_step san_chain you_step 0 with
      | Some j => Some (Z.of_nat i + Z.of_nat j - 2)
      | None => find_transfer rest san_chain (S i)
      end
  end.

(** [get_steps_to_santa(graph)] *)
Definition get_steps_to_santa (fuel : nat) (graph : gmap string string) : option (option Z) :=
  you_chain ← get_orbit_chain fuel graph "YOU";
  san_chain ← get_orbit_chain fuel graph "SAN";
  Some (find_transfer you_chain san_chain 0).

(** The puzzle's example, with YOU and SAN. *)
Definition example_orbits : list (string * string) :=
  [("COM", "B"); ("B", "C"); ("C", "D"); ("D", "E"); ("E", "F"); ("B", "G");
   ("G", "H"); ("D", "I"); ("E", "J"); ("J", "K"); ("K", "L"); ("K", "YOU"); ("I", "SAN")].

Example orbit_examples :
  get_checksum 20 (build_graph (take 11 example_orbits)) = Some 42 /\
  get_steps_to_santa 20 (build_graph example_orbits) = Some (Some 4).
Proof. split; vm_compute; reflexivity. Qed.

(** ** The chain loop ends on a ranked map and loops on a cycle *)

(** [path] is what the loop appends from [v]: each object orbits the one
    before it, and the last one orbits nothing. *)
Fixpoint orbit_path (graph : gmap string string) (v : string) (path : list string) : Prop :=
  match path with
  | [] => graph !! v = None
  | w :: p => graph !! v = Some w /\ orbit_path graph w p
  end.

Section Ranked.
Context (graph : gmap string string) (rank : string -> nat).
(** Every orbit decreases the rank: the map has no cycle. *)
Hypothesis Hrank : map_Forall (fun s t => rank t < rank s)%nat graph.

Lemma orbit_path_exists v : exists path, orbit_path graph v path.
Proof.
  remember (rank v) as n eqn:Hn. revert v Hn.
  induction n as [n IH] using (well_founded_induction lt_wf). intros v ->.
  destruct (graph !! v) as [w|] eqn:Hv; [|by exists []].
  destruct (IH (rank w)) with (v := w) as [p Hp]; [by apply (Hrank v w)|done|].
  by exists (w :: p).
Qed.

Lemma orbit_path_length v path : orbit_path graph v path -> (length path <= rank v)%nat.
Proof.
  revert v. induction path as [|w p IH]; intros v; simpl; [lia|].
  intros [Hv Hp]. specialize (IH w Hp). specialize (Hrank v w Hv). simpl in *. lia.
Qed.
End Ranked.

Lemma orbit_chain_loop_path graph v path fuel chain :
  orbit_path graph v path -> (length path <= fuel)%nat ->
  orbit_chain_loop fuel graph v chain = Some (chain ++ path).
Proof.
  revert v fuel chain. induction path as [|w p IH]; intros v fuel chain Hp Hf; simpl in Hp.
  - destruct fuel; simpl; rewrite Hp; by rewrite app_nil_r.
  - destruct Hp as [Hv Hp]. destruct fuel as [|fuel]; simpl in Hf; [lia|]. simpl. rewrite Hv.
    rewrite IH by (done || lia). by rewrite <- app_assoc.
Qed.

(** C22: the chain loop ends on a map without cycles.  When a rank
    decreases along every orbit, [get_orbit_chain] returns, for every
    fuel of at least the rank of the start, the start followed by the
    objects it orbits up to one that orbits nothing. *)
Theorem orbit_chain_terminates graph rank start :
  map_Forall (fun s t => rank t < rank s)%nat graph ->
  exists path, orbit_path graph start path /\
    forall fuel, (rank start <= fuel)%nat -> get_orbit_chain fuel graph start = Some (start :: path).
Proof.
  intros Hrank. destruct (orbit_path_exists graph rank Hrank start) as [path Hp].
  exists path. split; [done|]. intros fuel Hf. unfold get_orbit_chain.
  rewrite (orbit_chain_loop_path _ _ path); [done|done|]. pose proof (orbit_path_length graph rank Hrank start path Hp). lia.
Qed.

(** The depth of an object in the example, as a rank. *)
Definition example_rank (x : string) : nat :=
  match get_orbit_chain 20 (build_graph example_orbits) x with Some c => length c | None => 0 end.

Lemma orbit_chain_terminates_witness :
  map_Forall (fun s t => example_rank t < example_rank s)%nat (build_graph example_orbits) /\
  exists path, orbit_path (build_graph example_orbits) "YOU" path /\
    forall fuel, (example_rank "YOU" <= fuel)%nat ->
      get_orbit_chain fuel (build_graph example_orbits) "YOU" = Some ("YOU" :: path).
Proof.
  assert (H : map_Forall (fun s t => example_rank t < example_rank s)%nat (build_graph example_orbits))
    by (apply (bool_decide_eq_true _); vm_compute; reflexivity).
  split; [exact H | exact (orbit_chain_terminates _ _ "YOU" H)].
Defined.

(** Two objects orbiting each other make the [while] loop run forever:
    no fuel is enough. *)
Lemma orbit_chain_cycle graph a b :
  graph !! a = Some b -> graph !! b = Some a ->
  forall fuel, get_orbit_chain fuel graph a = None.
Proof.
  intros Ha Hb fuel. unfold get_orbit_chain. generalize [a]. revert a b Ha Hb.
  induction fuel as [|fuel IH]; intros a b Ha Hb chain; simpl; rewrite Ha; [done|]. by apply (IH b a).
Qed.
