(* ===== verification/Wires.v ===== *)
(** * Wires: the crossed wires of [src/day-03.py]

    Each wire is a list of steps [U7], [R6], ...; [main] walks the wire
    one unit at a time from [(0, 0)] by the vector of [moves[step[:1]]],
    recording in the dict [wire_points] the first distance at which each
    point is reached.  The crossings are the intersection of the wires'
    key sets; part 1 prints the smallest Manhattan distance of a
    crossing and part 2 the smallest sum of the two wires' distances.

    A step is a pair of its direction string and its count (the parsing
    [step[:1]], [int(step[1:])] of the text is not modelled); the dicts
    are [gmap]s and the set a [gset].  [None] is an exception: a
    [KeyError] for an unknown direction, or the [ValueError] of [min] on
    no crossing (or the [IndexError] of part 2 with fewer than two
    wires).

    The theorem: [wire_points] maps each point the wire reaches to the
    number of unit moves after which it first reaches it. *)

From S2P Require Import Prelude.
From stdpp Require Import strings gmap.
Local Open Scope Z_scope.

(** [moves = {'U': (0, 1), 'D': (0, -1), 'R': (1, 0), 'L': (-1, 0)}] *)
Definition moves : gmap string (Z * Z) :=
  <["U" := (0, 1)]> (<["D" := (0, -1)]> (<["R" := (1, 0)]> (<["L" := (-1, 0)]> ∅))).

(** The locals of the walk: [point], [distance], [wire_points]. *)
Record walk_state := mkWalk {
  point : Z * Z;
  distance : Z;
  wire_points : gmap (Z * Z) Z
}.

(** One iteration of [for _ in range(move_count)]. *)
Definition unit_move (mv : Z * Z) (st : walk_state) : walk_state :=
  let p := (st.(point).1 + mv.1, st.(point).2 + mv.2) in
  mkWalk p (st.(distance) + 1)
    (if decide (p ∈ dom st.(wire_points)) then st.(wire_points)
     else <[p := st.(distance)]> st.(wire_points)).

(** [for step in wire: move_dir = step[:1]; move_count = int(step[1:]); ...] *)
Fixpoint walk (wire : list (string * Z)) (st : walk_state) : option walk_state :=
  match wire with
  | [] => Some st
  | (move_dir, move_count) :: rest =>
      mv ← moves !! move_dir;
      walk rest (Nat.iter (Z.to_nat move_count) (unit_move mv) st)
  end.

(** [wire_points = {}; point = (0, 0); distance = 1] and the walk. *)
Definition trace_wire (wire : list (string * Z)) : option (gmap (Z * Z) Z) :=
  st ← walk wire (mkWalk (0, 0) 1 ∅); Some st.(wire_points).

(** [points]: one dict per wire. *)
Fixpoint trace_wires (wires : list (list (string * Z))) : option (list (gmap (Z * Z) Z)) :=
  match wires with
  | [] => Some []
  | w :: ws => wp ← trace_wire w; wps ← trace_wires ws; Some (wp :: wps)
  end.

(** [set.intersection] of the key sets of [points]; with no wire at all
    [set.intersection()] raises. *)
Definition intersections (points : list (gmap (Z * Z) Z)) : option (gset (Z * Z)) :=
  match points with
  | [] => None
  | p :: ps => Some (foldl (fun acc q => acc ∩ dom q) (dom p) ps)
  end.

(** [min(intersections, key=key)] gives an element with the least key;
    the printed value is that key.  An empty set raises ValueError. *)
Definition min_key (key : Z * Z -> Z) (s : gset (Z * Z)) : option Z :=
  match elements s with
  | [] => None
  | x :: xs => Some (foldr (fun y m => Z.min (key y) m) (key x) xs)
  end.

Definition manhattan (x : Z * Z) : Z := Z.abs x.1 + Z.abs x.2.

Module Day03.

(** Part 1 and part 2 of [main]. *)
Definition part1 (wires : list (list (string * Z))) : option Z :=
  points ← trace_wires wires; inter ← intersections points; min_key manhattan inter.

Definition part2 (wires : list (list (string * Z))) : option Z :=
  points ← trace_wires wires; inter ← intersections points;
  p0 ← points !! 0%nat; p1 ← points !! 1%nat;
  min_key (fun x => default 0 (p0 !! x) + default 0 (p1 !! x)) inter.

End Day03.
Import Day03.

(** The puzzle's first example. *)
Definition example_wires : list (list (string * Z)) :=
  [[("R", 8); ("U", 5); ("L", 5); ("D", 3)]; [("U", 7); ("R", 6); ("D", 4); ("L", 4)]].

Example wire_examples : part1 example_wires = Some 6 /\ part2 example_wires = Some 30.
Proof. split; vm_compute; reflexivity. Qed.

(** ** [wire_points] records the first visit of each point *)

(** The unit moves of a wire, in order ([None] for an unknown
    direction). *)
Fixpoint unit_moves (wire : list (string * Z)) : option (list (Z * Z)) :=
  match wire with
  | [] => Some []
  | (move_dir, move_count) :: rest =>
      mv ← moves !! move_dir; ms ← unit_moves rest; Some (replicate (Z.to_nat move_count) mv ++ ms)
  end.

(** The points reached after each unit move from [p]. *)
Fixpoint positions_from (p : Z * Z) (ms : list (Z * Z)) : list (Z * Z) :=
  match ms with
  | [] => []
  | m :: ms' => let p' := (p.1 + m.1, p.2 + m.2) in p' :: positions_from p' ms'
  end.

(** [wp] maps each point of [ps] to one more than the index of its first
    occurrence, and nothing else. *)
Definition first_visits (wp : gmap (Z * Z) Z) (ps : list (Z * Z)) : Prop :=
  forall p d, wp !! p = Some d <-> exists k, d = Z.of_nat (S k) /\ ps !! k = Some p /\ p ∉ take k ps.

Lemma iter_replicate {A B} (f : A -> B -> B) (n : nat) (a : A) (b : B) :
  Nat.iter n (f a) b = fold_left (fun b' a' => f a' b') (replicate n a) b.
Proof.
  revert b. induction n as [|n IH]; intros b; [done|].
  rewrite Nat.iter_succ_r. simpl. apply IH.
Qed.

Lemma walk_unit_moves wire st :
  walk wire st = (ms ← unit_moves wire; Some (fold_left (fun st' mv => unit_move mv st') ms st)).
Proof.
  revert st. induction wire as [|[move_dir move_count] rest IH]; intros st; [done|]. simpl.
  destruct (moves !! move_dir) as [mv|]; simpl; [|done]. rewrite IH, iter_replicate.
  destruct (unit_moves rest); simpl; [|done]. by rewrite fold_left_app.
Qed.

Lemma first_occurrence `{EqDecision A} (p : A) (l : list A) : p ∈ l -> exists k, l !! k = Some p /\ p ∉ take k l.
Proof.
  induction l as [|a l IH]; [set_solver|]. intros Hp.
  destruct (decide (p = a)) as [->|Hne]; [exists 0%nat; split; [done|set_solver]|].
  destruct IH as (k & Hk & Hn); [set_solver|]. exists (S k). simpl. split; [done|set_solver].
Qed.

Lemma first_visits_dom wp ps p : first_visits wp ps -> p ∈ ps -> p ∈ dom wp.
Proof.
  intros Hfv Hp. destruct (first_occurrence p ps Hp) as (k & Hk & Hn).
  apply elem_of_dom. exists (Z.of_nat (S k)). apply Hfv. eauto.
Qed.

(** The walk so far has visited [ps]: [point] is the last point,
    [distance] one more than the number of moves. *)
Definition walk_inv (ps : list (Z * Z)) (st : walk_state) : Prop :=
  point st = default (0, 0) (last ps) /\ distance st = Z.of_nat (S (length ps)) /\
  first_visits (wire_points st) ps.

Lemma first_visits_snoc wp ps p' d' :
  first_visits wp ps -> d' = Z.of_nat (S (length ps)) ->
  first_visits (if decide (p' ∈ dom wp) then wp else <[p' := d']> wp) (ps ++ [p']).
Proof.
  intros Hfv ->. intros p d. pose proof (Hfv p d) as Hpd.
  assert (Hold : forall k, (k < length ps)%nat ->
            ((ps ++ [p']) !! k = Some p /\ p ∉ take k (ps ++ [p'])) <-> (ps !! k = Some p /\ p ∉ take k ps)).
  { intros k Hk. by rewrite lookup_app_l, take_app_le by lia. }
  assert (Hnew : forall k, (ps ++ [p']) !! k = Some p -> (length ps <= k)%nat -> k = length ps /\ p = p').
  { intros k Hk Hle. apply lookup_app_Some in Hk as [Hk|[_ Hk]]; [apply lookup_lt_Some in Hk; lia|].
    apply list_lookup_singleton_Some in Hk as [? ->]. split; [lia|done]. }
  case_decide as Hin; [|destruct (decide (p = p')) as [->|Hne]].
  - rewrite Hpd. split; intros (k & -> & Hk); exists k; split; [done| |done|].
    + rewrite Hold; [done|]. exact (lookup_lt_Some _ _ _ (proj1 Hk)).
    + destruct (decide (k < length ps)%nat) as [Hlt|Hge]; [by rewrite <- Hold|].
      destruct Hk as [Hk Hn]. destruct (Hnew k Hk) as [-> ->]; [lia|].
      apply elem_of_dom in Hin as [d0 Hd0]. apply Hfv in Hd0 as (k0 & _ & Hk0 & _).
      exfalso. apply Hn. rewrite take_app_length. by apply list_elem_of_lookup_2 with k0.
  - rewrite lookup_insert_eq. split.
    + intros [= <-]. exists (length ps). split; [done|]. rewrite lookup_app_r, Nat.sub_diag, take_app_length by lia.
      split; [done|]. intros Hp. apply Hin, (first_visits_dom _ _ _ Hfv Hp).
    + intros (k & -> & Hk & Hn). destruct (decide (k < length ps)%nat) as [Hlt|Hge].
      * exfalso. apply Hin. destruct (proj1 (Hold k Hlt) (conj Hk Hn)) as [Hk' _].
        apply (first_visits_dom _ _ _ Hfv). by apply list_elem_of_lookup_2 with k.
      * destruct (Hnew k Hk) as [-> _]; [lia|]. done.
  - rewrite lookup_insert_ne by congruence. rewrite Hpd. split; intros (k & -> & Hk); exists k; split; [done| |done|].
    + rewrite Hold; [done|]. exact (lookup_lt_Some _ _ _ (proj1 Hk)).
    + destruct (decide (k < length ps)%nat) as [Hlt|Hge]; [by rewrite <- Hold|].
      destruct (Hnew k (proj1 Hk)) as [_ ->]; [lia|]. done.
Qed.

Lemma walk_inv_step ps st m :
  walk_inv ps st -> walk_inv (ps ++ [(st.(point).1 + m.1, st.(point).2 + m.2)]) (unit_move m st).
Proof.
  intros (Hp & Hd & Hfv). split_and!.
  - by rewrite last_snoc.
  - simpl. rewrite Hd, length_app. simpl. lia.
  - by apply first_visits_snoc.
Qed.

Lemma walk_inv_fold ms ps st :
  walk_inv ps st ->
  walk_inv (ps ++ positions_from st.(point) ms) (fold_left (fun st' mv => unit_move mv st') ms st).
Proof.
  revert ps st. induction ms as [|m ms IH]; intros ps st Hinv; simpl; [by rewrite app_nil_r|].
  rewrite cons_middle, app_assoc. apply IH. by apply walk_inv_step.
Qed.

(** C21: [wire_points] records first visits.  For a wire whose directions
    are all keys of [moves], the walk of [main] returns a dict that maps
    exactly the points the wire reaches, each to the number of unit
    moves after which it reaches that point for the first time. *)
Theorem trace_wire_first_visits wire ms :
  unit_moves wire = Some ms ->
  exists wp, trace_wire wire = Some wp /\ first_visits wp (positions_from (0, 0) ms).
Proof.
  intros Hms. unfold trace_wire. rewrite walk_unit_moves, Hms. simpl.
  eexists. split; [done|].
  destruct (walk_inv_fold ms [] (mkWalk (0, 0) 1 ∅)) as (_ & _ & Hfv); [|done].
  split_and!; [done|done|]. intros p d. cbn [wire_points]. rewrite lookup_empty. split; [done|].
  intros (k & _ & Hk & _). by rewrite lookup_nil in Hk.
Qed.

Lemma trace_wire_first_visits_witness :
  unit_moves [("R", 8); ("U", 5)] = Some (replicate 8 (1, 0) ++ replicate 5 (0, 1)) /\
  exists wp, trace_wire [("R", 8); ("U", 5)] = Some wp /\
    first_visits wp (positions_from (0, 0) (replicate 8 (1, 0) ++ replicate 5 (0, 1))).
Proof.
  assert (H : unit_moves [("R", 8); ("U", 5)] = Some (replicate 8 (1, 0) ++ replicate 5 (0, 1)))
    by (vm_compute; reflexivity).
  split; [exact H | exact (trace_wire_first_visits _ _ H)].
Defined.
