(* ===== verification/Asteroids.v ===== *)
(** * Asteroids: part 1 of the monitoring station of [src/day-10.py]

    [main] lists the asteroids of the map ([Asteroid(x, y)] for every
    [#]), then for each asteroid counts the distinct values of
    [math.atan2(target.y - asteroid.y, target.x - asteroid.x)] over the
    targets, and keeps the first asteroid with the largest count.

    [math.atan2] on floats is not modelled as a computation: the section
    takes it as a function into any type of angles with decidable
    equality, with the two facts of it the theorem uses: [atan2(0, 0)]
    is [0.0], the angle of a target straight to the right, and on a
    non-zero vector [atan2] is that angle exactly for the vectors
    pointing right.  [len(set(...))] is the length of the list without
    duplicates.

    The theorem: the list comprehension runs over [asteroids], not over
    [temp] (the copy without the asteroid itself, computed and unused),
    so the asteroid's own angle [atan2(0, 0)] is counted too: the count
    is one more than the number of directions of the other asteroids
    unless one of them lies straight to the right.  Part 2 (sorting the
    angles, the sweep) is in [Vaporize]. *)

From S2P Require Import Prelude.
From stdpp Require Import strings.
Local Open Scope Z_scope.

(** [Asteroid = namedtuple('Asteroid', 'x y')] *)
Record Asteroid := mkAsteroid { ax : Z; ay : Z }.

#[export] Instance Asteroid_eq_dec : EqDecision Asteroid.
Proof. solve_decision. Defined.

(** [[Asteroid(x, y) for y, line in enumerate(f.readlines()) for x,
    value in enumerate(line) if value == "#"]] *)
Definition parse_asteroids (lines : list string) : list Asteroid :=
  concat (imap (fun y line =>
      concat (imap (fun x value =>
          if bool_decide (String.String value "" = "#") then [mkAsteroid (Z.of_nat x) (Z.of_nat y)] else [])
        (String.list_ascii_of_string line)))
    lines).

Section Visibility.
Context {Angle : Type} `{EqDecision Angle} (atan2 : Z -> Z -> Angle).

(** [len(set([math.atan2(target.y - asteroid.y, target.x - asteroid.x)
    for target in asteroids]))] *)
Definition count_angles (asteroids : list Asteroid) (asteroid : Asteroid) : nat :=
  length (remove_dups ((fun target => atan2 (ay target - ay asteroid) (ax target - ax asteroid)) <$> asteroids)).

(** [if count > max_count: max_count = count; station = asteroid] *)
Definition station_step (asteroids : list Asteroid) (st : nat * option Asteroid) (asteroid : Asteroid)
    : nat * option Asteroid :=
  let count := count_angles asteroids asteroid in
  if (st.1 <? count)%nat then (count, Some asteroid) else st.

(** The angles of the targets other than [asteroid], as [temp] would give. *)
Definition other_angles (asteroids : list Asteroid) (asteroid : Asteroid) : list Angle :=
  (fun target => atan2 (ay target - ay asteroid) (ax target - ax asteroid))
    <$> filter (fun t => t <> asteroid) asteroids.

(** [math.atan2(0, 0)] is [0.0], the angle [math.atan2(0, 1)]. *)
Hypothesis atan2_origin : atan2 0 0 = atan2 0 1.
(** On a non-zero vector, [atan2] is [0.0] exactly when the vector
    points straight to the right. *)
Hypothesis atan2_right : forall dy dx, (dy, dx) <> (0, 0) -> atan2 dy dx = atan2 0 1 <-> dy = 0 /\ 0 < dx.

Lemma length_remove_dups_same (l k : list Angle) :
  (forall x, x ∈ l <-> x ∈ k) -> length (remove_dups l) = length (remove_dups k).
Proof.
  intros H. apply Permutation_length, NoDup_Permutation; [apply NoDup_remove_dups..|].
  intros x. rewrite !elem_of_remove_dups. apply H.
Qed.

Lemma angles_split asteroids asteroid x :
  asteroid ∈ asteroids ->
  x ∈ (fun target => atan2 (ay target - ay asteroid) (ax target - ax asteroid)) <$> asteroids <->
  x = atan2 0 1 \/ x ∈ other_angles asteroids asteroid.
Proof.
  intros Hin. unfold other_angles. rewrite !list_elem_of_fmap. split.
  - intros (t & -> & Ht). destruct (decide (t = asteroid)) as [->|Hne].
    + left. rewrite !Z.sub_diag. apply atan2_origin.
    + right. exists t. split; [done|]. by apply list_elem_of_filter.
  - intros [->|(t & -> & Ht)].
    + exists asteroid. split; [|done]. rewrite !Z.sub_diag. by rewrite atan2_origin.
    + apply list_elem_of_filter in Ht as [_ Ht]. eauto.
Qed.

(** C38: each asteroid counts itself.  The count of [main] for an
    asteroid of the map is the number of directions of the other
    asteroids, plus one unless one of them lies straight to the right:
    the asteroid's own [atan2(0, 0) = 0.0] is in the set. *)
Theorem count_angles_self asteroids asteroid :
  asteroid ∈ asteroids ->
  count_angles asteroids asteroid =
    (length (remove_dups (other_angles asteroids asteroid)) +
     if existsb (fun t => bool_decide (t <> asteroid) && (ay t =? ay asteroid)%Z && (ax asteroid <? ax t)%Z) asteroids
     then 0 else 1)%nat.
Proof.
  intros Hin. unfold count_angles.
  destruct (existsb _ asteroids) eqn:Hex.
  - apply existsb_exists in Hex as (t & Ht & Hc). apply list_elem_of_In in Ht.
    rewrite !andb_true_iff, bool_decide_eq_true, Z.eqb_eq, Z.ltb_lt in Hc. destruct Hc as [[Hne Hy] Hx].
    rewrite Nat.add_0_r. apply length_remove_dups_same. intros x. rewrite angles_split by done.
    split; [|by right]. intros [->|?]; [|done].
    unfold other_angles. apply list_elem_of_fmap. exists t. split; [|by apply list_elem_of_filter].
    symmetry. apply atan2_right; [intros [= ? ?]; lia|lia].
  - rewrite (length_remove_dups_same _ (atan2 0 1 :: other_angles asteroids asteroid)).
    2:{ intros x. rewrite angles_split by done. set_solver. }
    assert (Hnot : atan2 0 1 ∉ other_angles asteroids asteroid).
    2:{ simpl. destruct (decide_rel _ _ _); [done|simpl; lia]. }
    unfold other_angles. rewrite list_elem_of_fmap. intros (t & Heq & Ht).
    apply list_elem_of_filter in Ht as [Hne Ht].
    assert (Hv : (ay t - ay asteroid, ax t - ax asteroid) <> (0, 0)).
    { intros [= Hy Hx]. apply Hne. destruct t, asteroid; simpl in *. f_equal; lia. }
    symmetry in Heq. apply (atan2_right _ _ Hv) in Heq as [Hy Hx]. apply not_true_iff_false in Hex. apply Hex.
    apply existsb_exists. exists t. split; [by apply list_elem_of_In|].
    rewrite !andb_true_iff, bool_decide_eq_true, Z.eqb_eq, Z.ltb_lt. split_and!; [done|lia|lia].
Qed.
End Visibility.

Module Day10.
(** Part 1: [max_count] and [station] after the loop. *)
Definition part1 {Angle : Type} `{EqDecision Angle} (atan2 : Z -> Z -> Angle)
    (asteroids : list Asteroid) : nat * option Asteroid :=
  fold_left (station_step atan2 asteroids) asteroids (0%nat, None).
End Day10.
Import Day10.

(** The example map of the puzzle with 8 as the best count. *)
Definition example_map : list string :=
  [".#..#"; "....."; "#####"; "....#"; "...##"].

(** The exact angle of a vector as its direction: the vector divided by
    the gcd of its coordinates; [(0, 0)] has the angle of [(0, 1)], as
    [math.atan2(0, 0) == math.atan2(0, 1) == 0.0]. *)
Definition exact_angle (dy dx : Z) : Z * Z :=
  if (dy =? 0) && (dx =? 0) then (0, 1) else (dy / Z.gcd dy dx, dx / Z.gcd dy dx).

Lemma exact_angle_right dy dx :
  (dy, dx) <> (0, 0) -> exact_angle dy dx = exact_angle 0 1 <-> dy = 0 /\ 0 < dx.
Proof.
  intros Hv. assert (E1 : exact_angle 0 1 = (0, 1)) by reflexivity. rewrite E1.
  unfold exact_angle. replace ((dy =? 0) && (dx =? 0)) with false.
  2:{ symmetry. apply not_true_iff_false. rewrite andb_true_iff, !Z.eqb_eq. intros [-> ->]. done. }
  simpl. assert (Hg : 0 < Z.gcd dy dx).
  { destruct (Z.eq_dec (Z.gcd dy dx) 0) as [E|E]; [apply Z.gcd_eq_0 in E; naive_solver|].
    pose proof (Z.gcd_nonneg dy dx). lia. }
  split.
  - intros [= Hy Hx]. destruct (Z.gcd_divide_l dy dx) as [k Hk], (Z.gcd_divide_r dy dx) as [m Hm].
    set (g := Z.gcd dy dx) in *. clearbody g.
    rewrite Hk, Z.div_mul in Hy by lia. rewrite Hm, Z.div_mul in Hx by lia. subst. lia.
  - intros [-> Hx]. rewrite Z.gcd_0_l, Z.abs_eq by lia. rewrite Z.div_0_l, Z.div_same by lia. done.
Qed.

Lemma count_angles_self_witness :
  exact_angle 0 0 = exact_angle 0 1 /\
  (forall dy dx, (dy, dx) <> (0, 0) -> exact_angle dy dx = exact_angle 0 1 <-> dy = 0 /\ 0 < dx) /\
  mkAsteroid 4 0 ∈ parse_asteroids example_map /\
  count_angles exact_angle (parse_asteroids example_map) (mkAsteroid 4 0) =
    (length (remove_dups (other_angles exact_angle (parse_asteroids example_map) (mkAsteroid 4 0))) +
     if existsb (fun t => bool_decide (t <> mkAsteroid 4 0) && (ay t =? ay (mkAsteroid 4 0))%Z &&
                          (ax (mkAsteroid 4 0) <? ax t)%Z) (parse_asteroids example_map)
     then 0 else 1)%nat.
Proof.
  assert (H1 : exact_angle 0 0 = exact_angle 0 1) by reflexivity.
  assert (H3 : mkAsteroid 4 0 ∈ parse_asteroids example_map)
    by (apply (bool_decide_eq_true _); vm_compute; reflexivity).
  split_and!; [exact H1 | exact exact_angle_right | exact H3 |].
  exact (count_angles_self exact_angle H1 exact_angle_right _ _ H3).
Defined.

(** On the puzzle's example the best station is (3, 4), which sees 8
    asteroids; (4, 0) sees 7 but counts itself, reaches 8 first, and is
    the station [main] keeps. *)
Example example_station :
  part1 exact_angle (parse_asteroids example_map) = (8%nat, Some (mkAsteroid 4 0)) /\
  length (remove_dups (other_angles exact_angle (parse_asteroids example_map) (mkAsteroid 4 0))) = 7%nat /\
  length (remove_dups (other_angles exact_angle (parse_asteroids example_map) (mkAsteroid 3 4))) = 8%nat.
Proof. split_and!; vm_compute; reflexivity. Qed.
