(* ===== verification/Vaporize.v ===== *)
(** * Vaporize: part 2 of the monitoring station of [src/day-10.py]

    From the station part 1 chose, [main] maps every asteroid (the
    station among them) to its distance [((dy)**2 + (dx)**2)**(1/2)] and
    its angle [-1 * math.atan2(dy, dx)], groups the asteroids by angle in
    lists kept sorted by distance, sorts the angles, turns the sorted
    list so that the sweep starts straight up and goes clockwise (the
    [for i, angle in enumerate(ordered_angles)] loop), and runs the
    [while True] loop that pops the head of the list of the current
    angle and moves to the next angle, until 200 asteroids are removed.

    Floats are not computed: the section takes the angle and distance
    types as parameters, with the functions [main] applies and the
    comparisons it makes ([<] of floats, [math.pi / 2]).  Python's
    [sort] and [sorted] are stable, so any stable sort gives the list
    they give; insertion sort is used.  The dict [angles] is a function
    from angles to lists, updated at one key, as [append], [sort] and
    [pop(0)] update the list the dict holds.

    Theorems: the removal loop computes the 200th element of the
    round-robin sweep of the lists in [ordered_angles] order, and no
    fuel is enough when there are fewer than 200 asteroids; the sweep
    removes every asteroid of the map exactly once, the station
    included; and the turned list is clockwise from straight up only
    when some angle is greater than [math.pi / 2]. *)

From S2P Require Import Prelude Asteroids.
From Equations Require Import Equations.
From stdpp Require Import sorting strings.
Local Open Scope Z_scope.

(** ** Stable insertion sort, as [list.sort(key=...)] and [sorted] *)
Section Sort.
Context {A K : Type} (key : A -> K) (lt : K -> K -> bool).

(** [x] goes after every element whose key is smaller, before the
    others: among equal keys the earlier element stays first. *)
Fixpoint insert_by (x : A) (l : list A) : list A :=
  match l with
  | [] => [x]
  | y :: l' => if lt (key y) (key x) then y :: insert_by x l' else x :: l
  end.

Definition sort_by (l : list A) : list A := foldr insert_by [] l.

Lemma insert_by_perm x l : insert_by x l ≡ₚ x :: l.
Proof.
  induction l as [|y l IH]; simpl; [done|]. destruct (lt _ _); [|done].
  rewrite IH. apply perm_swap.
Qed.

Lemma sort_by_perm l : sort_by l ≡ₚ l.
Proof.
  induction l as [|x l IH]; simpl; [done|]. by rewrite insert_by_perm, IH.
Qed.

(** An element whose key is below every other key, and no other key
    below it, comes first. *)
Lemma sort_by_head `{EqDecision A} x l :
  x ∈ l -> (forall y, y ∈ l -> y <> x -> lt (key x) (key y) = true /\ lt (key y) (key x) = false) ->
  head (sort_by l) = Some x.
Proof.
  induction l as [|y l IH]; intros Hx Hmin; [by apply not_elem_of_nil in Hx|]. simpl.
  assert (Hmin' : forall z, z ∈ l -> z <> x -> lt (key x) (key z) = true /\ lt (key z) (key x) = false)
    by (intros z Hz; apply Hmin; by right).
  destruct (decide (x ∈ l)) as [Hin|Hnin].
  - destruct (sort_by l) as [|z rest] eqn:Hs; simpl in IH; pose proof (IH Hin Hmin') as Hz; [done|]. injection Hz as ->. simpl.
    destruct (lt (key x) (key y)) eqn:Hlt; [done|]. simpl. f_equal.
    destruct (decide (y = x)) as [|Hne]; [done|]. destruct (Hmin y ltac:(by left) Hne). congruence.
  - apply elem_of_cons in Hx as [<-|]; [|done].
    destruct (sort_by l) as [|z rest] eqn:Hs; [done|]. simpl.
    assert (Hz : z ∈ l) by (rewrite <- (sort_by_perm l), Hs; left).
    destruct (Hmin' z Hz) as [_ ->]; [by intros ->|]. done.
Qed.
End Sort.

(** ** Grouping a list by a key *)
Section Group.
Context {B K : Type} `{EqDecision K} (g : B -> K).

Lemma filter_all (P : B -> Prop) `{forall x, Decision (P x)} l : Forall P l -> filter P l = l.
Proof. induction 1; [done|]. rewrite filter_cons_True by done. by f_equal. Qed.

Lemma filter_none (P : B -> Prop) `{forall x, Decision (P x)} l : Forall (fun x => ~ P x) l -> filter P l = [].
Proof. induction 1; [done|]. by rewrite filter_cons_False. Qed.

(** The groups of [l] by [g], one per key of a list of distinct keys
    that covers every element, hold every element once. *)
Lemma join_groups keys l :
  NoDup keys -> (forall t, t ∈ l -> g t ∈ keys) ->
  mjoin ((fun k => filter (fun t => g t = k) l) <$> keys) ≡ₚ l.
Proof.
  intros Hnd. revert l. induction Hnd as [|k keys Hk Hnd IH]; intros l Hl.
  - destruct l as [|t l]; [done|]. exfalso. apply (not_elem_of_nil (g t)), Hl. by left.
  - rewrite fmap_cons. simpl.
    transitivity (filter (fun t => g t = k) l ++ filter (fun t => g t <> k) l); [|apply filter_app_complement].
    f_equiv.
    assert (E : (fun k' => filter (fun t => g t = k') l) <$> keys =
                (fun k' => filter (fun t => g t = k') (filter (fun t => g t <> k) l)) <$> keys).
    { apply list_fmap_ext. intros i k' Hk'. rewrite list_filter_filter.
      apply list_filter_iff. intros t. split; [|tauto]. intros ->. split; [done|].
      intros ->. apply Hk. by eapply list_elem_of_lookup_2. }
    rewrite E. apply IH.
    intros t [Hne Ht]%list_elem_of_filter. apply Hl in Ht. by apply elem_of_cons in Ht as [?|?].
Qed.

Lemma join_perm {C} (f f' : K -> list C) keys :
  (forall k, f k ≡ₚ f' k) -> mjoin (f <$> keys) ≡ₚ mjoin (f' <$> keys).
Proof. intros Hf. induction keys as [|k keys IH]; [done|]. simpl. by rewrite Hf, IH. Qed.
End Group.

(** ** The round-robin sweep: the reference *)
Section Sweep.
Context {A : Type}.

Definition total_length (bs : list (list A)) : nat := sum_list (length <$> bs).

Lemma total_length_cons b bs : total_length (b :: bs) = (length b + total_length bs)%nat.
Proof. done. Qed.

Lemma total_length_drop1_le bs : (total_length (drop 1 <$> bs) <= total_length bs)%nat.
Proof.
  induction bs as [|b bs IH]; [done|]. rewrite fmap_cons, !total_length_cons, length_drop. lia.
Qed.

Lemma total_length_drop1 bs :
  ~ Forall (fun b => b = []) bs -> (total_length (drop 1 <$> bs) < total_length bs)%nat.
Proof.
  induction bs as [|b bs IH]; intros Hne; [by destruct Hne|].
  rewrite fmap_cons, !total_length_cons, length_drop. destruct b as [|x b]; simpl.
  - apply IH. intros Hf. apply Hne. by constructor.
  - pose proof (total_length_drop1_le bs). lia.
Qed.

(** One round takes the head of every list in order; the rounds go on
    until every list is empty. *)
Equations? sweep (bs : list (list A)) : list A by wf (total_length bs) lt :=
  sweep bs with decide (Forall (fun b => b = []) bs) => {
    | left _ := [];
    | right Hne := (bs ≫= take 1) ++ sweep (drop 1 <$> bs) }.
Proof. by apply total_length_drop1. Qed.

Lemma bind_cons_take (b : list A) bs : ((b :: bs) ≫= take 1) = take 1 b ++ (bs ≫= take 1).
Proof. done. Qed.

Lemma join_cons_list (b : list A) bs : mjoin (b :: bs) = b ++ mjoin bs.
Proof. done. Qed.

Lemma all_empty_bind (bs : list (list A)) :
  Forall (fun b => b = []) bs -> (bs ≫= take 1) = [] /\ drop 1 <$> bs = bs.
Proof.
  induction 1 as [|b bs -> _ [IH1 IH2]]; [done|]. by rewrite bind_cons_take, fmap_cons, IH1, IH2.
Qed.

(** The sweep is one round followed by the sweep of what is left, also
    once every list is empty. *)
Lemma sweep_round bs : sweep bs = (bs ≫= take 1) ++ sweep (drop 1 <$> bs).
Proof.
  destruct (decide (Forall (fun b => b = []) bs)) as [Hall|Hne].
  - by destruct (all_empty_bind bs Hall) as [-> ->].
  - set (r := sweep (drop 1 <$> bs)). simp sweep. destruct (decide _); [done|]. simpl. by subst r.
Qed.

Lemma bind_take_drop (bs : list (list A)) : (bs ≫= take 1) ++ mjoin (drop 1 <$> bs) ≡ₚ mjoin bs.
Proof.
  induction bs as [|b bs IH]; [done|]. rewrite bind_cons_take, fmap_cons, !join_cons_list.
  rewrite <- (take_drop 1 b) at 3. rewrite <- IH, <- !app_assoc. f_equiv.
  by rewrite !app_assoc, (Permutation_app_comm (drop 1 b)).
Qed.

Lemma sweep_all_empty bs : Forall (fun b => b = []) bs -> sweep bs = [].
Proof. intros Hall. simp sweep. by destruct (decide _). Qed.

(** The sweep takes every element of every list once. *)
Lemma sweep_perm bs : sweep bs ≡ₚ mjoin bs.
Proof.
  remember (total_length bs) as n eqn:En. revert bs En.
  induction n as [n IH] using lt_wf_ind; intros bs ->.
  destruct (decide (Forall (fun b => b = []) bs)) as [Hall|Hne].
  - rewrite sweep_all_empty by done. clear IH. induction Hall as [|b bs -> _ IH]; [done|]. done.
  - rewrite sweep_round, (IH _ (total_length_drop1 _ Hne) _ eq_refl). apply bind_take_drop.
Qed.

(** What is left to remove when the loop is at position [i] of a round:
    the heads of the lists from [i] on, then the sweep of the rest. *)
Definition sweep_from (i : nat) (bs : list (list A)) : list A :=
  (drop i bs ≫= take 1) ++ sweep (take i bs ++ (drop 1 <$> drop i bs)).

Lemma sweep_from_all_empty i bs : Forall (fun b => b = []) bs -> sweep_from i bs = [].
Proof.
  intros Hall. unfold sweep_from.
  destruct (all_empty_bind (drop i bs)) as [-> ->]; [by apply Forall_drop|].
  rewrite take_drop. by apply sweep_all_empty.
Qed.

(** Something is left to remove only when some list is not empty. *)
Lemma sweep_from_nonempty i bs x n :
  sweep_from i bs !! n = Some x -> exists j b, bs !! j = Some b /\ b <> [].
Proof.
  intros Hx. destruct (decide (Forall (fun b => b = []) bs)) as [Hall|Hne].
  - by rewrite sweep_from_all_empty in Hx.
  - apply not_Forall_Exists, Exists_exists in Hne as (b & Hb & Hne); [|apply _].
    apply list_elem_of_lookup_1 in Hb as [j Hj]. eauto.
Qed.

Lemma sweep_from_0 bs : sweep_from 0 bs = sweep bs.
Proof. unfold sweep_from. rewrite drop_0, take_0. symmetry. apply sweep_round. Qed.

(** One iteration of the loop: the head of the list at [i], if any, then
    what is left from the next position with that list popped. *)
Lemma sweep_from_step i bs b :
  bs !! i = Some b ->
  sweep_from i bs = take 1 b ++ sweep_from (S i mod length bs) (<[i := drop 1 b]> bs).
Proof.
  intros Hi. pose proof (lookup_lt_Some _ _ _ Hi) as Hlt.
  assert (Hd : drop i bs = b :: drop (S i) bs) by (by rewrite (drop_S _ b)).
  assert (Ht : take (S i) (<[i := drop 1 b]> bs) = take i bs ++ [drop 1 b]).
  { rewrite (take_S_r _ _ (drop 1 b)); [|by rewrite list_lookup_insert_eq by lia].
    by rewrite take_insert_ge by lia. }
  unfold sweep_from. rewrite Hd. simpl. rewrite <- !app_assoc. f_equal.
  destruct (decide (S i = length bs)) as [E|E].
  - rewrite E, Nat.Div0.mod_same, drop_0, take_0, drop_all. simpl.
    rewrite <- sweep_round. f_equal. rewrite <- Ht, take_ge; [done|]. rewrite length_insert. lia.
  - rewrite Nat.mod_small by lia. rewrite drop_insert_lt by lia. f_equal. f_equal.
    rewrite Ht, <- app_assoc. done.
Qed.
End Sweep.

(** ** Part 2 of [main] *)
Section Station.
Context {Angle Dist : Type} `{EqDecision Angle}.
(** [-1 * math.atan2(dy, dx)] and [(dy**2 + dx**2)**(1/2)] of a vector. *)
Variable angle_of : Z -> Z -> Angle.
Variable dist_of : Z -> Z -> Dist.
(** [<] on the float values, and [math.pi / 2]. *)
Variable angle_lt : Angle -> Angle -> bool.
Variable dist_lt : Dist -> Dist -> bool.
Variable half_pi : Angle.

(** [asteroid_to_distance[target]] and [asteroid_to_angle[target]]. *)
Definition asteroid_to_distance (station target : Asteroid) : Dist :=
  dist_of (ay target - ay station) (ax target - ax station).
Definition asteroid_to_angle (station target : Asteroid) : Angle :=
  angle_of (ay target - ay station) (ax target - ax station).

(** [angles[asteroid_to_angle[asteroid]].append(asteroid)] followed by
    [.sort(key=lambda x: asteroid_to_distance[x])]: the dict's list at
    that angle is replaced, the others are untouched. *)
Definition add_to_angle (station : Asteroid) (angles : Angle -> list Asteroid) (asteroid : Asteroid)
    : Angle -> list Asteroid :=
  let a := asteroid_to_angle station asteroid in
  fun a' => if decide (a' = a)
            then sort_by (asteroid_to_distance station) dist_lt (angles a ++ [asteroid])
            else angles a'.

(** [angles = {angle: [] for angle in set(...)}] and the [for] loop over
    [asteroid_to_angle], whose keys are the asteroids in map order. *)
Definition build_angles (station : Asteroid) (asteroids : list Asteroid) : Angle -> list Asteroid :=
  fold_left (add_to_angle station) asteroids (fun _ => []).

(** [set(asteroid_to_angle.values())], the keys of [angles]. *)
Definition angle_keys (station : Asteroid) (asteroids : list Asteroid) : list Angle :=
  remove_dups (asteroid_to_angle station <$> asteroids).

(** [for i, angle in enumerate(ordered_angles): if angle > math.pi / 2:
    ordered_angles = list(reversed(ordered_angles[:i])) +
    list(reversed(ordered_angles[i:])); break] *)
Definition turn_angles (ordered : list Angle) : list Angle :=
  match list_find (fun a => angle_lt half_pi a = true) ordered with
  | Some (i, _) => rev (take i ordered) ++ rev (drop i ordered)
  | None => ordered
  end.

(** [ordered_angles], after the turn. *)
Definition ordered_angles (station : Asteroid) (asteroids : list Asteroid) : list Angle :=
  turn_angles (sort_by id angle_lt (angle_keys station asteroids)).

(** The [while True] loop: [angle = ordered_angles[i]; asteroids =
    angles[angle]; if len(asteroids) > 0: removed = asteroids.pop(0);
    removed_count += 1; if removed_count == 200: break;
    i = (i + 1) % len(ordered_angles)].  [pop(0)] mutates the list the
    dict holds.  [None]: the fuel ran out. *)
Fixpoint vaporize (fuel : nat) (ordered : list Angle) (i removed_count : nat)
    (removed : option Asteroid) (angles : Angle -> list Asteroid) : option (result Asteroid) :=
  match fuel with
  | O => None
  | S fuel' =>
      match ordered !! i with
      | None => Some (Raise (IndexError (Z.of_nat i)))
      | Some angle =>
          let '(removed_count', removed', angles') :=
            match angles angle with
            | r :: rest => (S removed_count, Some r, fun a' => if decide (a' = angle) then rest else angles a')
            | [] => (removed_count, removed, angles)
            end in
          if (removed_count' =? 200)%nat then
            Some (match removed' with Some r => Ok r | None => Raise UnboundLocalError end)
          else vaporize fuel' ordered (S i mod length ordered) removed_count' removed' angles'
      end
  end.

(** Part 2: [removed.x * 100 + removed.y] for the station of part 1. *)
Definition part2 (fuel : nat) (station : Asteroid) (asteroids : list Asteroid) : option (result Z) :=
  (fun r => removed <- r ;; Ok (ax removed * 100 + ay removed)) <$>
    vaporize fuel (ordered_angles station asteroids) 0 0 None (build_angles station asteroids).

Section Loop.
Variable ordered : list Angle.
Hypothesis ordered_nodup : NoDup ordered.

(** [asteroids.pop(0)] on the list the dict holds at [ordered[i]] is an
    update of the [i]-th list of the sweep, the angles being distinct. *)
Lemma pop_lists (angles : Angle -> list Asteroid) i a (rest : list Asteroid) :
  ordered !! i = Some a ->
  (fun a' => if decide (a' = a) then rest else angles a') <$> ordered = <[i := rest]> (angles <$> ordered).
Proof.
  intros Ha. apply list_eq. intros j. rewrite list_lookup_fmap.
  destruct (decide (j = i)) as [->|Hne].
  - rewrite list_lookup_insert_eq by (rewrite length_fmap; eapply lookup_lt_Some; eauto).
    rewrite Ha. simpl. by rewrite decide_True.
  - rewrite list_lookup_insert_ne, list_lookup_fmap by done.
    destruct (ordered !! j) as [a'|] eqn:Hj; [|done]. simpl. rewrite decide_False; [done|].
    intros ->. apply Hne. by eapply NoDup_lookup.
Qed.

Lemma next_index_lt i : (i < length ordered)%nat -> (S i mod length ordered < length ordered)%nat.
Proof. intros. apply Nat.mod_upper_bound. lia. Qed.

(** With fewer than 200 asteroids left to remove the loop never stops. *)
Lemma vaporize_short fuel : forall i c r angles,
  (i < length ordered)%nat -> (c + length (sweep_from i (angles <$> ordered)) < 200)%nat ->
  vaporize fuel ordered i c r angles = None.
Proof.
  induction fuel as [|fuel IH]; intros i c r angles Hi Hlen; [done|]. simpl.
  destruct (lookup_lt_is_Some_2 _ _ Hi) as [a Ha]. rewrite Ha.
  rewrite (sweep_from_step i _ (angles a)) in Hlen by (by rewrite list_lookup_fmap, Ha).
  rewrite length_fmap in Hlen.
  destruct (angles a) as [|x rest] eqn:Hb; simpl in Hlen.
  - rewrite list_insert_id in Hlen by (rewrite list_lookup_fmap, Ha; simpl; by rewrite Hb).
    replace (c =? 200)%nat with false by (symmetry; apply Nat.eqb_neq; lia).
    by apply IH; [apply next_index_lt|].
  - replace (S c =? 200)%nat with false by (symmetry; apply Nat.eqb_neq; lia).
    apply IH; [by apply next_index_lt|]. rewrite (pop_lists angles i a rest Ha). rewrite drop_0 in Hlen. lia.
Qed.

(** The loop moves over empty lists until it meets a non-empty one. *)
Lemma vaporize_skip n c r angles x :
  (c < 200)%nat ->
  (forall i a, (i < length ordered)%nat -> ordered !! i = Some a -> angles a <> [] ->
     sweep_from i (angles <$> ordered) !! n = Some x ->
     exists F, forall fuel, (F <= fuel)%nat -> vaporize fuel ordered i c r angles = Some (Ok x)) ->
  forall d i, (i < length ordered)%nat ->
  (exists b, (angles <$> ordered) !! ((i + d) mod length ordered)%nat = Some b /\ b <> []) ->
  sweep_from i (angles <$> ordered) !! n = Some x ->
  exists F, forall fuel, (F <= fuel)%nat -> vaporize fuel ordered i c r angles = Some (Ok x).
Proof.
  intros Hc Hne d. induction d as [|d IH]; intros i Hi Hb Hx;
    destruct (lookup_lt_is_Some_2 _ _ Hi) as [a Ha];
    (destruct (decide (angles a = [])) as [He|He]; [|by eapply Hne]).
  - destruct Hb as (b & Hb & Hbne). rewrite Nat.add_0_r, Nat.mod_small, list_lookup_fmap, Ha in Hb by done.
    simpl in Hb. congruence.
  - assert (Hs : sweep_from (S i mod length ordered) (angles <$> ordered) = sweep_from i (angles <$> ordered)).
    { rewrite (sweep_from_step i _ (angles a)) by (by rewrite list_lookup_fmap, Ha). rewrite He, length_fmap.
      simpl. by rewrite list_insert_id by (rewrite list_lookup_fmap, Ha; simpl; by rewrite He). }
    destruct (IH (S i mod length ordered)%nat) as [F HF]; [by apply next_index_lt| |by rewrite Hs|].
    { rewrite Nat.Div0.add_mod_idemp_l. by replace (S i + d)%nat with (i + S d)%nat by lia. }
    exists (S F). intros [|fuel] Hf; [lia|]. simpl. rewrite Ha, He.
    replace (c =? 200)%nat with false by (symmetry; apply Nat.eqb_neq; lia). apply HF. lia.
Qed.

(** With [n + 1] asteroids left to reach 200, the loop stops within
    finite fuel on the [n]-th element of what is left. *)
Lemma vaporize_reaches n : forall i c r angles x,
  (i < length ordered)%nat -> (c + n = 199)%nat ->
  sweep_from i (angles <$> ordered) !! n = Some x ->
  exists F, forall fuel, (F <= fuel)%nat -> vaporize fuel ordered i c r angles = Some (Ok x).
Proof.
  induction n as [|n IH]; intros i c r angles x Hi Hc Hx;
    destruct (sweep_from_nonempty _ _ _ _ Hx) as (j & b & Hj & Hb);
    pose proof (lookup_lt_Some _ _ _ Hj) as Hjl; rewrite length_fmap in Hjl;
    (revert Hx; apply (vaporize_skip _ c r angles x) with (d := (j + length ordered - i)%nat);
     [lia| |done|exists b; replace (i + (j + length ordered - i))%nat with (j + 1 * length ordered)%nat by lia;
       by rewrite Nat.Div0.mod_add, Nat.mod_small]);
    clear i Hi; intros i a Hi Ha Hne Hx; destruct (angles a) as [|y rest] eqn:Hy; try done;
    rewrite (sweep_from_step i _ (y :: rest)) in Hx by (rewrite list_lookup_fmap, Ha; simpl; by rewrite Hy).
  - simpl in Hx. injection Hx as ->. exists 1%nat. intros [|fuel] Hf; [lia|]. simpl. rewrite Ha, Hy.
    by replace (S c =? 200)%nat with true by (symmetry; apply Nat.eqb_eq; lia).
  - simpl in Hx. rewrite drop_0, length_fmap, <- (pop_lists angles i a rest Ha) in Hx.
    destruct (IH _ (S c) (Some y) _ x (next_index_lt _ Hi) ltac:(lia) Hx) as [F HF].
    exists (S F). intros [|fuel] Hf; [lia|]. simpl. rewrite Ha, Hy.
    replace (S c =? 200)%nat with false by (symmetry; apply Nat.eqb_neq; lia). apply HF. lia.
Qed.
End Loop.

(** The lists of [angles]: each holds the asteroids of its angle. *)
Lemma fold_add_to_angle station l f a :
  fold_left (add_to_angle station) l f a ≡ₚ f a ++ filter (fun t => asteroid_to_angle station t = a) l.
Proof.
  revert f. induction l as [|x l IH]; intros f; simpl; [by rewrite app_nil_r|].
  rewrite IH. unfold add_to_angle. destruct (decide (a = asteroid_to_angle station x)) as [->|Hne].
  - rewrite sort_by_perm, filter_cons_True by done. by rewrite <- app_assoc.
  - by rewrite filter_cons_False by congruence.
Qed.

(** The list at an angle is the sorted list of the asteroids of that
    angle, as the last [sort] left it. *)
Lemma fold_add_to_angle_sorted station l f a :
  (exists m, fold_left (add_to_angle station) l f a = sort_by (asteroid_to_distance station) dist_lt m /\
             m ≡ₚ f a ++ filter (fun t => asteroid_to_angle station t = a) l) \/
  (filter (fun t => asteroid_to_angle station t = a) l = [] /\ fold_left (add_to_angle station) l f a = f a).
Proof.
  revert f. induction l as [|x l IH]; intros f; simpl; [by right|].
  unfold add_to_angle at 2. destruct (IH (add_to_angle station f x)) as [(m & Hm & Hp)|[Hn Hf]];
    unfold add_to_angle in *; destruct (decide (a = asteroid_to_angle station x)) as [->|Hne].
  - left. exists m. split; [done|]. rewrite Hp, sort_by_perm, filter_cons_True by done. by rewrite <- app_assoc.
  - left. exists m. split; [done|]. by rewrite Hp, filter_cons_False by congruence.
  - left. exists (f (asteroid_to_angle station x) ++ [x]). rewrite Hf, filter_cons_True, Hn by done. done.
  - right. by rewrite filter_cons_False, Hn, Hf by congruence.
Qed.

Lemma build_angles_perm station l a :
  build_angles station l a ≡ₚ filter (fun t => asteroid_to_angle station t = a) l.
Proof. unfold build_angles. by rewrite fold_add_to_angle. Qed.

Lemma turn_angles_perm l : turn_angles l ≡ₚ l.
Proof.
  unfold turn_angles. destruct (list_find _ l) as [[i a]|]; [|done].
  by rewrite <- !Permutation_rev, take_drop.
Qed.

Lemma ordered_angles_perm station l : ordered_angles station l ≡ₚ angle_keys station l.
Proof. unfold ordered_angles. by rewrite turn_angles_perm, sort_by_perm. Qed.

Lemma ordered_angles_nodup station l : NoDup (ordered_angles station l).
Proof. rewrite ordered_angles_perm. apply NoDup_remove_dups. Qed.

Lemma ordered_angles_nonempty station l : l <> [] -> ordered_angles station l <> [].
Proof.
  intros Hl He. destruct l as [|t l]; [done|].
  assert (Ht : asteroid_to_angle station t ∈ ordered_angles station (t :: l)).
  { rewrite ordered_angles_perm. unfold angle_keys. rewrite elem_of_remove_dups. by left. }
  rewrite He in Ht. by apply not_elem_of_nil in Ht.
Qed.

(** The sweep removes every asteroid of the map exactly once: the lists
    of [angles] taken in [ordered_angles] order and swept round by round
    are a permutation of [asteroids]. *)
Lemma sweep_asteroids_perm station asteroids :
  sweep (build_angles station asteroids <$> ordered_angles station asteroids) ≡ₚ asteroids.
Proof.
  rewrite sweep_perm, (join_perm _ _ _ (build_angles_perm station asteroids)).
  rewrite (ordered_angles_perm station asteroids).
  apply join_groups; [apply NoDup_remove_dups|].
  intros t Ht. unfold angle_keys. rewrite elem_of_remove_dups. by apply list_elem_of_fmap_2.
Qed.

(** C23: part 2's loop computes the round-robin sweep.  On a non-empty
    map, when the sweep of the lists of [angles] in [ordered_angles]
    order has a 200th element, enough fuel makes [part2] answer
    [x * 100 + y] of it; with fewer than 200 asteroids, the station
    counted, the [while True] loop never ends. *)
Theorem part2_sweep station asteroids :
  asteroids <> [] ->
  (forall x, sweep (build_angles station asteroids <$> ordered_angles station asteroids) !! 199%nat = Some x ->
     exists F, forall fuel, (F <= fuel)%nat ->
       part2 fuel station asteroids = Some (Ok (ax x * 100 + ay x))) /\
  ((length asteroids < 200)%nat -> forall fuel, part2 fuel station asteroids = None).
Proof.
  intros Hne. pose proof (ordered_angles_nodup station asteroids) as Hnd.
  assert (H0 : (0 < length (ordered_angles station asteroids))%nat).
  { destruct (ordered_angles station asteroids) eqn:E; [|simpl; lia].
    by destruct (ordered_angles_nonempty station asteroids Hne). }
  unfold part2. split.
  - intros x Hx. rewrite <- sweep_from_0 in Hx.
    destruct (vaporize_reaches _ Hnd 199 0 0 None _ x H0 eq_refl Hx) as [F HF].
    exists F. intros fuel Hf. by rewrite HF.
  - intros Hlen fuel. rewrite vaporize_short; [done|done|done|].
    rewrite sweep_from_0, (sweep_asteroids_perm station asteroids). simpl. lia.
Qed.

(** C24: the station is vaporized.  [asteroid_to_angle] maps the station
    too (to [-1 * atan2(0, 0)]), and with distance [0.0] it is the first
    of its angle's list: the loop removes it, and counts it, in the
    first turn of the laser. *)
Theorem station_vaporized station asteroids :
  station ∈ asteroids ->
  (forall t, t ∈ asteroids -> t <> station ->
     dist_lt (asteroid_to_distance station station) (asteroid_to_distance station t) = true /\
     dist_lt (asteroid_to_distance station t) (asteroid_to_distance station station) = false) ->
  head (build_angles station asteroids (asteroid_to_angle station station)) = Some station /\
  station ∈ (build_angles station asteroids <$> ordered_angles station asteroids) ≫= take 1.
Proof.
  intros Hin Hd. set (a := asteroid_to_angle station station).
  assert (Hf : station ∈ filter (fun t => asteroid_to_angle station t = a) asteroids)
    by (by apply list_elem_of_filter).
  assert (Hh : head (build_angles station asteroids a) = Some station).
  { unfold build_angles. destruct (fold_add_to_angle_sorted station asteroids (fun _ => []) a)
      as [(m & -> & Hp)|[Hn _]]; [|by rewrite Hn in Hf; apply not_elem_of_nil in Hf].
    apply sort_by_head; [apply _|by rewrite Hp|]. intros y Hy. apply Hd. rewrite Hp in Hy. by apply list_elem_of_filter in Hy as [_ ?]. }
  split; [done|]. apply list_elem_of_bind. exists (build_angles station asteroids a). split.
  - destruct (build_angles station asteroids a); simplify_eq/=. by left.
  - apply list_elem_of_fmap_2. rewrite ordered_angles_perm. unfold angle_keys.
    rewrite elem_of_remove_dups. by apply list_elem_of_fmap_2.
Qed.
End Station.

(** ** The direction of the sweep *)
Section Turn.
Context {Angle : Type} `{EqDecision Angle}.
Variable angle_lt : Angle -> Angle -> bool.
Variable half_pi : Angle.
(** [<] on floats is a strict total order on distinct values. *)
Hypothesis angle_lt_trans :
  forall a b c, angle_lt a b = true -> angle_lt b c = true -> angle_lt a c = true.
Hypothesis angle_lt_total : forall a b, a <> b -> angle_lt a b = false -> angle_lt b a = true.

Let R (a b : Angle) : Prop := angle_lt a b = true.

#[local] Instance R_trans : Transitive R.
Proof. intros a b c. apply angle_lt_trans. Qed.

Lemma insert_by_sorted x l : x ∉ l -> Sorted R l -> Sorted R (insert_by id angle_lt x l).
Proof.
  intros Hx Hs. induction Hs as [|y l Hs IH Hhd]; simpl; [by repeat constructor|].
  destruct (angle_lt y x) eqn:Hyx.
  - constructor; [apply IH; intros ?; apply Hx; by right|].
    destruct Hhd as [|z l Hz]; simpl; [by constructor|].
    destruct (angle_lt z x); by constructor.
  - constructor; [by constructor|]. constructor. apply angle_lt_total; [|done].
    intros ->. apply Hx. by left.
Qed.

Lemma sort_by_sorted l : NoDup l -> Sorted R (sort_by id angle_lt l).
Proof.
  induction 1 as [|x l Hx Hnd IH]; simpl; [constructor|].
  apply insert_by_sorted; [|done]. by rewrite sort_by_perm.
Qed.

(** On a sorted list, the turn gives the angles up to [math.pi / 2] in
    descending order, then those above it in descending order; with no
    angle above [math.pi / 2] the list is left ascending. *)
Lemma turn_angles_sorted s :
  StronglySorted R s ->
  turn_angles angle_lt half_pi s =
    if existsb (angle_lt half_pi) s
    then rev (filter (fun a => angle_lt half_pi a = false) s) ++ rev (filter (fun a => angle_lt half_pi a = true) s)
    else s.
Proof.
  intros Hs. unfold turn_angles. destruct (list_find _ s) as [[i a]|] eqn:Hf.
  - apply list_find_Some in Hf as (Ha & Hlt & Hbefore).
    replace (existsb (angle_lt half_pi) s) with true
      by (symmetry; apply existsb_exists; exists a; split; [eapply list_elem_of_In, list_elem_of_lookup_2|]; done).
    assert (Hd : drop i s = a :: drop (S i) s) by (by apply drop_S).
    assert (Hafter : Forall (fun b => angle_lt half_pi b = true) (drop i s)).
    { assert (Hs' : StronglySorted R (take i s ++ drop i s)) by (by rewrite take_drop).
      apply StronglySorted_app_1_r in Hs' as Hsd.
      rewrite Hd in Hsd |- *. apply StronglySorted_inv in Hsd as [_ Hall].
      constructor; [done|]. eapply Forall_impl; [exact Hall|]. intros b Hb. by eapply angle_lt_trans. }
    assert (Htake : Forall (fun b => angle_lt half_pi b = false) (take i s)).
    { apply Forall_lookup. intros j b Hj. apply not_true_iff_false.
      pose proof (lookup_lt_Some _ _ _ Hj) as Hjl. rewrite length_take in Hjl.
      rewrite lookup_take_lt in Hj by lia. eapply Hbefore; [exact Hj|lia]. }
    rewrite <- (take_drop i s) at 3 4. rewrite !filter_app.
    rewrite (filter_all _ (take i s)), (filter_none _ (take i s)), (filter_none _ (drop i s)), (filter_all _ (drop i s));
      try done; [by rewrite app_nil_r| |];
      eapply Forall_impl; try eassumption; intros b ->; done.
  - apply list_find_None in Hf.
    replace (existsb (angle_lt half_pi) s) with false; [done|].
    symmetry. apply not_true_iff_false. intros (b & Hb & Hlt)%existsb_exists.
    rewrite Forall_forall in Hf. apply (Hf b); [by apply list_elem_of_In|done].
Qed.

(** C25: the laser starts straight up and turns clockwise only when some
    angle is above [math.pi / 2].  [ordered_angles] is the angles up to
    [math.pi / 2] in descending order (from straight up, clockwise to
    straight left) followed by those above it in descending order; when
    no asteroid lies strictly up and to the left of the station the
    [for] loop never breaks and the list stays ascending: the sweep
    starts at the smallest angle and turns counterclockwise. *)
Theorem ordered_angles_turn (angle_of : Z -> Z -> Angle) station asteroids :
  ordered_angles angle_of angle_lt half_pi station asteroids =
    let s := sort_by id angle_lt (angle_keys angle_of station asteroids) in
    if existsb (angle_lt half_pi) s
    then rev (filter (fun a => angle_lt half_pi a = false) s) ++ rev (filter (fun a => angle_lt half_pi a = true) s)
    else s.
Proof.
  unfold ordered_angles. apply turn_angles_sorted, Sorted_StronglySorted; [apply _|].
  apply sort_by_sorted, NoDup_remove_dups.
Qed.
End Turn.

(** ** Exact angles, for the examples *)

(** The order of [math.atan2] on vectors, exactly: the half-plane
    below the x axis (values in (-pi, 0)), the positive x axis (0), the
    half-plane above (0, pi), the negative x axis (pi); inside a
    half-plane, [b] is after [a] when it is counterclockwise of it. *)
Definition atan2_rank (v : Z * Z) : Z :=
  let '(y, x) := v in
  if y <? 0 then 0 else if (y =? 0) && (0 <=? x) then 1 else if 0 <? y then 2 else 3.

Definition atan2_lt (a b : Z * Z) : bool :=
  let '(y1, x1) := a in let '(y2, x2) := b in
  (atan2_rank a <? atan2_rank b) || ((atan2_rank a =? atan2_rank b) && (0 <? x1 * y2 - y1 * x2)).

(** [-1 * math.atan2] as the exact direction, [<] on it, [math.pi / 2]
    (the angle of a target straight up), and the squared distance. *)
Definition exact_lt (a b : Z * Z) : bool := atan2_lt b a.
Definition exact_half_pi : Z * Z := exact_angle (-1) 0.
Definition sq_dist (dy dx : Z) : Z := dy * dy + dx * dx.

Definition large_example : list string :=
  [".#..##.###...#######"; "##.############..##."; ".#.######.########.#"; ".###.#######.####.#.";
   "#####.##.#.##.###.##"; "..#####..#.#########"; "####################"; "#.####....###.#.#.##";
   "##.#################"; "#####.##.###..####.."; "..######..##.#######"; "####.##.####...##..#";
   ".#####..#.######.###"; "##...#.##########..."; "#.##########.#######"; ".####.#.###.###.#.##";
   "....##.##.###..#####"; ".#.#.###########.###"; "#.#.#.#####.####.###"; "###.##.####.##.#..##"].

Definition large_station : Asteroid := mkAsteroid 11 13.

(** On the puzzle's large example the model prints 802, as the puzzle
    says; the 65th asteroid removed is the station itself, in the place
    of (12, 13), the nearest asteroid straight to its right. *)
Example large_example_part2 :
  part2 exact_angle sq_dist exact_lt Z.ltb exact_half_pi 5000 large_station (parse_asteroids large_example) =
    Some (Ok 802) /\
  sweep (build_angles exact_angle sq_dist Z.ltb large_station (parse_asteroids large_example) <$>
         ordered_angles exact_angle exact_lt exact_half_pi large_station (parse_asteroids large_example))
    !! 64%nat = Some large_station.
Proof. split; vm_compute; reflexivity. Qed.

Lemma part2_sweep_witness :
  sweep (build_angles exact_angle sq_dist Z.ltb large_station (parse_asteroids large_example) <$>
         ordered_angles exact_angle exact_lt exact_half_pi large_station (parse_asteroids large_example))
    !! 199%nat = Some (mkAsteroid 8 2) /\
  exists F, forall fuel, (F <= fuel)%nat ->
    part2 exact_angle sq_dist exact_lt Z.ltb exact_half_pi fuel large_station (parse_asteroids large_example) =
      Some (Ok (8 * 100 + 2)).
Proof.
  assert (Hx : sweep (build_angles exact_angle sq_dist Z.ltb large_station (parse_asteroids large_example) <$>
         ordered_angles exact_angle exact_lt exact_half_pi large_station (parse_asteroids large_example))
    !! 199%nat = Some (mkAsteroid 8 2)) by (vm_compute; reflexivity).
  split; [exact Hx|].
  refine (proj1 (part2_sweep exact_angle sq_dist exact_lt Z.ltb exact_half_pi large_station
                   (parse_asteroids large_example) _) _ Hx).
  vm_compute. discriminate.
Defined.

Lemma station_vaporized_witness :
  head (build_angles exact_angle sq_dist Z.ltb large_station (parse_asteroids large_example)
          (asteroid_to_angle exact_angle large_station large_station)) = Some large_station /\
  large_station ∈ (build_angles exact_angle sq_dist Z.ltb large_station (parse_asteroids large_example) <$>
                   ordered_angles exact_angle exact_lt exact_half_pi large_station (parse_asteroids large_example))
                  ≫= take 1.
Proof.
  apply (station_vaporized exact_angle sq_dist exact_lt Z.ltb exact_half_pi).
  - apply (bool_decide_eq_true _). vm_compute. reflexivity.
  - assert (HF : Forall (fun t => t <> large_station ->
        Z.ltb (asteroid_to_distance sq_dist large_station large_station)
              (asteroid_to_distance sq_dist large_station t) = true /\
        Z.ltb (asteroid_to_distance sq_dist large_station t)
              (asteroid_to_distance sq_dist large_station large_station) = false)
      (parse_asteroids large_example)) by (apply (bool_decide_eq_true _); vm_compute; reflexivity).
    rewrite Forall_forall in HF. exact HF.
Defined.

Lemma ordered_angles_turn_witness :
  ordered_angles (fun dy dx => dy) Z.ltb 0 large_station (parse_asteroids large_example) =
    let s := sort_by id Z.ltb (angle_keys (fun dy dx => dy) large_station (parse_asteroids large_example)) in
    if existsb (Z.ltb 0) s
    then rev (filter (fun a => Z.ltb 0 a = false) s) ++ rev (filter (fun a => Z.ltb 0 a = true) s)
    else s.
Proof.
  apply ordered_angles_turn.
  - intros a b c. rewrite !Z.ltb_lt. lia.
  - intros a b Hne. rewrite Z.ltb_ge, Z.ltb_lt. lia.
Defined.

(** With no asteroid up and to the left of the station, the laser starts
    straight down and turns counterclockwise: from (0, 0) it removes
    (0, 1) below before (1, 1) and the station's own angle to the right. *)
Example counterclockwise_sweep :
  let corner := ["##"; "##"] in
  ordered_angles exact_angle exact_lt exact_half_pi (mkAsteroid 0 0) (parse_asteroids corner) = [(1, 0); (1, 1); (0, 1)] /\
  sweep (build_angles exact_angle sq_dist Z.ltb (mkAsteroid 0 0) (parse_asteroids corner) <$>
         ordered_angles exact_angle exact_lt exact_half_pi (mkAsteroid 0 0) (parse_asteroids corner)) =
    [mkAsteroid 0 1; mkAsteroid 1 1; mkAsteroid 0 0; mkAsteroid 1 0].
Proof. split; vm_compute; reflexivity. Qed.
