(* ===== verification/Lifecycle.v ===== *)
(** * Lifecycle: an instance on its thread, and day 9's [main]

    [IntcodeComputer] of [src/day-09.py] runs [__run_program] on a daemon
    [Thread] created by the constructor.  The main thread drives it with
    [start_program] ([Thread.start]), [send_input] (a put under the input
    condition), [wait_for_exit] ([Thread.join]) and [get_last_output].
    Here an [instance] is the computer with the state of its thread, the
    thread moves by one iteration of its loop ([thread_step]), and [main]
    is the list of the main thread's calls, interleaved with thread steps
    in any order ([sys_step]).  An exception in the loop ends the thread
    like a [HALT] does: [join] returns and [main] goes on.

    The generic part (Section [Thread]) is proved against the
    [IntcodeMachine] interface: the states a thread passes through, how a
    [send_input] between two iterations shifts them, and that the state in
    which the loop ends is unique and is the one [run_with] ends in. *)

From S2P Require Import Prelude Channel Machine Computer.

(** ** A thread's iterations, for any instance *)
Section Thread.
Context {M : Type} `{IntcodeMachineLaws M}.

(** An iteration that does not end the loop (the output, if any, goes to
    no handler or to one that sends nothing back). *)
Definition cstep (c c' : M) : Prop := exists o, machine_step c = Continue o c'.

(** The loop ends here: [HALT], the loop guard, or an exception. *)
Definition terminal (c : M) : Prop :=
  machine_step c = Halted \/ machine_step c = Exited \/ exists e, machine_step c = Crash e.

Lemma cstep_add_inputs c c' vs : cstep c c' -> cstep (add_inputs c vs) (add_inputs c' vs).
Proof.
  intros [o Hs]. exists o. by rewrite (step_add_inputs _ vs _ Hs).
Qed.

Lemma rtc_cstep_add_inputs c c' vs :
  rtc cstep c c' -> rtc cstep (add_inputs c vs) (add_inputs c' vs).
Proof.
  induction 1; [done|]. eapply rtc_l; [by apply cstep_add_inputs|done].
Qed.

Lemma terminal_add_inputs c vs : terminal c -> terminal (add_inputs c vs).
Proof.
  unfold terminal. intros [Hs|[Hs|[e Hs]]]; rewrite (step_add_inputs _ vs _ Hs) by done; eauto.
Qed.

Lemma terminal_no_cstep c c' : terminal c -> ~ cstep c c'.
Proof. intros [Hs|[Hs|[e Hs]]] [o Ho]; congruence. Qed.

(** The loop is deterministic: the state it ends in is unique. *)
Lemma rtc_cstep_terminal_unique c c1 c2 :
  rtc cstep c c1 -> rtc cstep c c2 -> terminal c1 -> terminal c2 -> c1 = c2.
Proof.
  intros H1. revert c2. induction H1 as [c|c c' c1 [o Hs] Hr IH]; intros c2 H2 T1 T2.
  - destruct H2 as [|c c'' c2 Hs']; [done|]. by destruct (terminal_no_cstep _ _ T1 Hs').
  - destruct H2 as [|c c'' c2 [o' Hs'] Hr']; [by destruct (terminal_no_cstep _ c' T2); exists o|].
    rewrite Hs in Hs'. simplify_eq. by apply IH.
Qed.

(** A thread that ends in [c'] is a run of the loop that ends in [c'],
    with a handler that sends nothing back. *)
Lemma rtc_cstep_run_with {W} (handler : Z -> W -> W * list Z) c c' w :
  (forall v w, (handler v w).2 = []) ->
  rtc cstep c c' -> terminal c' ->
  exists n w', run_with handler n w c = Finished w' c' \/
               exists e, run_with handler n w c = Crashed e w' c'.
Proof.
  intros Hsil Hr. revert w. induction Hr as [c|c c1 c' [o Hs] Hr IH]; intros w Ht.
  - exists 1%nat, w. destruct Ht as [Hs|[Hs|[e Hs]]]; simpl; rewrite Hs; eauto.
  - destruct o as [v|].
    + destruct (handler v w) as [w1 sent] eqn:Hh.
      pose proof (Hsil v w) as Hn. rewrite Hh in Hn. simpl in Hn. subst sent.
      destruct (IH w1 Ht) as (n & w' & Hn). exists (S n), w'. simpl. rewrite Hs, Hh.
      by rewrite add_inputs_nil.
    + destruct (IH w Ht) as (n & w' & Hn). exists (S n), w'. simpl. by rewrite Hs.
Qed.

(** A run of the loop that ends gives the thread's iterations. *)
Lemma run_with_rtc_cstep {W} (handler : Z -> W -> W * list Z) n w c w' c' :
  (forall v w, (handler v w).2 = []) ->
  (run_with handler n w c = Finished w' c' \/ exists e, run_with handler n w c = Crashed e w' c') ->
  rtc cstep c c' /\ terminal c'.
Proof.
  intros Hsil. revert w c. induction n as [|n IH]; intros w c; simpl; [by intros [?|[? ?]]|].
  unfold terminal. destruct (machine_step c) as [[v|] c1| | | |e] eqn:Hs;
    try (intros [?|[? ?]]; simplify_eq; split; eauto; done).
  - destruct (handler v w) as [w1 sent] eqn:Hh.
    pose proof (Hsil v w) as Hn. rewrite Hh in Hn. simpl in Hn. subst sent.
    rewrite add_inputs_nil. intros Hr. destruct (IH _ _ Hr). split; [|done].
    eapply rtc_l; [by exists (Some v)|done].
  - intros Hr. destruct (IH _ _ Hr). split; [|done]. eapply rtc_l; [by exists None|done].
Qed.

Lemma rtc_cstep_prefix c a b : rtc cstep c a -> rtc cstep c b -> rtc cstep a b \/ rtc cstep b a.
Proof.
  intros Ha. revert b. induction Ha as [c|c c1 a [o Hs] Ha IH]; intros b Hb; [by left|].
  destruct Hb as [|c c1' b [o' Hs'] Hb]; [right; eapply rtc_l; [by exists o|done]|].
  rewrite Hs in Hs'. simplify_eq. by apply IH.
Qed.

(** A state on the way to the end of the loop does not wait for input. *)
Lemma rtc_cstep_not_wait c a cf :
  rtc cstep c a -> rtc cstep c cf -> terminal cf -> machine_step a <> Wait.
Proof.
  intros Ha Hf Ht. destruct (rtc_cstep_prefix _ _ _ Ha Hf) as [Hr|Hr].
  - destruct Hr as [|a a1 cf [o Hs] _]; [|by rewrite Hs].
    by destruct Ht as [->|[->|[e ->]]].
  - destruct Hr as [|cf c1 a Hs _]; [by destruct Ht as [->|[->|[e ->]]]|].
    by destruct (terminal_no_cstep _ _ Ht Hs).
Qed.
End Thread.

(** ** The instance and its thread *)

Module Day09.

(** The state of [self.__thread]. *)
Inductive thread_state := NotStarted | Alive | Stopped.

#[export] Instance thread_state_eq_dec : EqDecision thread_state.
Proof. solve_decision. Defined.

Record instance := mkInstance { comp : computer; thread : thread_state }.

(** [IntcodeComputer(memory)]: the thread is created, not started. *)
Definition new_instance (program : list Z) : instance :=
  mkInstance (new_computer program) NotStarted.

(** [start_program]: [Thread.start] raises [RuntimeError] on a thread
    started before. *)
Definition start_program (x : instance) : result instance :=
  match thread x with
  | NotStarted => Ok (mkInstance (comp x) Alive)
  | _ => Raise RuntimeError
  end.

(** [send_input]: a put on the queue, whatever the thread is doing. *)
Definition send_input (x : instance) (value : Z) : instance :=
  mkInstance (add_inputs (comp x) [value]) (thread x).

(** [get_last_output] *)
Definition get_last_output (x : instance) : Z := last_output (comp x).

(** [wait_for_exit]: [Thread.join] raises [RuntimeError] on a thread not
    started, blocks on a live one ([false]) and returns on an ended one. *)
Definition wait_for_exit (x : instance) : result bool :=
  match thread x with
  | NotStarted => Raise RuntimeError
  | Alive => Ok false
  | Stopped => Ok true
  end.

(** One iteration of [__run_program] on the thread, with no output
    handler set ([None]: the thread cannot move, being not started,
    ended, or waiting on the input condition).  [HALT], the loop guard
    and an exception all end the thread, leaving the computer as it is. *)
Definition thread_step (x : instance) : option instance :=
  match thread x with
  | Alive =>
      match step (comp x) with
      | Continue _ c' => Some (mkInstance c' Alive)
      | Halted | Exited | Crash _ => Some (mkInstance (comp x) Stopped)
      | Wait => None
      end
  | _ => None
  end.

(** ** The main thread *)

(** The calls [main] makes on an instance. *)
Inductive main_op := Start | SendInput (value : Z) | WaitForExit | PrintLastOutput.

(** One call: [Raise] when it raises (and [main] dies), [Ok None] when it
    blocks, otherwise the instance after it and what it printed. *)
Definition main_op_step (op : main_op) (x : instance) : result (option (instance * option Z)) :=
  match op with
  | Start => x' <- start_program x ;; Ok (Some (x', None))
  | SendInput v => Ok (Some (send_input x v, None))
  | WaitForExit =>
      done <- wait_for_exit x ;; Ok (if done then Some (x, None) else None)
  | PrintLastOutput => Ok (Some (x, Some (get_last_output x)))
  end.

(** One half of [main] of [src/day-09.py]: a fresh instance started,
    sent the input, joined, and its last output printed. *)
Definition day09_main_ops (value : Z) : list main_op :=
  [Start; SendInput value; WaitForExit; PrintLastOutput].

(** The main thread's remaining calls, the instance, and what was printed. *)
Record system := mkSystem { ops : list main_op; inst : instance; printed : list Z }.

(** Either thread moves: the interleavings of the two threads. *)
Inductive sys_step : system -> system -> Prop :=
| sys_thread os x x' out :
    thread_step x = Some x' -> sys_step (mkSystem os x out) (mkSystem os x' out)
| sys_main op os x x' p out :
    main_op_step op x = Ok (Some (x', p)) ->
    sys_step (mkSystem (op :: os) x out) (mkSystem os x' (out ++ option_list p)).

(** The move of the computer thread, and the next call of [main]. *)
Definition thread_move (s : system) : option system :=
  x' ← thread_step (inst s); Some (mkSystem (ops s) x' (printed s)).

Definition main_move (s : system) : option system :=
  match ops s with
  | [] => None
  | op :: os =>
      match main_op_step op (inst s) with
      | Ok (Some (x', p)) => Some (mkSystem os x' (printed s ++ option_list p))
      | _ => None
      end
  end.

(** A scheduler: at each point it lets the computer thread move first
    ([thread_first]) or the main thread first, the other one when the
    first cannot; it stops where neither can ([main] returned, raised, or
    both threads wait).  [None]: the fuel ran out. *)
Fixpoint run_schedule (fuel : nat) (thread_first : bool) (s : system) : option system :=
  match fuel with
  | O => None
  | S fuel' =>
      let '(first, second) :=
        if thread_first then (thread_move s, main_move s) else (main_move s, thread_move s) in
      match first, second with
      | Some s', _ | None, Some s' => run_schedule fuel' thread_first s'
      | None, None => Some s
      end
  end.

End Day09.
Import Day09.

(** ** What the threads keep true *)

(** The thread was started, has iterated from [c] to the current
    computer, and, once ended, ended there. *)
Definition thread_inv (c : computer) (x : instance) : Prop :=
  thread x <> NotStarted /\ rtc cstep c (comp x) /\ (thread x = Stopped -> terminal (comp x)).

Lemma thread_step_inv c x x' : thread_inv c x -> thread_step x = Some x' -> thread_inv c x'.
Proof.
  intros (Hn & Hr & Ht). unfold thread_step.
  destruct (thread x) eqn:Hx; try done.
  destruct (step (comp x)) as [o c'| | | |e] eqn:Hs; intros; simplify_eq; split_and!; simpl; try done.
  all: try (eapply rtc_r; [exact Hr|]; by exists o).
  all: intros _; unfold terminal; simpl; rewrite Hs; eauto.
Qed.

Lemma send_input_inv c x v : thread_inv c x -> thread_inv (add_inputs c [v]) (send_input x v).
Proof.
  intros (Hn & Hr & Ht). unfold send_input. split_and!; cbn [comp thread];
    [done|by apply rtc_cstep_add_inputs|].
  intros Hs. by apply terminal_add_inputs, Ht.
Qed.

Lemma thread_step_ended x : thread x <> Alive -> thread_step x = None.
Proof. unfold thread_step. by destruct (thread x). Qed.

Lemma run_add_inputs n program vs :
  run n program vs = run_with log_output n [] (add_inputs (new_computer program) vs).
Proof. unfold run, add_inputs. simpl. by rewrite send_inputs_app. Qed.

Section Main.
Variables (program : list Z) (value : Z).
Let c0 := new_computer program.
Let c1 := add_inputs c0 [value].

(** The stage [main] is at, with what the computer thread did so far. *)
Definition main_inv (s : system) : Prop :=
  (ops s = day09_main_ops value /\ inst s = new_instance program /\ printed s = [])
  \/ (ops s = [SendInput value; WaitForExit; PrintLastOutput] /\ thread_inv c0 (inst s) /\ printed s = [])
  \/ (ops s = [WaitForExit; PrintLastOutput] /\ thread_inv c1 (inst s) /\ printed s = [])
  \/ (ops s = [PrintLastOutput] /\ thread (inst s) = Stopped /\ thread_inv c1 (inst s) /\ printed s = [])
  \/ (ops s = [] /\ thread (inst s) = Stopped /\ thread_inv c1 (inst s) /\
      printed s = [get_last_output (inst s)]).

Lemma main_inv_step s s' : main_inv s -> sys_step s s' -> main_inv s'.
Proof.
  unfold main_inv, day09_main_ops. intros Hi Hs.
  destruct Hs as [os x x' out Ht|op os x x' p out Hm]; cbn [ops inst printed] in *.
  - destruct Hi as [(-> & -> & ->)|[(-> & Hx & ->)|[(-> & Hx & ->)|[(-> & Hst & _)|(-> & Hst & _)]]]];
      try (rewrite thread_step_ended in Ht; [done|]; try rewrite Hst; done).
    + right; left. eauto using thread_step_inv.
    + right; right; left. eauto using thread_step_inv.
  - destruct Hi as [(Ho & -> & ->)|[(Ho & Hx & ->)|[(Ho & Hx & ->)|[(Ho & Hst & Hx & ->)|(Ho & _)]]]];
      simplify_eq; simpl in Hm; simplify_eq.
    + right; left. by split_and!.
    + right; right; left. split_and!; try done. by apply send_input_inv.
    + unfold main_op_step, wait_for_exit in Hm. repeat case_match; simplify_eq.
      do 3 right; left. by split_and!.
    + do 4 right. done.
Qed.

Lemma main_inv_rtc s s' : main_inv s -> rtc sys_step s s' -> main_inv s'.
Proof. intros Hi Hr. induction Hr; eauto using main_inv_step. Qed.

Lemma main_inv_init : main_inv (mkSystem (day09_main_ops value) (new_instance program) []).
Proof. by left. Qed.

(** Where [main] has returned, the computer thread has ended in a state
    its loop reaches from the program with [value] queued. *)
Lemma main_done s :
  rtc sys_step (mkSystem (day09_main_ops value) (new_instance program) []) s -> ops s = [] ->
  rtc cstep c1 (comp (inst s)) /\ terminal (comp (inst s)) /\
  printed s = [last_output (comp (inst s))].
Proof.
  intros Hr Ho. pose proof (main_inv_rtc _ _ main_inv_init Hr) as Hi. unfold main_inv in Hi.
  rewrite Ho in Hi.
  destruct Hi as [(Ho' & _)|[(Ho' & _)|[(Ho' & _)|[(Ho' & _)|(_ & Hst & (_ & Hc & Ht) & Hp)]]]];
    try done. auto.
Qed.
End Main.

Lemma thread_move_step s s' : thread_move s = Some s' -> sys_step s s'.
Proof.
  destruct s as [os x out]. unfold thread_move. simpl.
  destruct (thread_step x) eqn:Hx; intros; simplify_eq/=. by constructor.
Qed.

Lemma main_move_step s s' : main_move s = Some s' -> sys_step s s'.
Proof.
  destruct s as [[|op os] x out]; unfold main_move; simpl; [done|].
  destruct (main_op_step op x) as [[[x' p]|]|] eqn:Hm; intros; simplify_eq. by constructor.
Qed.

(** The two moves are all the moves there are. *)
Lemma sys_step_moves s s' : sys_step s s' -> thread_move s <> None \/ main_move s <> None.
Proof.
  destruct 1 as [os x x' out Ht|op os x x' p out Hm].
  - left. unfold thread_move. simpl. by rewrite Ht.
  - right. unfold main_move. simpl. by rewrite Hm.
Qed.

Lemma run_schedule_sound fuel b s s' :
  run_schedule fuel b s = Some s' -> rtc sys_step s s' /\ thread_move s' = None /\ main_move s' = None.
Proof.
  revert s. induction fuel as [|fuel IH]; intros s; [done|]. simpl.
  destruct b, (thread_move s) as [st|] eqn:Et, (main_move s) as [sm|] eqn:Em; intros Hr;
    try (destruct (IH _ Hr) as [? ?]; split; [eapply rtc_l; [by apply thread_move_step|]|]; done);
    try (destruct (IH _ Hr) as [? ?]; split; [eapply rtc_l; [by apply main_move_step|]|]; done).
  all: simplify_eq; split; [apply rtc_refl|done].
Qed.

Lemma log_output_silent v w : (log_output v w).2 = [].
Proof. done. Qed.

(** ** What day 9's [main] prints *)

(** C11: whatever the interleaving of [main] with the computer thread, once
    [main] has made its four calls it has printed exactly one value: the
    last output of the program run with [value] as its only input, in a
    run that ends by [HALT] or the loop guard, or by an exception, which
    only ends the thread: [join] returns and [main] prints all the same. *)
Theorem day09_main_prints_run program value s :
  rtc sys_step (mkSystem (day09_main_ops value) (new_instance program) []) s -> ops s = [] ->
  exists n log c,
    (run n program [value] = Finished log c \/ exists e, run n program [value] = Crashed e log c) /\
    printed s = [last_output c].
Proof.
  intros Hr Ho. destruct (main_done _ _ _ Hr Ho) as (Hc & Ht & Hp).
  destruct (rtc_cstep_run_with log_output _ _ [] log_output_silent Hc Ht) as (n & log & Hn).
  exists n, log, (comp (inst s)). by rewrite run_add_inputs.
Qed.

(** C12: the printed value does not depend on the schedule: two
    interleavings in which [main] returned printed the same. *)
Theorem day09_main_schedule_independent program value s1 s2 :
  rtc sys_step (mkSystem (day09_main_ops value) (new_instance program) []) s1 -> ops s1 = [] ->
  rtc sys_step (mkSystem (day09_main_ops value) (new_instance program) []) s2 -> ops s2 = [] ->
  printed s1 = printed s2.
Proof.
  intros Hr1 Ho1 Hr2 Ho2.
  destruct (main_done _ _ _ Hr1 Ho1) as (Hc1 & Ht1 & ->), (main_done _ _ _ Hr2 Ho2) as (Hc2 & Ht2 & ->).
  by rewrite (rtc_cstep_terminal_unique _ _ _ Hc1 Hc2 Ht1 Ht2).
Qed.

(** C13: [main] never deadlocks when the program's run on [value] ends:
    until it has returned, one of the two threads can move ([join] waits
    only on a thread that can still iterate). *)
Theorem day09_main_progress program value n log c s :
  (run n program [value] = Finished log c \/ exists e, run n program [value] = Crashed e log c) ->
  rtc sys_step (mkSystem (day09_main_ops value) (new_instance program) []) s -> ops s <> [] ->
  exists s', sys_step s s'.
Proof.
  rewrite run_add_inputs. intros Hrun Hr Ho.
  destruct (run_with_rtc_cstep log_output _ _ _ _ _ log_output_silent Hrun) as [Hc Ht].
  pose proof (main_inv_rtc _ _ _ _ (main_inv_init _ _) Hr) as Hi. destruct s as [os x out].
  unfold main_inv in Hi; cbn [ops inst printed] in *.
  destruct Hi as [(-> & -> & ->)|[(-> & Hx & ->)|[(-> & (Hn & Hx & _) & ->)|[(-> & Hst & _)|(-> & _)]]]];
    try done; try (eexists; by eapply sys_main).
  destruct (thread x) eqn:Hth; [done| |eexists; eapply sys_main; simpl; unfold wait_for_exit; by rewrite Hth].
  pose proof (rtc_cstep_not_wait _ _ _ Hx Hc Ht) as Hw. simpl in Hw.
  assert (Hs : exists x', thread_step x = Some x')
    by (unfold thread_step; rewrite Hth; destruct (step (comp x)); eauto; done).
  destruct Hs as [x' Hs]. eexists. by apply sys_thread.
Qed.

(** ** Witnesses: a program that echoes its input *)

Definition echo : list Z := [3; 0; 4; 0; 99].

Definition echo_main (value : Z) : system := mkSystem (day09_main_ops value) (new_instance echo) [].

Lemma day09_main_prints_run_witness :
  exists s, run_schedule 20 true (echo_main 7) = Some s /\ printed s = [7] /\
    exists n log c,
      (run n echo [7] = Finished log c \/ exists e, run n echo [7] = Crashed e log c) /\
      printed s = [last_output c].
Proof.
  destruct (run_schedule 20 true (echo_main 7)) as [s|] eqn:E; [|vm_compute in E; discriminate].
  exists s. destruct (run_schedule_sound _ _ _ _ E) as [Hr _].
  pose proof E as Ec. vm_compute in Ec. injection Ec as Hs.
  assert (Ho : ops s = []) by (rewrite <- Hs; reflexivity).
  split_and!; [reflexivity|rewrite <- Hs; reflexivity|].
  exact (day09_main_prints_run echo 7 s Hr Ho).
Defined.

Lemma day09_main_schedule_independent_witness :
  exists s1 s2, run_schedule 20 true (echo_main 7) = Some s1 /\
    run_schedule 20 false (echo_main 7) = Some s2 /\ printed s1 = printed s2.
Proof.
  destruct (run_schedule 20 true (echo_main 7)) as [s1|] eqn:E1; [|vm_compute in E1; discriminate].
  destruct (run_schedule 20 false (echo_main 7)) as [s2|] eqn:E2; [|vm_compute in E2; discriminate].
  exists s1, s2. destruct (run_schedule_sound _ _ _ _ E1) as [Hr1 _].
  destruct (run_schedule_sound _ _ _ _ E2) as [Hr2 _].
  pose proof E1 as Ec1. vm_compute in Ec1. injection Ec1 as Hs1.
  pose proof E2 as Ec2. vm_compute in Ec2. injection Ec2 as Hs2.
  assert (Ho1 : ops s1 = []) by (rewrite <- Hs1; reflexivity).
  assert (Ho2 : ops s2 = []) by (rewrite <- Hs2; reflexivity).
  split_and!; [reflexivity|reflexivity|].
  exact (day09_main_schedule_independent echo 7 s1 s2 Hr1 Ho1 Hr2 Ho2).
Defined.

Lemma day09_main_progress_witness :
  exists log c s', run 10 echo [7] = Finished log c /\ sys_step (echo_main 7) s'.
Proof.
  destruct (run 10 echo [7]) as [log c|log c|e log c|log c] eqn:E;
    pose proof E as Ec; vm_compute in Ec; try discriminate.
  destruct (day09_main_progress echo 7 10 log c (echo_main 7)) as [s' Hs];
    [left; exact E|apply rtc_refl|discriminate|].
  exists log, c, s'. split; [reflexivity|exact Hs].
Defined.

(** A program that reads a second input leaves [main] blocked in [join]
    for ever: the thread waits on the input condition, [main] on the
    thread, and neither can move. *)
Example two_inputs_deadlock :
  exists s, rtc sys_step (mkSystem (day09_main_ops 7) (new_instance [3; 0; 3; 0; 99]) []) s /\
    ops s = [WaitForExit; PrintLastOutput] /\ forall s', ~ sys_step s s'.
Proof.
  destruct (run_schedule 20 true (mkSystem (day09_main_ops 7) (new_instance [3; 0; 3; 0; 99]) []))
    as [s|] eqn:E; [|vm_compute in E; discriminate].
  destruct (run_schedule_sound _ _ _ _ E) as (Hr & Ht & Hm).
  pose proof E as Ec. vm_compute in Ec. injection Ec as Hs.
  exists s. split_and!; [done|rewrite <- Hs; reflexivity|].
  intros s' Hstep. by destruct (sys_step_moves _ _ Hstep).
Qed.
