(* ===== verification/RobotMain.v ===== *)
(** * RobotMain: day 11's [main] beside the computer thread

    [main] of [src/day-11.py] installs [handle_computer_output] with
    [set_output_handler], calls [start_program()], then
    [send_input(0)] (part 2: [send_input(1)]), and [wait_for_exit()],
    which polls [while self.__thread.is_alive(): self.__thread.join(0.1)].
    The handler runs on the computer thread and answers on the same
    queue.  Here an [instance] is the computer, the state of its thread,
    whether a handler is installed, and the state of the locals the
    handler closes over; the thread moves by one iteration of its loop,
    with the handler's call inside the iteration ([thread_step]), and
    [main]'s calls interleave with those iterations in any order
    ([sys_step]).

    The theorem: when the program reads its first input before it
    outputs anything, every interleaving in which [main] returned leaves
    the robot and the computer where [Robot.paint] (the color queued
    before the start) ends.  Without that condition the order matters:
    a program that outputs a color and a turn first has the camera's
    answer queued before [main]'s color ([start_before_send_matters]).

    [wait_for_exit] of day 11 returns at once on a thread that was never
    started ([is_alive()] is false), where day 9's [join] raises. *)

From S2P Require Import Prelude Channel Machine Computer Robot Lifecycle.
From stdpp Require Import gmap sets.
Import Day11.
Local Open Scope Z_scope.

Module Day11Main.
Section Handled.
Context {W : Type} (handler : Z -> W -> W * list Z).

(** The computer, [self.__thread], whether [self.__output_handler] is
    set, and the locals of [main] the handler closes over. *)
Record instance := mkInstance {
  comp : computer;
  thread : Day09.thread_state;
  output_handler : bool;
  closure : W
}.

(** [IntcodeComputer(input_values[:])], with [main]'s locals. *)
Definition new_instance (program : list Z) (w : W) : instance :=
  mkInstance (new_computer program) Day09.NotStarted false w.

(** [set_output_handler] *)
Definition set_output_handler (x : instance) : instance :=
  mkInstance (comp x) (thread x) true (closure x).

(** [start_program]: [Thread.start] raises on a second start. *)
Definition start_program (x : instance) : result instance :=
  match thread x with
  | Day09.NotStarted => Ok (mkInstance (comp x) Day09.Alive (output_handler x) (closure x))
  | _ => Raise RuntimeError
  end.

(** [send_input] *)
Definition send_input (x : instance) (value : Z) : instance :=
  mkInstance (add_inputs (comp x) [value]) (thread x) (output_handler x) (closure x).

(** [get_last_output] *)
Definition get_last_output (x : instance) : Z := last_output (comp x).

(** [while self.__thread.is_alive(): self.__thread.join(0.1)]: returns
    ([true]) once the thread is not alive, also when it never started. *)
Definition wait_for_exit (x : instance) : bool :=
  match thread x with Day09.Alive => false | _ => true end.

(** One iteration of [__run_program] on the thread; an OUTPUT calls the
    handler, whose [send_input] calls land on this instance's queue. *)
Definition thread_step (x : instance) : option instance :=
  match thread x with
  | Day09.Alive =>
      match step (comp x) with
      | Continue None c' => Some (mkInstance c' Day09.Alive (output_handler x) (closure x))
      | Continue (Some v) c' =>
          if output_handler x then
            let '(w', sent) := handler v (closure x) in
            Some (mkInstance (add_inputs c' sent) Day09.Alive true w')
          else Some (mkInstance c' Day09.Alive false (closure x))
      | Halted | Exited | Crash _ => Some (mkInstance (comp x) Day09.Stopped (output_handler x) (closure x))
      | Wait => None
      end
  | _ => None
  end.

(** The calls of [main] on the computer. *)
Inductive main_op := SetOutputHandler | Start | SendInput (value : Z) | WaitForExit.

(** One call: [Ok None] while [wait_for_exit] polls a live thread. *)
Definition main_op_step (op : main_op) (x : instance) : result (option instance) :=
  match op with
  | SetOutputHandler => Ok (Some (set_output_handler x))
  | Start => x' <- start_program x ;; Ok (Some x')
  | SendInput v => Ok (Some (send_input x v))
  | WaitForExit => Ok (if wait_for_exit x then Some x else None)
  end.

(** [set_output_handler(...)], [start_program()], [send_input(first)],
    [wait_for_exit()]. *)
Definition main_ops (first : Z) : list main_op :=
  [SetOutputHandler; Start; SendInput first; WaitForExit].

Record system := mkSystem { ops : list main_op; inst : instance }.

Inductive sys_step : system -> system -> Prop :=
| sys_thread os x x' :
    thread_step x = Some x' -> sys_step (mkSystem os x) (mkSystem os x')
| sys_main op os x x' :
    main_op_step op x = Ok (Some x') -> sys_step (mkSystem (op :: os) x) (mkSystem os x').

Definition thread_move (s : system) : option system :=
  x' ← thread_step (inst s); Some (mkSystem (ops s) x').

Definition main_move (s : system) : option system :=
  match ops s with
  | [] => None
  | op :: os => match main_op_step op (inst s) with Ok (Some x') => Some (mkSystem os x') | _ => None end
  end.

(** The computer thread moves while it can, then [main]; [None]: fuel. *)
Fixpoint run_thread_first (fuel : nat) (s : system) : option system :=
  match fuel with
  | O => None
  | S fuel' =>
      match thread_move s with
      | Some s' => run_thread_first fuel' s'
      | None => match main_move s with Some s' => run_thread_first fuel' s' | None => Some s end
      end
  end.
End Handled.
End Day11Main.
Import Day11Main.

(** ** Runs of the loop with a handler *)
Section HandledRuns.
Context {W : Type} (handler : Z -> W -> W * list Z).

(** An iteration that neither outputs nor ends the loop. *)
Definition silent_step (c c' : computer) : Prop := step c = Continue None c'.

Lemma rtc_silent_hstep w c c' vs :
  rtc silent_step c c' -> rtc (hstep handler) (w, add_inputs c vs) (w, add_inputs c' vs).
Proof.
  induction 1 as [|c c1 c' Hs _ IH]; [done|]. eapply rtc_l; [|exact IH].
  apply hstep_silent. change (machine_step c = Continue None c1) in Hs. by rewrite (step_add_inputs c vs _ Hs).
Qed.

(** A run of the loop that ends where the iterations end. *)
Lemma rtc_hstep_run_with w c w' c' :
  rtc (hstep handler) (w, c) (w', c') -> terminal c' ->
  exists n, run_with handler n w c = Finished w' c' \/ exists e, run_with handler n w c = Crashed e w' c'.
Proof.
  remember (w, c) as s eqn:Es. remember (w', c') as s' eqn:Es'. intros Hr. revert w c Es.
  induction Hr as [s|s [w1 c1] s'' Hs _ IH]; intros w c ->; subst.
  - injection Es' as -> ->. intros Ht. exists 1%nat. destruct Ht as [Hs|[Hs|[e Hs]]]; simpl in *; rewrite Hs; eauto.
  - intros Ht. destruct (IH eq_refl w1 c1 eq_refl Ht) as [n Hn]. exists (S n).
    inversion Hs as [? ? ? Hst|? ? ? v ? sent Hst Hh]; subst; simpl in *; rewrite Hst; [done|]. by rewrite Hh.
Qed.

(** A program whose first instruction waits for input neither outputs
    nor moves before it. *)
Lemma wait_first_no_output c0 :
  step c0 = Wait -> forall c, rtc silent_step c0 c -> forall v c', step c <> Continue (Some v) c'.
Proof.
  intros Hw c Hr. destruct Hr as [|c0 c1 c Hs _]; [by rewrite Hw|].
  unfold silent_step in Hs. congruence.
Qed.
End HandledRuns.

(** ** What [main] and the thread keep true *)
Section Main.
Context {W : Type} (handler : Z -> W -> W * list Z).
Variables (program : list Z) (first : Z) (w0 : W).
Let c0 := new_computer program.
Let c1 := add_inputs c0 [first].
(** The program reads its first input before it outputs anything. *)
Hypothesis no_early_output :
  forall c, rtc silent_step c0 c -> forall v c', step c <> Continue (Some v) c'.

Definition ended (x : instance (W:=W)) : Prop := thread x = Day09.Stopped -> terminal (comp x).

(** The stage [main] is at, with what the thread did so far. *)
Definition main_inv (s : system) : Prop :=
  (ops s = main_ops first /\ inst s = new_instance program w0)
  \/ (ops s = [Start; SendInput first; WaitForExit] /\ inst s = mkInstance c0 Day09.NotStarted true w0)
  \/ (ops s = [SendInput first; WaitForExit] /\ output_handler (inst s) = true /\ closure (inst s) = w0 /\
      thread (inst s) <> Day09.NotStarted /\ rtc silent_step c0 (comp (inst s)) /\ ended (inst s))
  \/ (ops s = [WaitForExit] /\ output_handler (inst s) = true /\ thread (inst s) <> Day09.NotStarted /\
      rtc (hstep handler) (w0, c1) (closure (inst s), comp (inst s)) /\ ended (inst s))
  \/ (ops s = [] /\ thread (inst s) = Day09.Stopped /\
      rtc (hstep handler) (w0, c1) (closure (inst s), comp (inst s)) /\ terminal (comp (inst s))).

Lemma robot_thread_step_ended x x' :
  thread_step handler x = Some x' ->
  thread x = Day09.Alive /\ thread x' <> Day09.NotStarted /\ ended x'.
Proof.
  unfold thread_step, ended. destruct (thread x); try done.
  destruct (step (comp x)) as [[v|] c'| | | |e] eqn:Hs; try destruct (output_handler x);
    try destruct (handler v (closure x)); intros; simplify_eq/=; split_and!; try done;
    intros _; unfold terminal; simpl; rewrite Hs; eauto.
Qed.

(** Before [main]'s first value the thread only makes silent iterations. *)
Lemma thread_step_before_send x x' :
  rtc silent_step c0 (comp x) -> thread_step handler x = Some x' ->
  output_handler x' = output_handler x /\ closure x' = closure x /\ rtc silent_step c0 (comp x').
Proof.
  intros Hr. unfold thread_step. destruct (thread x); try done.
  destruct (step (comp x)) as [[v|] c'| | | |e] eqn:Hs; intros; simplify_eq/=; try done.
  - by destruct (no_early_output _ Hr v c').
  - split_and!; [done|done|]. eapply rtc_r; [exact Hr|exact Hs].
Qed.

Lemma thread_step_after_send x x' :
  output_handler x = true -> rtc (hstep handler) (w0, c1) (closure x, comp x) ->
  thread_step handler x = Some x' ->
  output_handler x' = true /\ rtc (hstep handler) (w0, c1) (closure x', comp x').
Proof.
  intros Hh Hr. unfold thread_step. rewrite Hh. destruct (thread x); try done.
  destruct (step (comp x)) as [[v|] c'| | | |e] eqn:Hs; try (intros [= <-]; done).
  - destruct (handler v (closure x)) as [w' sent] eqn:Hhv. intros [= <-]. split; [done|].
    eapply rtc_r; [exact Hr|]. cbn [closure comp].
    change (set_inputs c' (send_inputs (inputs c') sent)) with (add_inputs c' sent). by eapply hstep_output.
  - intros [= <-]. split; [done|]. eapply rtc_r; [exact Hr|]. by apply hstep_silent.
Qed.

Lemma robot_main_inv_step s s' : main_inv s -> sys_step handler s s' -> main_inv s'.
Proof.
  unfold main_inv, main_ops. intros Hi Hs.
  destruct Hs as [os x x' Ht|op os x x' Hm]; cbn [ops inst] in *.
  - destruct (robot_thread_step_ended _ _ Ht) as (Ha & Hn' & He').
    destruct Hi as [(-> & ->)|[(-> & ->)|[(-> & Hh & Hw & Hn & Hr & He)|[(-> & Hh & Hn & Hr & He)|(-> & Hst & _)]]]];
      try (simpl in Ha; congruence).
    + destruct (thread_step_before_send _ _ Hr Ht) as (Hh' & Hw' & Hr').
      do 2 right; left. split_and!; congruence || done.
    + destruct (thread_step_after_send _ _ Hh Hr Ht) as (Hh' & Hr'). do 3 right; left. done.
  - destruct Hi as [(Ho & ->)|[(Ho & ->)|[(Ho & Hh & Hw & Hn & Hr & He)|[(Ho & Hh & Hn & Hr & He)|(Ho & _)]]]];
      simplify_eq; simpl in Hm.
    + right; left. injection Hm as <-. done.
    + injection Hm as <-. do 2 right; left. by split_and!.
    + injection Hm as <-. do 3 right; left. split_and!; try done; cbn [comp closure].
      * by apply rtc_silent_hstep.
      * intros Hst. by apply terminal_add_inputs, He.
    + unfold wait_for_exit in Hm. destruct (thread x) eqn:Hth; simplify_eq.
      do 4 right. split_and!; try done. by apply He.
Qed.

Lemma robot_main_inv_rtc s s' : main_inv s -> rtc (sys_step handler) s s' -> main_inv s'.
Proof. intros Hi Hr. induction Hr; eauto using robot_main_inv_step. Qed.
End Main.

Lemma run_thread_first_sound {W} (handler : Z -> W -> W * list Z) fuel s s' :
  run_thread_first handler fuel s = Some s' -> rtc (sys_step handler) s s'.
Proof.
  revert s. induction fuel as [|fuel IH]; intros [os x]; simpl; [done|].
  unfold thread_move, main_move. simpl.
  destruct (thread_step handler x) as [x'|] eqn:Ht.
  - intros Hr. eapply rtc_l; [by constructor|]. by apply IH.
  - destruct os as [|op os]; [by intros [= <-]|].
    destruct (main_op_step op x) as [[x'|]|] eqn:Hm; try (by intros [= <-]).
    intros Hr. eapply rtc_l; [by constructor|]. by apply IH.
Qed.

Lemma paint_add_inputs n program r0 first :
  paint n program r0 first = run_with handle_computer_output n r0 (add_inputs (new_computer program) [first]).
Proof. reflexivity. Qed.

(** C14: day 11's [main] paints what [Robot.paint] paints.  When the
    program reads its first input before outputting anything, every
    interleaving of [set_output_handler], [start_program],
    [send_input(first)] and the polling [wait_for_exit] with the
    computer thread, the handler answering on the thread, ends, once
    [main] returns, with the robot and the computer of a run of [paint]
    that halts or raises: part 1 and part 2 read the state [paint]
    computes, whatever the schedule. *)
Theorem day11_main_paints program first r0 s :
  (forall c, rtc silent_step (new_computer program) c -> forall v c', step c <> Continue (Some v) c') ->
  rtc (sys_step handle_computer_output) (mkSystem (main_ops first) (new_instance program r0)) s ->
  ops s = [] ->
  exists n, paint n program r0 first = Finished (closure (inst s)) (comp (inst s)) \/
            exists e, paint n program r0 first = Crashed e (closure (inst s)) (comp (inst s)).
Proof.
  intros Hno Hr Ho.
  assert (Hi0 : main_inv handle_computer_output program first r0
                  (mkSystem (main_ops first) (new_instance program r0))) by (by left).
  pose proof (robot_main_inv_rtc handle_computer_output program first r0 Hno _ _ Hi0 Hr) as Hi.
  destruct s as [os x]. unfold main_inv in Hi. cbn [ops inst] in *. subst os.
  destruct Hi as [(Ho & _)|[(Ho & _)|[(Ho & _)|[(Ho & _)|(_ & _ & Hh & Ht)]]]]; try done.
  setoid_rewrite paint_add_inputs. by apply rtc_hstep_run_with.
Qed.

(** A robot program that asks for the panel's color first: it paints
    white and turns right, then paints with the color it reads next and
    turns left. *)
Definition robot_program : list Z := [3;100; 104;1; 104;1; 3;100; 4;100; 104;0; 99].

Lemma day11_main_paints_witness :
  exists s, run_thread_first handle_computer_output 50 (mkSystem (main_ops 0) (new_instance robot_program (initial_robot ∅ ∅))) = Some s /\
    ops s = [] /\
    exists n, paint n robot_program (initial_robot ∅ ∅) 0 = Finished (closure (inst s)) (comp (inst s)) \/
              exists e, paint n robot_program (initial_robot ∅ ∅) 0 = Crashed e (closure (inst s)) (comp (inst s)).
Proof.
  destruct (run_thread_first handle_computer_output 50 (mkSystem (main_ops 0) (new_instance robot_program (initial_robot ∅ ∅))))
    as [s|] eqn:E; [|vm_compute in E; discriminate].
  pose proof E as Ec. vm_compute in Ec. injection Ec as Hs.
  assert (Ho : ops s = []) by (rewrite <- Hs; reflexivity).
  exists s. split_and!; [reflexivity|exact Ho|].
  apply (day11_main_paints robot_program 0 (initial_robot ∅ ∅) s); [|by apply run_thread_first_sound with 50%nat|exact Ho].
  apply wait_first_no_output. vm_compute. reflexivity.
Defined.

(** The order matters when the program outputs first: this program
    paints its panel black, turns left, then reads a color and paints
    the new panel with it.  [paint] (the color queued before the start)
    makes it read part 2's 1 and paint (-1, 0) white; with the thread
    running first, the camera's answer 0 for (-1, 0) is queued, and read,
    before [main]'s [send_input(1)], and nothing stays white. *)
Definition early_output_program : list Z := [104;0; 104;0; 3;100; 4;100; 104;0; 99].

Example start_before_send_matters :
  part2 50 early_output_program ∅ = Some {[mkPoint (-1) 0]} /\
  exists s, run_thread_first handle_computer_output 50
              (mkSystem (main_ops 1) (new_instance early_output_program (initial_robot {[mkPoint 0 0]} ∅))) = Some s /\
    ops s = [] /\ white_panels (closure (inst s)) = ∅.
Proof.
  split; [vm_compute; reflexivity|].
  eexists. split; [vm_compute; reflexivity|]. split; vm_compute; reflexivity.
Qed.
